(** * spacetime-crawler4py: frontier, admission filter, trap detector,
    duplicate detector

  A shallow embedding of [src/7k/scraper.py] and [src/crawler/frontier.py].
  Python [str] values are modelled as [string]; a character of the model
  is a code point below 256.  Python [int] is [Z], a [dict] or [Counter]
  whose iteration order is not observed is a [gmap], a [dict] whose
  insertion order is observed ([domain_queues]) is an association list,
  a [set] is a [gset], [deque(maxlen=...)] is a list with the eviction
  written out.  Module-level globals of [scraper.py] are the fields of one
  state record that every function threads; exceptions are a sum type. *)

From Stdlib Require Import ZArith QArith Lqa String Ascii List Bool Lia.
From stdpp Require Import gmap strings list.
Import ListNotations.

Set Warnings "-register-all".
Local Open Scope string_scope.
Local Open Scope Z_scope.

(* ===================================================================== *)
(** * Python [str] methods                                                *)
(* ===================================================================== *)

Module Py.

Definition ord (c : ascii) : Z := Z.of_nat (nat_of_ascii c).
Definition chr (z : Z) : ascii := ascii_of_nat (Z.to_nat z).

Definition is_upper (c : ascii) : bool :=
  let n := ord c in
  ((65 <=? n) && (n <=? 90)) || ((192 <=? n) && (n <=? 222) && negb (n =? 215)).

(** [c.lower()] on code points below 256: A-Z and the Latin-1 capitals
    (all but the multiplication sign) move up by 32. *)
Definition lower_char (c : ascii) : ascii :=
  if is_upper c then chr (ord c + 32) else c.

Fixpoint lower (s : string) : string :=
  match s with
  | EmptyString => EmptyString
  | String c r => String (lower_char c) (lower r)
  end.

(** [c.isspace()] on code points below 256. *)
Definition isspace (c : ascii) : bool :=
  let n := ord c in
  ((9 <=? n) && (n <=? 13)) || ((28 <=? n) && (n <=? 32))
  || (n =? 133) || (n =? 160).

Definition isdigit (c : ascii) : bool :=
  let n := ord c in (48 <=? n) && (n <=? 57).

Definition isalpha_ascii (c : ascii) : bool :=
  let n := ord c in
  ((65 <=? n) && (n <=? 90)) || ((97 <=? n) && (n <=? 122)).

Definition len (s : string) : Z := Z.of_nat (String.length s).

Definition is_empty (s : string) : bool :=
  match s with EmptyString => true | _ => false end.

Fixpoint rev_onto (s acc : string) : string :=
  match s with
  | EmptyString => acc
  | String c r => rev_onto r (String c acc)
  end.

Definition rev (s : string) : string := rev_onto s EmptyString.

(** [s.lstrip(chars)] with the set of characters given as a predicate. *)
Fixpoint lstrip_by (p : ascii -> bool) (s : string) : string :=
  match s with
  | EmptyString => EmptyString
  | String c r => if p c then lstrip_by p r else s
  end.

Definition rstrip_by (p : ascii -> bool) (s : string) : string :=
  rev (lstrip_by p (rev s)).

(** [s.strip()] *)
Definition strip (s : string) : string :=
  rstrip_by isspace (lstrip_by isspace s).

(** [s.startswith(p)] *)
Fixpoint startswith (s p : string) : bool :=
  match p, s with
  | EmptyString, _ => true
  | String a p', String b s' => Ascii.eqb a b && startswith s' p'
  | String _ _, EmptyString => false
  end.

(** [s.endswith(p)] *)
Definition endswith (s p : string) : bool := startswith (rev s) (rev p).

(** [p in s] *)
Fixpoint contains (s p : string) : bool :=
  startswith s p
  || match s with
     | EmptyString => false
     | String _ r => contains r p
     end.

Fixpoint contains_char (s : string) (c : ascii) : bool :=
  match s with
  | EmptyString => false
  | String a r => Ascii.eqb a c || contains_char r c
  end.

(** [s.partition(c)] for a one-character separator: the text before the
    first [c], whether [c] occurs, and the text after it. *)
Fixpoint partition (c : ascii) (s : string) : string * bool * string :=
  match s with
  | EmptyString => (EmptyString, false, EmptyString)
  | String a r =>
      if Ascii.eqb a c then (EmptyString, true, r)
      else let '(h, f, t) := partition c r in (String a h, f, t)
  end.

(** [s.split(c)] for a one-character separator. *)
Fixpoint split (c : ascii) (s : string) : list string :=
  match s with
  | EmptyString => [EmptyString]
  | String a r =>
      if Ascii.eqb a c then EmptyString :: split c r
      else match split c r with
           | h :: t => String a h :: t
           | [] => [String a EmptyString]
           end
  end.

(** [s.rsplit(c, 1)] for a one-character separator. *)
Definition rsplit1 (c : ascii) (s : string) : list string :=
  let '(t, f, h) := partition c (rev s) in
  if f then [rev h; rev t] else [s].

(** [s.split()]: the maximal runs of non-whitespace characters. *)
Fixpoint split_ws_aux (s cur : string) : list string :=
  match s with
  | EmptyString => if is_empty cur then [] else [rev cur]
  | String a r =>
      if isspace a
      then (if is_empty cur then split_ws_aux r EmptyString
            else rev cur :: split_ws_aux r EmptyString)
      else split_ws_aux r (String a cur)
  end.

Definition split_ws (s : string) : list string := split_ws_aux s EmptyString.

(** [s.replace(c, "")] for a one-character [c]. *)
Fixpoint remove_char (c : ascii) (s : string) : string :=
  match s with
  | EmptyString => EmptyString
  | String a r => if Ascii.eqb a c then remove_char c r
                  else String a (remove_char c r)
  end.

(** [s.replace(a, b)] for one-character [a] and [b]. *)
Fixpoint replace_char (a b : ascii) (s : string) : string :=
  match s with
  | EmptyString => EmptyString
  | String x r => String (if Ascii.eqb x a then b else x) (replace_char a b r)
  end.

(** [sep.join(l)] *)
Fixpoint join (sep : string) (l : list string) : string :=
  match l with
  | [] => EmptyString
  | [x] => x
  | x :: r => x ++ sep ++ join sep r
  end.

(** [x in l] for a list (or set literal) of strings. *)
Definition mem (x : string) (l : list string) : bool :=
  existsb (String.eqb x) l.

(** Comparison of two [str] by code points, as [sorted] uses it. *)
Fixpoint str_leb (a b : string) : bool :=
  match a, b with
  | EmptyString, _ => true
  | String _ _, EmptyString => false
  | String x a', String y b' =>
      if (ord x <? ord y) then true
      else if (ord y <? ord x) then false
      else str_leb a' b'
  end.

Fixpoint insert_sorted (x : string) (l : list string) : list string :=
  match l with
  | [] => [x]
  | y :: r => if str_leb x y then x :: l else y :: insert_sorted x r
  end.

(** [sorted(l)] *)
Definition sorted (l : list string) : list string :=
  fold_right insert_sorted [] l.

(** [str(n)] *)
Fixpoint digits_fuel (fuel : nat) (n : Z) (acc : string) : string :=
  match fuel with
  | O => acc
  | S f =>
      let acc' := String (chr (48 + n mod 10)) acc in
      if n <? 10 then acc' else digits_fuel f (n / 10) acc'
  end.

Definition str_of_Z (n : Z) : string :=
  if n <? 0
  then String "-" (digits_fuel (S (Z.to_nat (Z.log2 (- n)))) (- n) EmptyString)
  else digits_fuel (S (Z.to_nat (Z.log2 n))) n EmptyString.

End Py.

(* ===================================================================== *)
(** * The fragment of Python's [re] that the scraper's patterns use       *)
(* ===================================================================== *)

(** A pattern is kept as the text of the Python raw string literal: a Rocq
  string has no escape sequences, so ["/\\d{4}"] below is the four
  characters slash, backslash, backslash, d followed by [{4}], exactly
  what [r'/\\d{4}'] is in the source.  [compile] reads the pattern the
  way [re] does: a backslash followed by a backslash is one literal
  backslash, [\d] is a digit, [\s] is white space. *)

Module Re.

Inductive atom :=
| Lit (c : ascii)
| AnyChar
| Digit
| Space
| Class (cs : list ascii)
| Eol.

Inductive quant := One | Opt | Plus | Star | Rep (n : nat).

Definition item : Type := atom * quant.

Definition atom_ok (a : atom) (c : ascii) : bool :=
  match a with
  | Lit x => Ascii.eqb x c
  | AnyChar => negb (Ascii.eqb c "010")
  | Digit => Py.isdigit c
  | Space => Py.isspace c
  | Class cs => existsb (Ascii.eqb c) cs
  | Eol => false
  end.

Definition is_special (c : ascii) : bool :=
  existsb (Ascii.eqb c) ["?"; "+"; "*"; "{"; "}"; "("; ")"; "|"; "^"; "]"]%char.

Fixpoint read_class (s : string) (acc : list ascii) : option (list ascii * string) :=
  match s with
  | EmptyString => None
  | String c r =>
      if Ascii.eqb c "]" then Some (List.rev acc, r)
      else if Ascii.eqb c "\" then None
      else read_class r (c :: acc)
  end.

Definition parse_atom (s : string) : option (atom * string) :=
  match s with
  | EmptyString => None
  | String c r =>
      if Ascii.eqb c "\" then
        match r with
        | EmptyString => None
        | String e r' =>
            if Ascii.eqb e "d" then Some (Digit, r')
            else if Ascii.eqb e "s" then Some (Space, r')
            else if Py.isalpha_ascii e || Py.isdigit e then None
            else Some (Lit e, r')
        end
      else if Ascii.eqb c "." then Some (AnyChar, r)
      else if Ascii.eqb c "$" then Some (Eol, r)
      else if Ascii.eqb c "[" then
        match read_class r [] with
        | Some (cs, r') => Some (Class cs, r')
        | None => None
        end
      else if is_special c then None
      else Some (Lit c, r)
  end.

Fixpoint read_count (s : string) (acc : nat) : option (nat * string) :=
  match s with
  | EmptyString => None
  | String c r =>
      if Ascii.eqb c "}" then Some (acc, r)
      else if Py.isdigit c
           then read_count r (10 * acc + Z.to_nat (Py.ord c - 48))%nat
           else None
  end.

Definition parse_quant (s : string) : option (quant * string) :=
  match s with
  | String c r =>
      if Ascii.eqb c "?" then Some (Opt, r)
      else if Ascii.eqb c "+" then Some (Plus, r)
      else if Ascii.eqb c "*" then Some (Star, r)
      else if Ascii.eqb c "{" then
        match read_count r 0%nat with
        | Some (n, r') => Some (Rep n, r')
        | None => None
        end
      else Some (One, s)
  | EmptyString => Some (One, s)
  end.

Fixpoint compile_fuel (fuel : nat) (s : string) : option (list item) :=
  match fuel with
  | O => None
  | S f =>
      match s with
      | EmptyString => Some []
      | _ =>
          match parse_atom s with
          | None => None
          | Some (a, r) =>
              match parse_quant r with
              | None => None
              | Some (q, r') =>
                  match compile_fuel f r' with
                  | Some l => Some ((a, q) :: l)
                  | None => None
                  end
              end
          end
      end
  end.

(** [re.compile(p)]; [None] where the pattern is outside the fragment. *)
Definition compile (p : string) : option (list item) :=
  compile_fuel (S (String.length p)) p.

(** Greedy repetition of one atom, then the continuation [k]; the longest
    run is tried first and given back one character at a time. *)
Fixpoint star (a : atom) (k : string -> option string) (s : string) : option string :=
  match s with
  | String c r =>
      if atom_ok a c then
        match star a k r with
        | Some x => Some x
        | None => k s
        end
      else k s
  | EmptyString => k s
  end.

Fixpoint times (n : nat) (a : atom) (k : string -> option string) (s : string)
  : option string :=
  match n with
  | O => k s
  | S m =>
      match s with
      | String c r => if atom_ok a c then times m a k r else None
      | EmptyString => None
      end
  end.

Definition at_end (s : string) : bool :=
  match s with
  | EmptyString => true
  | String c EmptyString => Ascii.eqb c "010"
  | _ => false
  end.

(** A match of the whole pattern at the start of [s]: what is left of [s]
    after the match the backtracking matcher finds first. *)
Fixpoint match_items (items : list item) (s : string) : option string :=
  match items with
  | [] => Some s
  | (Eol, _) :: rest => if at_end s then match_items rest s else None
  | (a, One) :: rest => times 1 a (match_items rest) s
  | (a, Rep n) :: rest => times n a (match_items rest) s
  | (a, Opt) :: rest =>
      match times 1 a (match_items rest) s with
      | Some x => Some x
      | None => match_items rest s
      end
  | (a, Star) :: rest => star a (match_items rest) s
  | (a, Plus) :: rest => times 1 a (star a (match_items rest)) s
  end.

Fixpoint search_items (items : list item) (s : string) : bool :=
  match match_items items s with
  | Some _ => true
  | None =>
      match s with
      | EmptyString => false
      | String _ r => search_items items r
      end
  end.

(** [re.search(p, s) is not None] *)
Definition search (p s : string) : bool :=
  match compile p with
  | Some items => search_items items s
  | None => false
  end.

(** Replacement of the non-overlapping matches, leftmost first.  [skip]
    counts the characters of the current match still to be dropped. *)
Fixpoint sub_items (items : list item) (repl : string) (s : string) (skip : nat)
  : string :=
  match s with
  | EmptyString =>
      match skip, match_items items EmptyString with
      | O, Some _ => repl
      | _, _ => EmptyString
      end
  | String c r =>
      match skip with
      | S k => sub_items items repl r k
      | O =>
          match match_items items s with
          | Some rest =>
              match (String.length s - String.length rest)%nat with
              | O => repl ++ String c (sub_items items repl r O)
              | S k => repl ++ sub_items items repl r k
              end
          | None => String c (sub_items items repl r O)
          end
      end
  end.

(** [re.sub(p, repl, s)] *)
Definition sub (p repl s : string) : string :=
  match compile p with
  | Some items => sub_items items repl s O
  | None => s
  end.

End Re.

(* ===================================================================== *)
(** * Exceptions, and the library functions taken as an interface        *)
(* ===================================================================== *)

(** An exception, with the text that [str(e)] gives. *)
Inductive exc :=
| ValueError (msg : string)
| AttributeError (msg : string)
| QueueEmpty
| LibraryError (msg : string).

Definition str_exc (e : exc) : string :=
  match e with
  | ValueError m | AttributeError m | LibraryError m => m
  | QueueEmpty => EmptyString
  end.

Inductive result (A : Type) :=
| Ok (a : A)
| Raise (e : exc).
Arguments Ok {A} a.
Arguments Raise {A} e.

(** The document tree that [BeautifulSoup(content, "lxml")] builds: text
  nodes and tags with their attributes and children. *)
Inductive node :=
| Text (s : string)
| Tag (name : string) (attrs : list (string * string)) (children : list node).

(** Library functions whose bodies are not part of the repository and whose
  results the crawler only passes on.  [py_hash] is the built-in [hash]
  on [str], seeded per process; [unquote] is [urllib.parse.unquote];
  [check_bracketed_netloc] says whether [urllib.parse] accepts a netloc
  that has both brackets (its IPv6 and IPvFuture validation);
  [html_parse] is [BeautifulSoup(content, "lxml")]; [urljoin] and
  [urldefrag] are those of [urllib.parse], [urldefrag] already projected
  on the URL without its fragment; [md5_hex s] is
  [hashlib.md5(s.encode('utf-8', errors='ignore')).hexdigest()]. *)
Class PyLib := {
  py_hash : string -> Z;
  md5_hex : string -> string;
  unquote : string -> string;
  check_bracketed_netloc : string -> bool;
  html_parse : string -> result (list node);
  urljoin : string -> string -> result string;
  urldefrag : string -> result string;
}.

(* ===================================================================== *)
(** * [urllib.parse]: [urlparse] and [parse_qs]                           *)
(* ===================================================================== *)

Module Url.

Record ParseResult := {
  scheme : string;
  netloc : string;
  path : string;
  params : string;
  query : string;
  fragment : string;
}.

(** [_WHATWG_C0_CONTROL_OR_SPACE] *)
Definition c0_control_or_space (c : ascii) : bool := Py.ord c <=? 32.

(** [scheme_chars]: letters, digits and [+-.] *)
Definition scheme_char (c : ascii) : bool :=
  Py.isalpha_ascii c || Py.isdigit c
  || Ascii.eqb c "+" || Ascii.eqb c "-" || Ascii.eqb c ".".

Fixpoint all_chars (p : ascii -> bool) (s : string) : bool :=
  match s with
  | EmptyString => true
  | String c r => p c && all_chars p r
  end.

(** The first two steps of [urlsplit]: strip leading C0 controls and
    spaces, then drop every tab, carriage return and line feed. *)
Definition sanitize (url : string) : string :=
  Py.remove_char "010"
    (Py.remove_char "013"
       (Py.remove_char "009" (Py.lstrip_by c0_control_or_space url))).

(** [url[:i].lower(), url[i+1:]] when the text before the first colon is
    a scheme name, else no scheme. *)
Definition split_scheme (url : string) : string * string :=
  let '(before, found, after) := Py.partition ":" url in
  match before with
  | String c0 _ =>
      if found && Py.isalpha_ascii c0 && all_chars scheme_char before
      then (Py.lower before, after)
      else (EmptyString, url)
  | EmptyString => (EmptyString, url)
  end.

Definition is_delim (c : ascii) : bool :=
  Ascii.eqb c "/" || Ascii.eqb c "?" || Ascii.eqb c "#".

(** [_splitnetloc(url, 0)] on the text after the two slashes. *)
Fixpoint splitnetloc (s : string) : string * string :=
  match s with
  | EmptyString => (EmptyString, EmptyString)
  | String c r =>
      if is_delim c then (EmptyString, s)
      else let '(n, rest) := splitnetloc r in (String c n, rest)
  end.

(** [urlsplit(url)].  [_checknetloc] is left out: it returns at once on an
    ASCII netloc, and no code point below 256 normalises under NFKC to
    one of the characters it rejects. *)
Definition urlsplit `{PyLib} (url0 : string)
  : result (string * string * string * string * string) :=
  let url := sanitize url0 in
  let '(sch, url) := split_scheme url in
  let split_rest (nl url : string) :=
    let '(url, _, frag) := Py.partition "#" url in
    let '(url, _, qry) := Py.partition "?" url in
    Ok (sch, nl, url, qry, frag) in
  match url with
  | String "/" (String "/" after) =>
      let '(nl, url) := splitnetloc after in
      let has_open := Py.contains_char nl "[" in
      let has_close := Py.contains_char nl "]" in
      if (has_open && negb has_close) || (has_close && negb has_open)
      then Raise (ValueError "Invalid IPv6 URL")
      else if has_open && has_close && negb (check_bracketed_netloc nl)
      then Raise (ValueError "Invalid IPv6 URL")
      else split_rest nl url
  | _ => split_rest EmptyString url
  end.

Definition uses_params : list string :=
  [""; "ftp"; "hdl"; "prospero"; "http"; "imap"; "https"; "shttp"; "rtsp";
   "rtsps"; "rtspu"; "sip"; "sips"; "mms"; "sftp"; "tel"].

(** [_splitparams(url)]: the parameters start at the first semicolon of
    the last path segment. *)
Definition splitparams (url : string) : string * string :=
  if Py.contains_char url "/" then
    let '(last_rev, _, front_rev) := Py.partition "/" (Py.rev url) in
    let '(seg, found, prm) := Py.partition ";" (Py.rev last_rev) in
    if found then (Py.rev front_rev ++ "/" ++ seg, prm)
    else (url, EmptyString)
  else
    let '(seg, _, prm) := Py.partition ";" url in (seg, prm).

(** [urlparse(url)] *)
Definition urlparse `{PyLib} (url : string) : result ParseResult :=
  match urlsplit url with
  | Raise e => Raise e
  | Ok (sch, nl, p, q, f) =>
      let '(p, prm) :=
        if Py.mem sch uses_params && Py.contains_char p ";"
        then splitparams p else (p, EmptyString) in
      Ok {| scheme := sch; netloc := nl; path := p; params := prm;
            query := q; fragment := f |}
  end.

(** [parse_qsl(qs)] with the defaults: fields are separated by [&], a
    field without [=] or with an empty value is dropped, [+] is a space. *)
Definition parse_qsl `{PyLib} (qs : string) : list (string * string) :=
  flat_map
    (fun name_value =>
       let '(name, found, value) := Py.partition "=" name_value in
       if found && negb (Py.is_empty value)
       then [(unquote (Py.replace_char "+" " " name),
              unquote (Py.replace_char "+" " " value))]
       else [])
    (Py.split "&" qs).

Fixpoint dict_append (d : list (string * list string)) (k v : string)
  : list (string * list string) :=
  match d with
  | [] => [(k, [v])]
  | (k', vs) :: r =>
      if String.eqb k' k then (k', (vs ++ [v])%list) :: r
      else (k', vs) :: dict_append r k v
  end.

(** [parse_qs(qs)]: a [dict] from each name to the list of its values, in
    the order the names first occur. *)
Definition parse_qs `{PyLib} (qs : string) : list (string * list string) :=
  fold_left (fun d nv => dict_append d (fst nv) (snd nv)) (parse_qsl qs) [].

Definition dict_get (d : list (string * list string)) (k : string)
  : option (list string) :=
  match List.find (fun kv => String.eqb (fst kv) k) d with
  | Some kv => Some (snd kv)
  | None => None
  end.

End Url.

(* ===================================================================== *)
(** * [src/7k/scraper.py]                                                 *)
(* ===================================================================== *)

Module Scraper.

(** ** Configuration *)

Definition VALID_DOMAINS : list string :=
  ["ics.uci.edu"; "cs.uci.edu"; "informatics.uci.edu"; "stat.uci.edu"].

Definition MAX_CONTENT_SIZE : Z := 5 * 1024 * 1024.
Definition MIN_WORD_COUNT : Z := 50.
Definition MAX_PATH_DEPTH : Z := 12.
Definition MAX_URL_LENGTH : Z := 600.
Definition SIMHASH_THRESHOLD : Z := 10.
Definition SIMHASH_WINDOW : nat := 1000.

Definition INVALID_EXTENSIONS : list string :=
  ["pdf"; "doc"; "docx"; "ppt"; "pptx"; "xls"; "xlsx";
   "txt"; "rtf"; "odt"; "ods"; "odp";
   "zip"; "rar"; "tar"; "gz"; "7z"; "bz2";
   "jpg"; "jpeg"; "png"; "gif"; "bmp"; "svg"; "ico"; "webp";
   "mp4"; "avi"; "mov"; "mpg"; "mpeg"; "flv";
   "mp3"; "wav"; "wma"; "aac";
   "css"; "js"; "json"; "xml"; "rss"; "atom"; "csv";
   "lif"; "mat"; "dat"; "rdata"; "rds";
   "arff"; "weka"; "sav"; "pkl"; "pickle";
   "log"; "bak"; "tmp"].

Definition ALLOWED_EXTENSIONS : list string :=
  ["html"; "htm"; "php"; "asp"; "aspx"; "jsp"; "shtml"; "xhtml"].

(** ** Global tracking *)

(** An entry of [processing_log]; the timestamp is left out. *)
Record log_entry := {
  log_url : string;
  log_status : string;
  log_reason : string;
  log_links_found : Z;
}.

(** The JSON document that [save_page_data] writes. *)
Record page_data := {
  pd_url : string;
  pd_word_count : Z;
  pd_words : list string;
  pd_content_hash : string;
}.

(** The module-level globals, and the two places on disk the module
    writes: [log_file] is [crawler_logs/processing_log.jsonl] and
    [page_store] is the directory [crawl_data], one entry per file, keyed
    by the file's name without [.json]. *)
Record State := {
  pages_processed : Z;
  pages_saved : Z;
  links_discovered : Z;
  duplicates_found : Z;
  seen_exact_hashes : gset string;
  seen_simhashes : list (Z * string);
  rejection_stats : gmap string Z;
  rejection_samples : gmap string (list string);
  processing_log : list log_entry;
  url_pattern_counter : gmap string Z;
  domain_path_counter : gmap string (gmap string Z);
  log_file : list log_entry;
  page_store : gmap string page_data;
}.

(** The state when the module has just been imported. *)
Definition initial : State :=
  {| pages_processed := 0; pages_saved := 0; links_discovered := 0;
     duplicates_found := 0; seen_exact_hashes := ∅; seen_simhashes := [];
     rejection_stats := ∅; rejection_samples := ∅; processing_log := [];
     url_pattern_counter := ∅; domain_path_counter := ∅;
     log_file := []; page_store := ∅ |}.

(** One setter for each global. *)
Definition set_pages_processed (v : Z) (st : State) : State :=
  {| pages_processed := v; pages_saved := pages_saved st;
     links_discovered := links_discovered st;
     duplicates_found := duplicates_found st;
     seen_exact_hashes := seen_exact_hashes st;
     seen_simhashes := seen_simhashes st;
     rejection_stats := rejection_stats st;
     rejection_samples := rejection_samples st;
     processing_log := processing_log st;
     url_pattern_counter := url_pattern_counter st;
     domain_path_counter := domain_path_counter st; log_file := log_file st;
     page_store := page_store st |}.

Definition set_pages_saved (v : Z) (st : State) : State :=
  {| pages_processed := pages_processed st; pages_saved := v;
     links_discovered := links_discovered st;
     duplicates_found := duplicates_found st;
     seen_exact_hashes := seen_exact_hashes st;
     seen_simhashes := seen_simhashes st;
     rejection_stats := rejection_stats st;
     rejection_samples := rejection_samples st;
     processing_log := processing_log st;
     url_pattern_counter := url_pattern_counter st;
     domain_path_counter := domain_path_counter st; log_file := log_file st;
     page_store := page_store st |}.

Definition set_links_discovered (v : Z) (st : State) : State :=
  {| pages_processed := pages_processed st; pages_saved := pages_saved st;
     links_discovered := v; duplicates_found := duplicates_found st;
     seen_exact_hashes := seen_exact_hashes st;
     seen_simhashes := seen_simhashes st;
     rejection_stats := rejection_stats st;
     rejection_samples := rejection_samples st;
     processing_log := processing_log st;
     url_pattern_counter := url_pattern_counter st;
     domain_path_counter := domain_path_counter st; log_file := log_file st;
     page_store := page_store st |}.

Definition set_duplicates_found (v : Z) (st : State) : State :=
  {| pages_processed := pages_processed st; pages_saved := pages_saved st;
     links_discovered := links_discovered st; duplicates_found := v;
     seen_exact_hashes := seen_exact_hashes st;
     seen_simhashes := seen_simhashes st;
     rejection_stats := rejection_stats st;
     rejection_samples := rejection_samples st;
     processing_log := processing_log st;
     url_pattern_counter := url_pattern_counter st;
     domain_path_counter := domain_path_counter st; log_file := log_file st;
     page_store := page_store st |}.

Definition set_seen_exact_hashes (v : gset string) (st : State) : State :=
  {| pages_processed := pages_processed st; pages_saved := pages_saved st;
     links_discovered := links_discovered st;
     duplicates_found := duplicates_found st; seen_exact_hashes := v;
     seen_simhashes := seen_simhashes st;
     rejection_stats := rejection_stats st;
     rejection_samples := rejection_samples st;
     processing_log := processing_log st;
     url_pattern_counter := url_pattern_counter st;
     domain_path_counter := domain_path_counter st; log_file := log_file st;
     page_store := page_store st |}.

Definition set_seen_simhashes (v : list (Z * string)) (st : State) : State :=
  {| pages_processed := pages_processed st; pages_saved := pages_saved st;
     links_discovered := links_discovered st;
     duplicates_found := duplicates_found st;
     seen_exact_hashes := seen_exact_hashes st; seen_simhashes := v;
     rejection_stats := rejection_stats st;
     rejection_samples := rejection_samples st;
     processing_log := processing_log st;
     url_pattern_counter := url_pattern_counter st;
     domain_path_counter := domain_path_counter st; log_file := log_file st;
     page_store := page_store st |}.

Definition set_rejection_stats (v : gmap string Z) (st : State) : State :=
  {| pages_processed := pages_processed st; pages_saved := pages_saved st;
     links_discovered := links_discovered st;
     duplicates_found := duplicates_found st;
     seen_exact_hashes := seen_exact_hashes st;
     seen_simhashes := seen_simhashes st; rejection_stats := v;
     rejection_samples := rejection_samples st;
     processing_log := processing_log st;
     url_pattern_counter := url_pattern_counter st;
     domain_path_counter := domain_path_counter st; log_file := log_file st;
     page_store := page_store st |}.

Definition set_rejection_samples (v : gmap string (list string)) (st : State) : State :=
  {| pages_processed := pages_processed st; pages_saved := pages_saved st;
     links_discovered := links_discovered st;
     duplicates_found := duplicates_found st;
     seen_exact_hashes := seen_exact_hashes st;
     seen_simhashes := seen_simhashes st;
     rejection_stats := rejection_stats st; rejection_samples := v;
     processing_log := processing_log st;
     url_pattern_counter := url_pattern_counter st;
     domain_path_counter := domain_path_counter st; log_file := log_file st;
     page_store := page_store st |}.

Definition set_processing_log (v : list log_entry) (st : State) : State :=
  {| pages_processed := pages_processed st; pages_saved := pages_saved st;
     links_discovered := links_discovered st;
     duplicates_found := duplicates_found st;
     seen_exact_hashes := seen_exact_hashes st;
     seen_simhashes := seen_simhashes st;
     rejection_stats := rejection_stats st;
     rejection_samples := rejection_samples st; processing_log := v;
     url_pattern_counter := url_pattern_counter st;
     domain_path_counter := domain_path_counter st; log_file := log_file st;
     page_store := page_store st |}.

Definition set_url_pattern_counter (v : gmap string Z) (st : State) : State :=
  {| pages_processed := pages_processed st; pages_saved := pages_saved st;
     links_discovered := links_discovered st;
     duplicates_found := duplicates_found st;
     seen_exact_hashes := seen_exact_hashes st;
     seen_simhashes := seen_simhashes st;
     rejection_stats := rejection_stats st;
     rejection_samples := rejection_samples st;
     processing_log := processing_log st; url_pattern_counter := v;
     domain_path_counter := domain_path_counter st; log_file := log_file st;
     page_store := page_store st |}.

Definition set_domain_path_counter (v : gmap string (gmap string Z)) (st : State) : State :=
  {| pages_processed := pages_processed st; pages_saved := pages_saved st;
     links_discovered := links_discovered st;
     duplicates_found := duplicates_found st;
     seen_exact_hashes := seen_exact_hashes st;
     seen_simhashes := seen_simhashes st;
     rejection_stats := rejection_stats st;
     rejection_samples := rejection_samples st;
     processing_log := processing_log st;
     url_pattern_counter := url_pattern_counter st; domain_path_counter := v;
     log_file := log_file st; page_store := page_store st |}.

Definition set_log_file (v : list log_entry) (st : State) : State :=
  {| pages_processed := pages_processed st; pages_saved := pages_saved st;
     links_discovered := links_discovered st;
     duplicates_found := duplicates_found st;
     seen_exact_hashes := seen_exact_hashes st;
     seen_simhashes := seen_simhashes st;
     rejection_stats := rejection_stats st;
     rejection_samples := rejection_samples st;
     processing_log := processing_log st;
     url_pattern_counter := url_pattern_counter st;
     domain_path_counter := domain_path_counter st; log_file := v;
     page_store := page_store st |}.

Definition set_page_store (v : gmap string page_data) (st : State) : State :=
  {| pages_processed := pages_processed st; pages_saved := pages_saved st;
     links_discovered := links_discovered st;
     duplicates_found := duplicates_found st;
     seen_exact_hashes := seen_exact_hashes st;
     seen_simhashes := seen_simhashes st;
     rejection_stats := rejection_stats st;
     rejection_samples := rejection_samples st;
     processing_log := processing_log st;
     url_pattern_counter := url_pattern_counter st;
     domain_path_counter := domain_path_counter st; log_file := log_file st;
     page_store := v |}.

(** ** Computations over the globals that may raise *)

Definition M (A : Type) : Type := State -> result A * State.

Definition ret {A} (a : A) : M A := fun st => (Ok a, st).

Definition bind {A B} (m : M A) (f : A -> M B) : M B :=
  fun st =>
    match m st with
    | (Ok a, st') => f a st'
    | (Raise e, st') => (Raise e, st')
    end.

Definition raise {A} (e : exc) : M A := fun st => (Raise e, st).

(** [try: m  except Exception as e: h e]: what [m] did to the globals
    before it raised stays done. *)
Definition try_except {A} (m : M A) (h : exc -> M A) : M A :=
  fun st =>
    match m st with
    | (Ok a, st') => (Ok a, st')
    | (Raise e, st') => h e st'
    end.

Definition lift {A} (r : result A) : M A := fun st => (r, st).
Definition modify (f : State -> State) : M unit := fun st => (Ok tt, f st).
Definition gets {A} (f : State -> A) : M A := fun st => (Ok (f st), st).

(** A computation that returns in every state. *)
Definition never_raises {A} (m : M A) : Prop :=
  forall st, exists a, fst (m st) = Ok a.

(** A computation that leaves an observation of the globals as it was. *)
Definition preserves {A X} (observe : State -> X) (m : M A) : Prop :=
  forall st, observe (snd (m st)) = observe st.

(** A computation whose final globals stand in a relation to the ones it
    started from. *)
Definition along {A} (R : State -> State -> Prop) (m : M A) : Prop :=
  forall st, R st (snd (m st)).

(** A computation whose value, when it returns one, has a property. *)
Definition yields {A} (P : A -> Prop) (m : M A) : Prop :=
  forall st a, fst (m st) = Ok a -> P a.

(** What is saved: the page store and the count of saved pages. *)
Definition pages (st : State) : gmap string page_data * Z :=
  (page_store st, pages_saved st).

Declare Scope py_scope.
Delimit Scope py_scope with py.
Notation "x <- m ;; k" := (bind m (fun x => k))
  (at level 20, m at level 99, k at level 200, only parsing) : py_scope.
Local Open Scope py_scope.

(** [d[k]] on a [defaultdict(int)] or a [Counter] *)
Definition count_of (d : gmap string Z) (k : string) : Z := default 0 (d !! k).

(** ** Duplicate detection *)

Section WithLib.
Context `{PyLib}.

Definition mask64 (z : Z) : Z := Z.land z (Z.ones 64).

(** [words[i:i+3]] joined by one space *)
Definition shingle_at (words : list string) (i : nat) : string :=
  Py.join " " (firstn 3 (skipn i words)).

(** [range(0, stop, step)] for a positive [step] *)
Fixpoint range_step (fuel : nat) (i stop step : nat) : list nat :=
  match fuel with
  | O => []
  | S f => if (i <? stop)%nat then i :: range_step f (i + step)%nat stop step else []
  end.

Definition shingles_of (words : list string) : list string :=
  let n := length words in
  if (500 <? n)%nat then
    let step := (n / 250)%nat in
    map (shingle_at words) (range_step n 0 (n - 2) step)
  else
    map (shingle_at words) (seq 0 (n - 2)).

(** One pass of the inner loop: every counter goes up where the bit of
    the shingle's hash is set and down where it is not. *)
Definition vote (vector : list Z) (shingle_hash : Z) : list Z :=
  imap (fun i v => if Z.testbit shingle_hash (Z.of_nat i) then v + 1 else v - 1)
       vector.

Definition fingerprint_of (vector : list Z) : Z :=
  fold_left (fun fp iv => if 0 <? snd iv then Z.lor fp (Z.shiftl 1 (Z.of_nat (fst iv))) else fp)
            (combine (seq 0 (length vector)) vector) 0.

Definition compute_simhash (text : string) : Z :=
  let words := Py.split_ws text in
  if (length words <? 3)%nat then mask64 (py_hash text)
  else
    let shingles := shingles_of words in
    match shingles with
    | [] => 0
    | _ =>
        let vector :=
          fold_left (fun v sh => vote v (mask64 (py_hash sh))) shingles
                    (repeat 0 64) in
        fingerprint_of vector
    end.

Fixpoint popcount_pos (p : positive) : Z :=
  match p with
  | xH => 1
  | xO q => popcount_pos q
  | xI q => 1 + popcount_pos q
  end.

(** [bin(x).count('1')] *)
Definition count_ones (x : Z) : Z :=
  match x with
  | Z0 => 0
  | Zpos p | Zneg p => popcount_pos p
  end.

Definition hamming_distance (hash1 hash2 : Z) : Z :=
  count_ones (Z.lxor hash1 hash2).

(** [d.append(x)] on a [deque(maxlen=maxlen)]: the new entry goes to the
    right end and, when that makes the deque too long, the entry at the
    left end is dropped. *)
Definition deque_append {A} (maxlen : nat) (d : list A) (x : A) : list A :=
  let d' := (d ++ [x])%list in
  if (maxlen <? length d')%nat then tail d' else d'.

Definition is_duplicate (text_content url : string) : M (bool * option string) :=
  if Py.is_empty text_content || (Py.len (Py.strip text_content) <? 100)
  then ret (true, Some "too_short")
  else
    let content_hash := md5_hex text_content in
    seen <- gets seen_exact_hashes ;;
    if decide (content_hash ∈ seen) then
      _ <- modify (fun st => set_duplicates_found (duplicates_found st + 1) st) ;;
      ret (true, Some "exact")
    else
      _ <- modify (set_seen_exact_hashes ({[content_hash]} ∪ seen)) ;;
      let content_simhash := compute_simhash text_content in
      ring <- gets seen_simhashes ;;
      if existsb (fun e => hamming_distance content_simhash (fst e) <=? SIMHASH_THRESHOLD)
                 ring
      then
        _ <- modify (fun st => set_duplicates_found (duplicates_found st + 1) st) ;;
        ret (true, Some "similar")
      else
        _ <- modify (set_seen_simhashes (deque_append SIMHASH_WINDOW ring (content_simhash, url))) ;;
        ret (false, None).

(** A sequence of [is_duplicate(text, url)] calls, each on the globals the
    one before left. *)
Fixpoint is_duplicate_all (calls : list (string * string)) (st : State) : State :=
  match calls with
  | [] => st
  | (text, url) :: rest => is_duplicate_all rest (snd (is_duplicate text url st))
  end.

(** ** Logging *)

Definition save_processing_log : M unit :=
  modify (fun st =>
    match processing_log st with
    | [] => st
    | entries => set_processing_log [] (set_log_file (log_file st ++ entries)%list st)
    end).

Definition log_processing (url status reason : string) (links_found : Z) : M unit :=
  _ <- modify (fun st =>
    set_processing_log
      (processing_log st ++
         [{| log_url := url; log_status := status; log_reason := reason;
             log_links_found := links_found |}])%list st) ;;
  pl <- gets processing_log ;;
  if Z.of_nat (length pl) mod 100 =? 0 then save_processing_log else ret tt.

Definition log_rejection (reason url : string) (save_sample : bool) : M unit :=
  modify (fun st =>
    let st := set_rejection_stats
                (<[reason := count_of (rejection_stats st) reason + 1]> (rejection_stats st)) st in
    if save_sample then
      let samples := default [] (rejection_samples st !! reason) in
      if (length samples <? 5)%nat
      then set_rejection_samples
             (<[reason := (samples ++ [url])%list]> (rejection_samples st)) st
      else st
    else st).


(** ** Patterns *)

Definition CALENDAR_PATTERNS : list string :=
  ["/calendar"; "/events?/"; "/event-calendar"; "/ical";
   "/\\.ics$"; "[?&]calendar"; "[?&]event";
   "[?&]date="; "[?&]month="; "[?&]year=";
   "/\\d{4}/\\d{2}/\\d{2}"].

Definition TRAP_PATTERNS : list string :=
  ["/wp-admin"; "/wp-login"; "/login"; "/logout";
   "/signin"; "/signout"; "/register"; "/signup";
   "/user/"; "/account"; "/profile"; "/dashboard"; "/admin"].

Definition LEGITIMATE_PATTERNS : list string :=
  ["/wiki/"; "/archive/"; "/docs/"; "/pub/";
   "/repository/"; "/faculty/"; "/courses?/";
   "/research/"; "/projects?/"; "/publications?/"].

Definition is_calendar_or_event (url : string) : bool :=
  existsb (fun p => Re.search p (Py.lower url)) CALENDAR_PATTERNS.

Definition is_known_trap (url : string) : bool :=
  existsb (fun p => Re.search p (Py.lower url)) TRAP_PATTERNS.

Definition is_legitimate_pattern (url : string) : bool :=
  existsb (fun p => Re.search p (Py.lower url)) LEGITIMATE_PATTERNS.

(** ** [int(s)] on a [str] *)

(** The digits of a decimal literal, where single underscores may stand
    between digits; [prev] says whether the character before was a
    digit. *)
Fixpoint int_digits (s : string) (prev : bool) (acc : Z) (n : nat) : option (Z * nat) :=
  match s with
  | EmptyString => if prev then Some (acc, n) else None
  | String c r =>
      if Py.isdigit c then int_digits r true (10 * acc + (Py.ord c - 48)) (S n)
      else if Ascii.eqb c "_" && prev then int_digits r false acc n
      else None
  end.

(** The white space that [int] skips around a literal. *)
Definition int_space (c : ascii) : bool :=
  let n := Py.ord c in
  ((9 <=? n) && (n <=? 13)) || (n =? 32) || (n =? 133) || (n =? 160).

(** [int(s)]; [None] is [ValueError].  White space around the literal is
    ignored, a sign may come first, and a literal of more than 4300
    digits is refused. *)
Definition py_int (s : string) : option Z :=
  let body := Py.rstrip_by int_space (Py.lstrip_by int_space s) in
  let '(neg, ds) :=
    match body with
    | String "-" r => (true, r)
    | String "+" r => (false, r)
    | _ => (false, body)
    end in
  match int_digits ds false 0 0%nat with
  | Some (v, n) => if (4300 <? n)%nat then None else Some (if neg then - v else v)
  | None => None
  end.

(** ** The trap detector *)

Definition get_url_pattern (url : string) : string :=
  match Url.urlparse url with
  | Raise _ => url
  | Ok parsed =>
      let path := Re.sub "\\d+" "N" (Url.path parsed) in
      let path := Re.sub "\\d{4}-\\d{2}-\\d{2}" "DATE" path in
      if is_legitimate_pattern url then Url.netloc parsed ++ path
      else
        let query_keys :=
          if negb (Py.is_empty (Url.query parsed))
          then Py.join "&" (Py.sorted (map fst (Url.parse_qs (Url.query parsed))))
          else "" in
        Url.netloc parsed ++ path ++ "?" ++ query_keys
  end.

Definition occurrences (x : string) (l : list string) : Z :=
  Z.of_nat (length (List.filter (fun y => String.eqb x y) l)).

Definition is_url_trap (url : string) : M bool :=
  try_except
    (parsed <- lift (Url.urlparse url) ;;
     let path_parts :=
       List.filter (fun p => negb (Py.is_empty p)) (Py.split "/" (Url.path parsed)) in
     (* 1. Path depth *)
     let max_depth := if is_legitimate_pattern url then 15 else MAX_PATH_DEPTH in
     if max_depth <? Z.of_nat (length path_parts) then ret true
     else
     (* 2. Repeating segments *)
     if negb (is_legitimate_pattern url)
        && existsb (fun seg => 3 <? occurrences seg path_parts) path_parts
     then ret true
     else
     (* 3. Pattern frequency *)
     let pattern := get_url_pattern url in
     _ <- modify (fun st =>
            set_url_pattern_counter
              (<[pattern := count_of (url_pattern_counter st) pattern + 1]>
                 (url_pattern_counter st)) st) ;;
     seen <- gets (fun st => count_of (url_pattern_counter st) pattern) ;;
     let max_repeats := if is_legitimate_pattern url then 150 else 75 in
     if max_repeats <? seen then ret true
     else
     (* 4. Pagination *)
     let query := Url.query parsed in
     if negb (Py.is_empty query)
        && (let query_params := Url.parse_qs query in
            existsb
              (fun param =>
                 match Url.dict_get query_params param with
                 | Some (v :: _) =>
                     match py_int v with
                     | Some n => 200 <? n
                     | None => false
                     end
                 | _ => false
                 end)
              ["page"; "p"; "offset"; "start"])
     then ret true
     else
     (* 5. Query length *)
     if 200 <? Py.len query then ret true
     else
     (* 6. Filter combinations *)
     if negb (Py.is_empty query)
        && (4 <=? Z.of_nat
                    (length (List.filter (fun p => Py.contains (Py.lower query) p)
                                    ["sort"; "order"; "filter"; "view"; "display"])))
     then ret true
     else
     (* 7. Same path repeats *)
     let host := Url.netloc parsed in
     let pth := Url.path parsed in
     _ <- modify (fun st =>
            let per_host := default ∅ (domain_path_counter st !! host) in
            set_domain_path_counter
              (<[host := <[pth := count_of per_host pth + 1]> per_host]>
                 (domain_path_counter st)) st) ;;
     same <- gets (fun st =>
               count_of (default ∅ (domain_path_counter st !! host)) pth) ;;
     let max_same := if is_legitimate_pattern url then 25 else 15 in
     if max_same <? same then ret true else ret false)
    (fun _ => ret false).

(** ** URL validation *)

Definition blocked : list string :=
  ["physics.uci.edu"; "economics.uci.edu"; "chem.uci.edu";
   "bio.uci.edu"; "math.uci.edu"; "engineering.uci.edu";
   "cecs.uci.edu"; "eecs.uci.edu"; "nacs.uci.edu"].

Definition host_in (netloc : string) (domains : list string) : bool :=
  existsb (fun d => String.eqb netloc d || Py.endswith netloc ("." ++ d)) domains.

Definition reject (reason url : string) (save_sample : bool) : M bool :=
  _ <- log_rejection reason url save_sample ;; ret false.

(** The body of the [try] block of [is_valid]. *)
Definition is_valid_body (url : string) : M bool :=
  parsed <- lift (Url.urlparse url) ;;
  (* 1. Scheme *)
  if negb (Py.mem (Url.scheme parsed) ["http"; "https"])
  then reject "bad_scheme" url false
  else
  (* 2. Domain *)
  let netloc := Py.lower (Url.netloc parsed) in
  if negb (host_in netloc VALID_DOMAINS) then reject "bad_domain" url false
  else
  (* 3. Blocked domains *)
  if host_in netloc blocked then reject "blocked_domain" url false
  else
  (* 4. URL length *)
  if MAX_URL_LENGTH <? Py.len url then reject "url_too_long" url false
  else
  (* 5. Calendar/events *)
  if is_calendar_or_event url then reject "calendar_event" url true
  else
  (* 6. Known traps *)
  if is_known_trap url then reject "known_trap" url true
  else
  (* 7. Dynamic traps *)
  trapped <- is_url_trap url ;;
  if trapped then reject "url_trap" url false
  else
  let path_lower := Py.lower (Url.path parsed) in
  (* 8. File extensions *)
  let bad_ext :=
    if Py.contains_char path_lower "." then
      match Py.rsplit1 "." path_lower with
      | [_; after] =>
          let ext := hd "" (Py.split "?" (hd "" (Py.split "/" after))) in
          if negb (Py.is_empty ext) && negb (Py.mem ext ALLOWED_EXTENSIONS)
             && Py.mem ext INVALID_EXTENSIONS
          then Some ext else None
      | _ => None
      end
    else None in
  match bad_ext with
  | Some ext => reject ("ext_" ++ ext) url false
  | None =>
  (* 9. Format parameters *)
  if negb (Py.is_empty (Url.query parsed))
     && existsb (fun b => Py.contains (Py.lower (Url.query parsed)) b)
                ["format=txt"; "format=pdf"; "format=csv";
                 "export=txt"; "export=pdf"; "download="]
  then reject "format_param" url false
  else
  (* 10. Action endpoints *)
  if existsb (fun x => Py.contains (Py.lower url) x)
             ["/search?"; "?search="; "/print/"; "?print="]
  then reject "action" url false
  else ret true
  end.

Definition is_valid (url : string) : M bool :=
  try_except (is_valid_body url) (fun _ => ret false).


(** [domain_path_counter[parsed.netloc][parsed.path]] for the URL, 0 where
    the URL does not parse. *)
Definition same_path_count (url : string) (st : State) : Z :=
  match Url.urlparse url with
  | Ok parsed =>
      count_of (default ∅ (domain_path_counter st !! Url.netloc parsed)) (Url.path parsed)
  | Raise _ => 0
  end.

(** The limit that step 3 of [is_url_trap] sets for the URL's pattern. *)
Definition max_repeats_of (url : string) : Z :=
  if is_legitimate_pattern url then 150 else 75.

(** The limit that step 7 of [is_url_trap] sets for the URL's path. *)
Definition max_same_of (url : string) : Z :=
  if is_legitimate_pattern url then 25 else 15.

(** A sequence of [is_valid] calls, each on the globals the one before
    left; the answers come back in the order of the calls. *)
Fixpoint is_valid_all (urls : list string) (st : State) : list (result bool) * State :=
  match urls with
  | [] => ([], st)
  | url :: rest =>
      let '(answer, st') := is_valid url st in
      let '(answers, st'') := is_valid_all rest st' in
      (answer :: answers, st'')
  end.

(** The links whose [is_valid] call answered [True], in the order of the
    calls. *)
Definition accepted (links : list string) (answers : list (result bool)) : list string :=
  map fst
      (List.filter (fun la => match snd la with Ok true => true | _ => false end)
                   (combine links answers)).

(** How often a rejection reason was recorded. *)
Definition rejections (st : State) (reason : string) : Z :=
  count_of (rejection_stats st) reason.

(** ** The scraper *)

(** What the worker hands to [scraper]: [raw_response] may be missing,
    and its [content] may be [None]. *)
Record Response := {
  status : Z;
  raw_response : option (option string);
}.

Definition BOILERPLATE_TAGS : list string :=
  ["script"; "style"; "meta"; "link"; "noscript"; "header"; "footer"; "nav"].

(** [for tag in soup(names): tag.decompose()] below one node: every tag
    with one of the names goes, with all that is under it. *)
Fixpoint decompose (names : list string) (n : node) : list node :=
  match n with
  | Text s => [Text s]
  | Tag name attrs children =>
      if Py.mem name names then []
      else [Tag name attrs (flat_map (decompose names) children)]
  end.

(** The names of the tags at and under a node. *)
Fixpoint tag_names (n : node) : list string :=
  match n with
  | Text _ => []
  | Tag name _ children => name :: flat_map tag_names children
  end.

(** The text nodes under a node, in document order. *)
Fixpoint strings_of (n : node) : list string :=
  match n with
  | Text s => [s]
  | Tag _ _ children => flat_map strings_of children
  end.

(** [soup.get_text(separator=' ', strip=True)] *)
Definition get_text (soup : list node) : string :=
  Py.join " "
    (List.filter (fun t => negb (Py.is_empty t))
            (map Py.strip (flat_map strings_of soup))).

(** [extract_text_content_from_soup(soup)].  The tags are removed from
    the caller's tree, so the tree comes back with the text. *)
Definition extract_text_content_from_soup (soup : list node) : string * list node :=
  let soup' := flat_map (decompose BOILERPLATE_TAGS) soup in
  (Py.strip (Re.sub "s+" " " (get_text soup')), soup').

Definition attr_get (attrs : list (string * string)) (k : string) : option string :=
  match List.find (fun kv => String.eqb (fst kv) k) attrs with
  | Some kv => Some (snd kv)
  | None => None
  end.

(** The [href] of every [a] tag that has one, in document order:
    [soup.find_all("a", href=True)]. *)
Fixpoint hrefs_of (n : node) : list string :=
  match n with
  | Text _ => []
  | Tag name attrs children =>
      (match attr_get attrs "href" with
       | Some h => if String.eqb name "a" then [h] else []
       | None => []
       end ++ flat_map hrefs_of children)%list
  end.

Definition add_link (url : string) (links : gset string) (href : string) : gset string :=
  if Py.is_empty href
     || Py.mem (Py.strip href) ["#"; "javascript:void(0)"; "javascript:;"]
  then links
  else
    match urljoin url href with
    | Raise _ => links
    | Ok absolute_url =>
        match urldefrag absolute_url with
        | Raise _ => links
        | Ok clean_url =>
            if negb (Py.is_empty clean_url) && negb (String.eqb clean_url url)
            then {[clean_url]} ∪ links
            else links
        end
    end.

(** [extract_next_links_from_soup(url, soup)]; [list(links)] is the
    set's elements in the order the set gives them. *)
Definition extract_next_links_from_soup (url : string) (soup : list node) : list string :=
  elements (fold_left (add_link url) (flat_map hrefs_of soup) ∅).

(** [[link for link in links if is_valid(link)]] *)
Fixpoint valid_links_of (links : list string) : M (list string) :=
  match links with
  | [] => ret []
  | link :: rest =>
      ok <- is_valid link ;;
      more <- valid_links_of rest ;;
      ret (if ok then link :: more else more)
  end.

Definition save_page_data (url : string) (words : list string) (text_content : string)
  : M unit :=
  modify (fun st =>
    set_page_store
      (<[md5_hex url :=
           {| pd_url := url;
              pd_word_count := Z.of_nat (length words);
              pd_words := firstn 1000 words;
              pd_content_hash := md5_hex text_content |}]> (page_store st)) st).

Definition add_links_discovered (n : Z) : M unit :=
  modify (fun st => set_links_discovered (links_discovered st + n) st).

(** The body of the [try] block of [scraper]. *)
Definition scraper_body (url : string) (resp : Response) : M (list string) :=
  content <- lift (match raw_response resp with
                   | Some c => Ok c
                   | None => Raise (AttributeError
                               "'NoneType' object has no attribute 'content'")
                   end) ;;
  match content with
  | None => _ <- log_processing url "skipped" "empty" 0 ;; ret []
  | Some content =>
  if Py.len content <? 100
  then _ <- log_processing url "skipped" "empty" 0 ;; ret []
  else if MAX_CONTENT_SIZE <? Py.len content
  then _ <- log_processing url "skipped" "large" 0 ;; ret []
  else
  soup <- lift (html_parse content) ;;
  let '(text_content, soup) := extract_text_content_from_soup soup in
  let words := Py.split_ws text_content in
  let n_words := Z.of_nat (length words) in
  if n_words <? MIN_WORD_COUNT
  then _ <- log_processing url "skipped" ("low_words_" ++ Py.str_of_Z n_words) 0 ;;
       ret []
  else
  dup <- is_duplicate text_content url ;;
  if fst dup then
    _ <- log_processing url "duplicate" (default "" (snd dup)) 0 ;;
    let links := extract_next_links_from_soup url soup in
    valid_links <- valid_links_of links ;;
    _ <- add_links_discovered (Z.of_nat (length valid_links)) ;;
    ret valid_links
  else
    let links := extract_next_links_from_soup url soup in
    valid_links <- valid_links_of links ;;
    _ <- add_links_discovered (Z.of_nat (length valid_links)) ;;
    _ <- (if (0 <? Z.of_nat (length valid_links)) || (200 <? n_words)
          then _ <- save_page_data url words text_content ;;
               modify (fun st => set_pages_saved (pages_saved st + 1) st)
          else ret tt) ;;
    _ <- log_processing url "processed" "success" (Z.of_nat (length valid_links)) ;;
    ret valid_links
  end.

Definition scraper (url : string) (resp : option Response) : M (list string) :=
  _ <- modify (fun st => set_pages_processed (pages_processed st + 1) st) ;;
  match resp with
  | None => _ <- log_processing url "error" "status_none" 0 ;; ret []
  | Some resp =>
      if negb (status resp =? 200)
      then _ <- log_processing url "error" ("status_" ++ Py.str_of_Z (status resp)) 0 ;;
           ret []
      else
        try_except (scraper_body url resp)
          (fun e => _ <- log_processing url "error" (String.substring 0 30 (str_exc e)) 0 ;;
                    ret [])
  end.

(** ** Observations and relations that the theorems speak of *)

(** Every counter of the second map is at least the counter of the
    first; a key that is absent counts 0, as in a [defaultdict(int)]. *)
Definition counts_le (c c' : gmap string Z) : Prop :=
  forall k, count_of c k <= count_of c' k.

Definition paths_le (c c' : gmap string (gmap string Z)) : Prop :=
  forall host pth,
    count_of (default ∅ (c !! host)) pth <= count_of (default ∅ (c' !! host)) pth.

(** No counter of the trap detector went down. *)
Definition counters_grow (st st' : State) : Prop :=
  counts_le (url_pattern_counter st) (url_pattern_counter st')
  /\ paths_le (domain_path_counter st) (domain_path_counter st').

(** Two URLs that parse with the same [netloc] and the same [path]: they
    share an entry of [domain_path_counter]. *)
Definition same_page (url u : string) : bool :=
  match Url.urlparse url, Url.urlparse u with
  | Ok p, Ok q =>
      String.eqb (Url.netloc p) (Url.netloc q) && String.eqb (Url.path p) (Url.path q)
  | _, _ => false
  end.

(** Steps 1, 2 and 4 to 6 of [is_valid], which read the URL alone. *)
Definition passes_static_checks (url : string) : bool :=
  match Url.urlparse url with
  | Ok parsed =>
      Py.mem (Url.scheme parsed) ["http"; "https"]
      && host_in (Py.lower (Url.netloc parsed)) VALID_DOMAINS
      && (Py.len url <=? MAX_URL_LENGTH)
      && negb (is_calendar_or_event url)
      && negb (is_known_trap url)
  | Raise _ => false
  end.

(** All that was logged so far: what is in the file, then what is still
    in memory. *)
Definition history (st : State) : list log_entry :=
  (log_file st ++ processing_log st)%list.

(** A computation that logs one entry for the URL when it returns and
    none when it raises. *)
Definition logs_once {A} (url : string) (m : M A) : Prop :=
  forall st,
    match fst (m st) with
    | Ok _ => exists e, log_url e = url /\ history (snd (m st)) = (history st ++ [e])%list
    | Raise _ => history (snd (m st)) = history st
    end.

(** Between two states either nothing was saved, or one record was: for
    the URL, under the digest of the URL, of a text of at least
    [MIN_WORD_COUNT] words and with at most 1000 of them kept. *)
Definition saved_one (url : string) (st st' : State) : Prop :=
  pages st' = pages st
  \/ exists pd,
       page_store st' = <[md5_hex url := pd]> (page_store st)
       /\ pages_saved st' = pages_saved st + 1
       /\ pd_url pd = url
       /\ MIN_WORD_COUNT <= pd_word_count pd
       /\ (length (pd_words pd) <= 1000)%nat.

(** The globals other than [pages_processed] and the log. *)
Definition beyond_log (st : State) :=
  (pages_saved st, links_discovered st, duplicates_found st,
   seen_exact_hashes st, seen_simhashes st,
   rejection_stats st, rejection_samples st,
   url_pattern_counter st, domain_path_counter st, page_store st).

(** Whether [scraper] gets as far as [is_duplicate] with the response:
    the guards of [scraper] before that call, in their order. *)
Definition reaches_detector (resp : option Response) : bool :=
  match resp with
  | None => false
  | Some r =>
      (status r =? 200)
      && match raw_response r with
         | Some (Some content) =>
             (100 <=? Py.len content) && (Py.len content <=? MAX_CONTENT_SIZE)
             && match html_parse content with
                | Ok soup =>
                    MIN_WORD_COUNT
                    <=? Z.of_nat (length (Py.split_ws
                                            (fst (extract_text_content_from_soup soup))))
                | Raise _ => false
                end
         | _ => false
         end
  end.

(** No rejection reason has more than five sample URLs. *)
Definition samples_capped (st : State) : Prop :=
  forall reason, (length (default [] (rejection_samples st !! reason)) <= 5)%nat.

Definition stays_capped (st st' : State) : Prop :=
  samples_capped st -> samples_capped st'.


(** A computation that adds to [links_discovered] the number of links it
    returns, and nothing where it raises. *)
Definition counts_links (m : M (list string)) : Prop :=
  forall st,
    links_discovered (snd (m st))
    = links_discovered st
      + match fst (m st) with
        | Ok links => Z.of_nat (length links)
        | Raise _ => 0
        end.

End WithLib.
End Scraper.

(* ===================================================================== *)
(** * [src/crawler/frontier.py]                                           *)
(* ===================================================================== *)

(** [normalize] and [get_urlhash] are imported by [frontier.py] from the
  [utils] package, which is not among the sources; the frontier is
  modelled for every pair of such functions.  [get_urlhash] parses its
  argument and so may raise. *)
Class Utils := {
  normalize : string -> string;
  get_urlhash : string -> result string;
}.

Module Frontier.

Record Config := {
  save_file : string;
  seed_urls : list string;
  time_delay : Q;
}.

(** The [shelve] file: keys in the order [values()] walks them, each
    with its [(url, completed)] pair. *)
Definition shelf : Type := list (string * (string * bool)).

(** The attributes of a [Frontier] object.  [domain_queues] keeps the
    insertion order of the [dict], which [get_tbd_url] walks; clock
    readings are rationals. *)
Record State := {
  domain_queues : list (string * list string);
  last_access_time : gmap string Q;
  urls_seen : gset string;
  save : shelf;
}.

Definition set_domain_queues (v : list (string * list string)) (fs : State) : State :=
  {| domain_queues := v; last_access_time := last_access_time fs;
     urls_seen := urls_seen fs; save := save fs |}.

Definition set_last_access_time (v : gmap string Q) (fs : State) : State :=
  {| domain_queues := domain_queues fs; last_access_time := v;
     urls_seen := urls_seen fs; save := save fs |}.

Definition set_urls_seen (v : gset string) (fs : State) : State :=
  {| domain_queues := domain_queues fs; last_access_time := last_access_time fs;
     urls_seen := v; save := save fs |}.

Definition set_save (v : shelf) (fs : State) : State :=
  {| domain_queues := domain_queues fs; last_access_time := last_access_time fs;
     urls_seen := urls_seen fs; save := v |}.

(** The attributes as [__init__] sets them before it opens the save
    file. *)
Definition fresh : State :=
  {| domain_queues := []; last_access_time := ∅; urls_seen := ∅; save := [] |}.

(** [key in self.save] *)
Definition shelf_has (s : shelf) (key : string) : bool :=
  existsb (fun kv => String.eqb (fst kv) key) s.

(** [self.save[key] = value]: an entry that is there is overwritten in
    place, a new one is added. *)
Fixpoint shelf_set (s : shelf) (key : string) (value : string * bool) : shelf :=
  match s with
  | [] => [(key, value)]
  | (k, v) :: r =>
      if String.eqb k key then (k, value) :: r
      else (k, v) :: shelf_set r key value
  end.

Section WithLib.
Context `{PyLib} `{Utils}.

Definition _get_domain (url : string) : string :=
  match Url.urlparse url with
  | Ok parsed => Py.lower (Url.netloc parsed)
  | Raise _ => "unknown"
  end.

(** [queues[domain].put(url)], after a new [Queue()] was stored under a
    domain that had none. *)
Fixpoint put (queues : list (string * list string)) (domain url : string)
  : list (string * list string) :=
  match queues with
  | [] => [(domain, [url])]
  | (d, q) :: r =>
      if String.eqb d domain then (d, (q ++ [url])%list) :: r
      else (d, q) :: put r domain url
  end.

Definition _add_to_domain_queue (url : string) (fs : State) : State :=
  set_domain_queues (put (domain_queues fs) (_get_domain url) url) fs.

Definition _get_total_tbd_count (fs : State) : Z :=
  fold_left (fun count dq => count + Z.of_nat (length (snd dq))) (domain_queues fs) 0.

Definition last_time (fs : State) (domain : string) : Q :=
  default 0%Q (last_access_time fs !! domain).

(** The list [ready_domains] that [get_tbd_url] builds. *)
Definition ready_domains (config : Config) (current_time : Q) (fs : State)
  : list (string * list string) :=
  List.filter
    (fun dq =>
       match snd dq with
       | [] => false
       | _ => Qle_bool (time_delay config) (current_time - last_time fs (fst dq))
       end)
    (domain_queues fs).

(** [queues[domain].get_nowait()]: the queue under the domain loses its
    head. *)
Fixpoint get_nowait (queues : list (string * list string)) (domain : string)
  : list (string * list string) :=
  match queues with
  | [] => []
  | (d, q) :: r =>
      if String.eqb d domain then (d, tail q) :: r
      else (d, q) :: get_nowait r domain
  end.

(** [get_tbd_url()], with the reading of the clock that it takes. *)
Definition get_tbd_url (config : Config) (current_time : Q) (fs : State)
  : option string * State :=
  match ready_domains config current_time fs with
  | [] => (None, fs)
  | (domain, queue) :: _ =>
      match queue with
      | [] => (None, fs)
      | url :: _ =>
          (Some url,
           set_last_access_time (<[domain := current_time]> (last_access_time fs))
             (set_domain_queues (get_nowait (domain_queues fs) domain) fs))
      end
  end.

Definition add_url (url : string) (fs : State) : result unit * State :=
  let url := normalize url in
  match get_urlhash url with
  | Raise e => (Raise e, fs)
  | Ok urlhash =>
      if decide (url ∈ urls_seen fs) then (Ok tt, fs)
      else if negb (shelf_has (save fs) urlhash) then
        let fs := set_save (shelf_set (save fs) urlhash (url, false)) fs in
        let fs := _add_to_domain_queue url fs in
        (Ok tt, set_urls_seen ({[url]} ∪ urls_seen fs) fs)
      else (Ok tt, fs)
  end.

Definition mark_url_complete (url : string) (fs : State) : result unit * State :=
  match get_urlhash url with
  | Raise e => (Raise e, fs)
  | Ok urlhash => (Ok tt, set_save (shelf_set (save fs) urlhash (url, true)) fs)
  end.

(** [_parse_save_file()]: the loop over [self.save.values()]; [is_valid]
    works on the scraper's globals. *)
Fixpoint load_entries (entries : shelf) (fs : State) (st : Scraper.State)
  : State * Scraper.State :=
  match entries with
  | [] => (fs, st)
  | (_, (url, completed)) :: rest =>
      if completed then load_entries rest fs st
      else
        match Scraper.is_valid url st with
        | (Ok true, st') =>
            let fs := _add_to_domain_queue url fs in
            let fs := set_urls_seen ({[normalize url]} ∪ urls_seen fs) fs in
            load_entries rest fs st'
        | (_, st') => load_entries rest fs st'
        end
  end.

Definition _parse_save_file (fs : State) (st : Scraper.State) : State * Scraper.State :=
  load_entries (save fs) fs st.

(** [for url in urls: self.add_url(url)] *)
Fixpoint add_urls (urls : list string) (fs : State) : result unit * State :=
  match urls with
  | [] => (Ok tt, fs)
  | url :: rest =>
      match add_url url fs with
      | (Ok _, fs') => add_urls rest fs'
      | (Raise e, fs') => (Raise e, fs')
      end
  end.

(** [Frontier(config, restart)].  [on_disk] is the save file found at
    [config.save_file], if there is one. *)
Definition init (config : Config) (restart : bool) (on_disk : option shelf)
                (st : Scraper.State)
  : result unit * State * Scraper.State :=
  let opened : shelf :=
    match on_disk with
    | Some s => if restart then [] else s
    | None => []
    end in
  let fs := set_save opened fresh in
  if restart then (add_urls (seed_urls config) fs, st)
  else
    let '(fs, st) := _parse_save_file fs st in
    match save fs with
    | [] => (add_urls (seed_urls config) fs, st)
    | _ => (Ok tt, fs, st)
    end.

(** The URLs waiting in the host queues. *)
Definition queued (fs : State) : list string :=
  flat_map snd (domain_queues fs).


(** A save file as the frontier writes it: every entry is stored under the
    hash of its own URL, and no key occurs twice. *)
Definition store_consistent (s : shelf) : Prop :=
  List.NoDup (map fst s)
  /\ forall key url completed, In (key, (url, completed)) s -> get_urlhash url = Ok key.

(** [self.domain_queues[domain]], read as a list; empty where the host has
    no queue. *)
Definition queue_of (fs : State) (domain : string) : list string :=
  match List.find (fun dq => String.eqb (fst dq) domain) (domain_queues fs) with
  | Some dq => snd dq
  | None => []
  end.

(** [self.save[key]], where the key is there. *)
Definition shelf_get (s : shelf) (key : string) : option (string * bool) :=
  match List.find (fun kv => String.eqb (fst kv) key) s with
  | Some kv => Some (snd kv)
  | None => None
  end.

(** Every queue holds URLs of its own host only. *)
Definition queues_keyed (queues : list (string * list string)) : Prop :=
  forall domain queue url,
    In (domain, queue) queues -> In url queue -> _get_domain url = domain.

(** A call that a worker makes on the frontier, under its lock. *)
Inductive call :=
| GetTbdUrl (current_time : Q)
| AddUrl (url : string)
| MarkUrlComplete (url : string).

Definition step (config : Config) (c : call) (fs : State) : State :=
  match c with
  | GetTbdUrl t => snd (get_tbd_url config t fs)
  | AddUrl u => snd (add_url u fs)
  | MarkUrlComplete u => snd (mark_url_complete u fs)
  end.

(** The host and the clock reading of a call that hands out a URL. *)
Definition served_by (config : Config) (c : call) (fs : State) : option (string * Q) :=
  match c with
  | GetTbdUrl t =>
      match ready_domains config t fs with
      | (domain, _ :: _) :: _ => Some (domain, t)
      | _ => None
      end
  | _ => None
  end.

(** The hosts served, with the times, over a sequence of calls. *)
Fixpoint served (config : Config) (calls : list call) (fs : State) : list (string * Q) :=
  match calls with
  | [] => []
  | c :: rest =>
      match served_by config c fs with
      | Some hit => hit :: served config rest (step config c fs)
      | None => served config rest (step config c fs)
      end
  end.

(** The frontier after a sequence of calls. *)
Definition run_calls (config : Config) (calls : list call) (fs : State) : State :=
  fold_left (fun fs c => step config c fs) calls fs.

(** The URLs that the calls of a sequence hand out, in order. *)
Fixpoint handed_out (config : Config) (calls : list call) (fs : State) : list string :=
  match calls with
  | [] => []
  | c :: rest =>
      match c with
      | GetTbdUrl t =>
          match fst (get_tbd_url config t fs) with
          | Some url => url :: handed_out config rest (step config c fs)
          | None => handed_out config rest (step config c fs)
          end
      | _ => handed_out config rest (step config c fs)
      end
  end.

(** Every URL in [urls_seen] is in the save file, under its hash. *)
Definition persisted (fs : State) : Prop :=
  forall url, url ∈ urls_seen fs ->
    exists key, get_urlhash url = Ok key /\ shelf_has (save fs) key = true.

(** What the frontier keeps between calls once it is built: one queue per
    host, no URL queued twice, and every queued URL in [urls_seen]. *)
Definition well_formed (fs : State) : Prop :=
  List.NoDup (map fst (domain_queues fs))
  /\ List.NoDup (queued fs)
  /\ forall url, In url (queued fs) -> url ∈ urls_seen fs.

(** A frontier that holds nothing but seeds still to be downloaded:
    every queued URL is a normalized seed, and so is the URL of every
    entry of the save file, none of which is completed. *)
Definition seeded (config : Config) (fs : State) : Prop :=
  (forall url, In url (queued fs) ->
     exists seed, In seed (seed_urls config) /\ url = normalize seed)
  /\ (forall key url completed, In (key, (url, completed)) (save fs) ->
        completed = false
        /\ exists seed, In seed (seed_urls config) /\ url = normalize seed).

(** The URLs of a save file are as [normalize] leaves them. *)
Definition normalized (s : shelf) : Prop :=
  forall key url completed, In (key, (url, completed)) s -> normalize url = url.

End WithLib.
End Frontier.

(* ===================================================================== *)
(** * [src/crawler/worker.py]                                             *)
(* ===================================================================== *)

Module Worker.

(** The local variables of [run] that live across iterations. *)
Record Local := {
  consecutive_none_count : Z;
  last_successful_download : Q;
}.

Inductive outcome := Stop | Continue.

Definition max_consecutive_none : Z := 100.
Definition max_idle_time : Q := 30.

Section WithLib.
Context `{PyLib} `{Utils}.

(** [for scraped_url in scraped_urls: try: add_url(...) except: log] *)
Definition add_scraped (scraped_urls : list string) (fs : Frontier.State) : Frontier.State :=
  fold_left (fun fs url => snd (Frontier.add_url url fs)) scraped_urls fs.

(** What [run] does with a URL it got: download, scrape, add the links,
    mark the URL complete.  [download] is [utils.download.download] with
    the configuration and the logger fixed; it may raise, and it may
    return [None], on which reading [resp.status] for the log line raises.
    Either way the handler of the outer [try] marks the URL complete. *)
Definition process (download : string -> result (option Scraper.Response))
    (tbd_url : string) (fs : Frontier.State) (st : Scraper.State)
  : Frontier.State * Scraper.State :=
  match download tbd_url with
  | Ok (Some resp) =>
      let '(scraped, st') := Scraper.scraper tbd_url (Some resp) st in
      let scraped_urls := match scraped with Ok urls => urls | Raise _ => [] end in
      let fs := add_scraped scraped_urls fs in
      (snd (Frontier.mark_url_complete tbd_url fs), st')
  | _ => (snd (Frontier.mark_url_complete tbd_url fs), st)
  end.

(** One pass through the body of [while True].  The three clock readings
    are those of [get_tbd_url], of the idle check, and of the line that
    notes a successful dequeue.  [if not tbd_url] holds of [None] and of
    the empty string. *)
Definition iteration (config : Frontier.Config) (t_get t_idle t_got : Q)
    (download : string -> result (option Scraper.Response))
    (w : Local) (fs : Frontier.State) (st : Scraper.State)
  : outcome * Local * Frontier.State * Scraper.State :=
  let '(tbd_url, fs) := Frontier.get_tbd_url config t_get fs in
  match tbd_url with
  | Some (String c r) =>
      let url := String c r in
      let w := {| consecutive_none_count := 0; last_successful_download := t_got |} in
      let '(fs, st) := process download url fs st in
      (Continue, w, fs, st)
  | _ =>
      let count := consecutive_none_count w + 1 in
      let idle_time := (t_idle - last_successful_download w)%Q in
      if (max_consecutive_none <=? count) && negb (Qle_bool idle_time max_idle_time)
      then
        if Frontier._get_total_tbd_count fs =? 0
        then (Stop,
              {| consecutive_none_count := count;
                 last_successful_download := last_successful_download w |}, fs, st)
        else (Continue,
              {| consecutive_none_count := 0;
                 last_successful_download := last_successful_download w |}, fs, st)
      else (Continue,
            {| consecutive_none_count := count;
               last_successful_download := last_successful_download w |}, fs, st)
  end.

End WithLib.
End Worker.

(* ===================================================================== *)
(** * A library instance to run examples with                             *)
(* ===================================================================== *)

(** The theorems below hold for every [PyLib] and every [Utils].  The
  instance here only serves to evaluate the code on concrete inputs: a
  64-bit FNV-1a hash for [hash], its decimal text for the digests,
  references taken as already absolute by [urljoin], and a parser that is
  given with each example. *)
Module Sample.

Definition fnv1a64 (s : string) : Z :=
  fold_left (fun h c => ((Z.lxor h (Py.ord c)) * 1099511628211) mod 2 ^ 64)
            (list_ascii_of_string s) 14695981039346656037.

Definition digest (s : string) : string := Py.str_of_Z (fnv1a64 s).

Definition lib (parser : string -> result (list node)) : PyLib :=
  {| py_hash := fnv1a64;
     md5_hex := digest;
     unquote := fun s => s;
     check_bracketed_netloc := fun _ => true;
     html_parse := parser;
     urljoin := fun _ href => Ok href;
     urldefrag := fun u => Ok (fst (fst (Py.partition "#" u))) |}.

Definition no_parser : string -> result (list node) :=
  fun _ => Raise (LibraryError "no parser").

Definition utils : Utils :=
  {| normalize := fun url => if Py.endswith url "/"
                             then Py.rstrip_by (Ascii.eqb "/") url else url;
     get_urlhash := fun url => Ok (digest url) |}.

(** *** Data for the examples *)

Definition words_60 : string :=
  Py.join " " (concat (repeat ["alpha"; "beta"; "gamma"; "delta"] 15)).

(** A ring of [SIMHASH_WINDOW] entries, each as far from the fingerprint
    of [words_60] as a 64-bit value can be. *)
Definition full_ring : list (Z * string) :=
  repeat (Z.lxor (Scraper.compute_simhash (H := lib no_parser) words_60) (Z.ones 64),
          "https://ics.uci.edu/old")
         Scraper.SIMHASH_WINDOW.

Definition page : list node :=
  [Tag "html" []
     [Tag "body" []
        [Tag "nav" []
           [Tag "a" [("href", "https://ics.uci.edu/menu")] [Text "menu"]];
         Tag "p" [] [Text words_60];
         Tag "a" [("href", "https://ics.uci.edu/courses/cs101/")] [Text "a cour"];
         Tag "a" [("href", "https://physics.uci.edu/x")] [Text "phy"]]]].

Definition page_source : string :=
  "<html><body><nav><a href=https://ics.uci.edu/menu>menu</a></nav><p>" ++ words_60
  ++ "</p><a href=https://ics.uci.edu/courses/cs101/>a cour</a>"
  ++ "<a href=https://physics.uci.edu/x>phy</a></body></html>".

(** The instance whose parser answers with [page]. *)
Definition page_lib : PyLib := lib (fun _ => Ok page).

Definition response : Scraper.Response :=
  {| Scraper.status := 200; Scraper.raw_response := Some (Some page_source) |}.

Definition config : Frontier.Config :=
  {| Frontier.save_file := "frontier.shelve";
     Frontier.seed_urls := ["https://www.ics.uci.edu"];
     Frontier.time_delay := 1 # 2 |}.

(** Two URLs of one host are added; the clock reads 10, 10.2 and 10.6 at
    three calls of [get_tbd_url]. *)
Definition calls : list Frontier.call :=
  [Frontier.AddUrl "https://cs.uci.edu/1";
   Frontier.AddUrl "https://cs.uci.edu/2";
   Frontier.GetTbdUrl 10;
   Frontier.GetTbdUrl (51 # 5);
   Frontier.GetTbdUrl (53 # 5)].

Definition ten_urls : list string :=
  map (fun n => "https://ics.uci.edu/page" ++ Py.str_of_Z (Z.of_nat n)) (seq 0 10).

(** The save file after ten URLs were added and three of them marked
    complete. *)
Definition save_after_session : Frontier.shelf :=
  let fs := snd (Frontier.add_urls (H := lib no_parser) (H0 := utils)
                   ten_urls Frontier.fresh) in
  Frontier.save
    (fold_left (fun fs url => snd (Frontier.mark_url_complete (H0 := utils) url fs))
               (firstn 3 ten_urls) fs).

End Sample.


(* ===================================================================== *)
(** * The duplicate detector's window                                     *)
(* ===================================================================== *)

Section DuplicateWindow.
Context `{PyLib}.
Import Scraper.

Lemma deque_append_length {A} (maxlen : nat) (d : list A) (x : A) :
  (length d <= maxlen)%nat -> (length (deque_append maxlen d x) <= maxlen)%nat.
Proof.
  intros Hd. unfold deque_append.
  destruct (Nat.ltb_spec maxlen (length (d ++ [x]))) as [Hlt | Hge].
  - rewrite length_tl, length_app. simpl. lia.
  - exact Hge.
Qed.

Lemma deque_append_full {A} (maxlen : nat) (d : list A) (x : A) :
  (0 < maxlen)%nat ->
  length d = maxlen -> deque_append maxlen d x = (tail d ++ [x])%list.
Proof.
  intros Hpos Hd. unfold deque_append.
  destruct (Nat.ltb_spec maxlen (length (d ++ [x]))) as [Hlt | Hge].
  - destruct d as [| y d']; simpl in *; [lia | reflexivity].
  - rewrite length_app in Hge. simpl in Hge. lia.
Qed.

(** What one call can do to the ring: nothing, or one [append]. *)
Lemma is_duplicate_ring (text url : string) (st : State) :
  seen_simhashes (snd (is_duplicate text url st)) = seen_simhashes st
  \/ (fst (is_duplicate text url st) = Ok (false, None)
      /\ seen_simhashes (snd (is_duplicate text url st))
         = deque_append SIMHASH_WINDOW (seen_simhashes st)
                        (compute_simhash text, url)).
Proof.
  unfold is_duplicate.
  destruct (Py.is_empty text || (Py.len (Py.strip text) <? 100)); [left; reflexivity |].
  unfold bind, gets, modify, ret; simpl.
  destruct (decide (md5_hex text ∈ seen_exact_hashes st)); simpl; [left; reflexivity |].
  destruct (existsb _ (seen_simhashes st)); simpl; [left | right]; auto.
Qed.

Lemma is_duplicate_keeps_bound (text url : string) (st : State) :
  (length (seen_simhashes st) <= SIMHASH_WINDOW)%nat ->
  (length (seen_simhashes (snd (is_duplicate text url st))) <= SIMHASH_WINDOW)%nat.
Proof.
  intros Hb.
  destruct (is_duplicate_ring text url st) as [-> | [_ ->]]; [exact Hb |].
  now apply deque_append_length.
Qed.

Lemma is_duplicate_all_keeps_bound (calls : list (string * string)) :
  forall st : State,
    (length (seen_simhashes st) <= SIMHASH_WINDOW)%nat ->
    (length (seen_simhashes (is_duplicate_all calls st)) <= SIMHASH_WINDOW)%nat.
Proof.
  induction calls as [| [text url] rest IH]; intros st Hb; simpl; [exact Hb |].
  apply IH. now apply is_duplicate_keeps_bound.
Qed.

(** C9.  Starting from globals whose SimHash ring holds at most
    [SIMHASH_WINDOW] entries (as the empty ring of a fresh module does),
    the ring holds at most [SIMHASH_WINDOW] = 1000 entries after any
    sequence of [is_duplicate] calls; and a call that appends to a ring of
    exactly [SIMHASH_WINDOW] entries leaves the ring without its oldest
    entry and with the new (simhash, url) pair at the end. *)
Theorem simhash_ring_bounded (calls : list (string * string)) (st : State) :
  (length (seen_simhashes st) <= SIMHASH_WINDOW)%nat ->
  SIMHASH_WINDOW = 1000%nat
  /\ (length (seen_simhashes (is_duplicate_all calls st)) <= SIMHASH_WINDOW)%nat
  /\ (forall text url : string,
        let st1 := is_duplicate_all calls st in
        length (seen_simhashes st1) = SIMHASH_WINDOW ->
        fst (is_duplicate text url st1) = Ok (false, None) ->
        seen_simhashes (snd (is_duplicate text url st1))
        = (tail (seen_simhashes st1) ++ [(compute_simhash text, url)])%list).
Proof.
  intros Hb. split; [reflexivity |]. split.
  - now apply is_duplicate_all_keeps_bound.
  - intros text url st1 Hfull. unfold is_duplicate.
    destruct (Py.is_empty text || (Py.len (Py.strip text) <? 100)); [discriminate |].
    unfold bind, gets, modify, ret; simpl.
    destruct (decide (md5_hex text ∈ seen_exact_hashes st1)); simpl; [discriminate |].
    destruct (existsb _ (seen_simhashes st1)); simpl; [discriminate |].
    intros _. apply deque_append_full; [unfold SIMHASH_WINDOW; lia | exact Hfull].
Qed.

End DuplicateWindow.

(* ===================================================================== *)
(** * The frontier: adding a URL twice, and politeness                    *)
(* ===================================================================== *)

Section FrontierProofs.
Context `{PyLib} `{Utils}.
Import Frontier.

(** C6.  For every URL and every state of the frontier, a second
    [add_url(u)] right after the first returns as the first did and leaves
    the host queues, the seen set and the save file exactly as the first
    call left them: nothing is enqueued twice. *)
Theorem add_url_idempotent (url : string) (fs : Frontier.State) :
  let once := add_url url fs in
  let twice := add_url url (snd once) in
  twice = once
  /\ domain_queues (snd twice) = domain_queues (snd once)
  /\ urls_seen (snd twice) = urls_seen (snd once)
  /\ save (snd twice) = save (snd once).
Proof.
  cbv zeta.
  assert (add_url url (snd (add_url url fs)) = add_url url fs) as Heq.
  { unfold add_url.
    set (n := normalize url).
    destruct (get_urlhash n) as [urlhash | e]; cbn [snd]; [| reflexivity].
    destruct (decide (n ∈ urls_seen fs)) as [Hin | Hnotin] eqn:Hdec; cbn [snd].
    - rewrite Hdec. reflexivity.
    - destruct (shelf_has (save fs) urlhash) eqn:Hs; cbn [snd negb].
      + rewrite Hdec, Hs. reflexivity.
      + cbn [urls_seen set_urls_seen _add_to_domain_queue set_domain_queues set_save].
        destruct (decide (n ∈ {[n]} ∪ urls_seen fs)) as [_ | Hn];
          [reflexivity | exfalso; apply Hn; set_solver]. }
  rewrite Heq. repeat split.
Qed.

Lemma add_url_last_access (url : string) (fs : Frontier.State) :
  last_access_time (snd (add_url url fs)) = last_access_time fs.
Proof.
  unfold add_url.
  destruct (get_urlhash (normalize url)); simpl; [| reflexivity].
  destruct (decide _); simpl; [reflexivity |].
  destruct (shelf_has _ _); reflexivity.
Qed.

Lemma mark_url_complete_last_access (url : string) (fs : Frontier.State) :
  last_access_time (snd (mark_url_complete url fs)) = last_access_time fs.
Proof.
  unfold mark_url_complete. destruct (get_urlhash url); reflexivity.
Qed.

Lemma filter_head {A} (f : A -> bool) (l : list A) (x : A) (r : list A) :
  List.filter f l = x :: r -> f x = true /\ In x l.
Proof.
  intros Hf.
  assert (In x (List.filter f l)) as Hin by (rewrite Hf; left; reflexivity).
  apply filter_In in Hin. tauto.
Qed.

(** A call that hands out a URL: the host was ready, the URL was at the
    head of its queue, and the host's last access becomes the reading of
    the clock. *)
Lemma get_tbd_url_some (config : Config) (now : Q) (fs fs' : Frontier.State) (url : string) :
  get_tbd_url config now fs = (Some url, fs') ->
  exists h q,
    served_by config (GetTbdUrl now) fs = Some (h, now)
    /\ In (h, url :: q) (domain_queues fs)
    /\ (time_delay config <= now - last_time fs h)%Q
    /\ last_access_time fs' = <[h := now]> (last_access_time fs).
Proof.
  unfold get_tbd_url, served_by.
  destruct (ready_domains config now fs) as [| [d q] rest] eqn:Hr; [discriminate |].
  destruct q as [| u q']; [discriminate |].
  intros Heq. injection Heq as <- <-.
  exists d, q'. split; [reflexivity |].
  apply filter_head in Hr as [Hok Hin]. simpl in Hok.
  apply Qle_bool_iff in Hok.
  split; [exact Hin |]. split; [exact Hok | reflexivity].
Qed.

Lemma served_by_some (config : Config) (c : call) (fs : Frontier.State) (h : string) (t : Q) :
  served_by config c fs = Some (h, t) ->
  (time_delay config <= t - last_time fs h)%Q
  /\ last_access_time (step config c fs) = <[h := t]> (last_access_time fs).
Proof.
  destruct c as [now | u | u]; simpl; try discriminate.
  unfold get_tbd_url.
  destruct (ready_domains config now fs) as [| [d q] rest] eqn:Hr; [discriminate |].
  destruct q as [| u q']; [discriminate |].
  intros Heq. injection Heq as <- <-.
  apply filter_head in Hr as [Hok _]. simpl in Hok.
  apply Qle_bool_iff in Hok. split; [exact Hok | reflexivity].
Qed.

Lemma served_by_none (config : Config) (c : call) (fs : Frontier.State) :
  served_by config c fs = None ->
  last_access_time (step config c fs) = last_access_time fs.
Proof.
  destruct c as [now | u | u]; simpl; intros Hn.
  - unfold get_tbd_url.
    destruct (ready_domains config now fs) as [| [d q] rest]; [reflexivity |].
    destruct q; [reflexivity | discriminate].
  - apply add_url_last_access.
  - apply mark_url_complete_last_access.
Qed.

Lemma last_time_ext (fs fs' : Frontier.State) (h : string) :
  last_access_time fs' = last_access_time fs -> last_time fs' h = last_time fs h.
Proof. unfold last_time. now intros ->. Qed.

(** Every host served later in a run is served at least one delay after
    the last access the frontier remembers for it. *)
Lemma served_after_last (config : Config) (calls : list call) :
  (0 <= time_delay config)%Q ->
  forall (fs : Frontier.State) (h : string) (t : Q),
    In (h, t) (served config calls fs) ->
    (last_time fs h + time_delay config <= t)%Q.
Proof.
  intros Hd. induction calls as [| c rest IH]; intros fs h t Hin; simpl in Hin; [contradiction |].
  destruct (served_by config c fs) as [[h0 t0] |] eqn:Hs.
  - apply served_by_some in Hs as [Hready Hlast].
    destruct Hin as [Heq | Hin].
    + injection Heq as -> ->. lra.
    + apply IH in Hin. unfold last_time in Hin. rewrite Hlast in Hin.
      destruct (decide (h0 = h)) as [-> | Hne].
      * rewrite lookup_insert_eq in Hin. simpl in Hin. lra.
      * rewrite lookup_insert_ne in Hin by exact Hne. exact Hin.
  - apply served_by_none in Hs. apply IH in Hin.
    rewrite (last_time_ext _ _ _ Hs) in Hin. exact Hin.
Qed.

Lemma served_spaced (config : Config) (calls : list call) :
  (0 <= time_delay config)%Q ->
  forall (fs : Frontier.State) (i j : nat) (h : string) (ti tj : Q),
    (i < j)%nat ->
    served config calls fs !! i = Some (h, ti) ->
    served config calls fs !! j = Some (h, tj) ->
    (ti + time_delay config <= tj)%Q.
Proof.
  intros Hd. induction calls as [| c rest IH]; intros fs i j h ti tj Hij Hi Hj; simpl in *.
  - discriminate.
  - destruct (served_by config c fs) as [[h0 t0] |] eqn:Hs; [| eauto].
    destruct j as [| j']; [lia |].
    destruct i as [| i']; simpl in Hi, Hj.
    + injection Hi as -> ->.
      apply served_by_some in Hs as [_ Hlast].
      assert (In (h, tj) (served config rest (step config c fs))) as Hin.
      { apply list_elem_of_In. eapply list_elem_of_lookup_2. exact Hj. }
      apply (served_after_last config rest Hd) in Hin.
      unfold last_time in Hin. rewrite Hlast, lookup_insert_eq in Hin. exact Hin.
    + apply (IH (step config c fs) i' j' h ti tj); [lia | exact Hi | exact Hj].
Qed.

(** The queue a URL is handed out from is the queue of the URL's own host:
    URLs only enter a queue through [_add_to_domain_queue]. *)
Lemma put_keyed (queues : list (string * list string)) (url : string) :
  queues_keyed queues -> queues_keyed (put queues (_get_domain url) url).
Proof.
  induction queues as [| [d q] r IH]; intros Hk dom queue u Hin Hu; simpl in Hin.
  - destruct Hin as [Heq | []]. injection Heq as <- <-.
    destruct Hu as [<- | []]. reflexivity.
  - destruct (String.eqb_spec d (_get_domain url)) as [-> | Hne].
    + destruct Hin as [Heq | Hin].
      * injection Heq as <- <-. apply in_app_or in Hu as [Hu | [<- | []]];
          [| reflexivity].
        eapply Hk; [left; reflexivity | exact Hu].
      * eapply Hk; [right; exact Hin | exact Hu].
    + destruct Hin as [Heq | Hin].
      * injection Heq as <- <-. eapply Hk; [left; reflexivity | exact Hu].
      * apply (IH (fun d' q' u' Hd Hq => Hk d' q' u' (or_intror Hd) Hq) dom queue u Hin Hu).
Qed.

Lemma get_nowait_keyed (queues : list (string * list string)) (domain : string) :
  queues_keyed queues -> queues_keyed (get_nowait queues domain).
Proof.
  induction queues as [| [d q] r IH]; intros Hk dom queue u Hin Hu; simpl in Hin;
    [contradiction |].
  destruct (String.eqb d domain).
  - destruct Hin as [Heq | Hin].
    + injection Heq as <- <-. eapply Hk; [left; reflexivity |].
      destruct q; [contradiction | right; exact Hu].
    + eapply Hk; [right; exact Hin | exact Hu].
  - destruct Hin as [Heq | Hin].
    + injection Heq as <- <-. eapply Hk; [left; reflexivity | exact Hu].
    + apply (IH (fun d' q' u' Hd Hq => Hk d' q' u' (or_intror Hd) Hq) dom queue u Hin Hu).
Qed.

Lemma queues_keyed_step (config : Config) (c : call) (fs : Frontier.State) :
  queues_keyed (domain_queues fs) -> queues_keyed (domain_queues (step config c fs)).
Proof.
  intros Hk. destruct c as [now | url | url]; simpl.
  - unfold get_tbd_url.
    destruct (ready_domains config now fs) as [| [d [| u q]] rest]; try exact Hk.
    cbn [snd domain_queues set_last_access_time set_domain_queues].
    now apply get_nowait_keyed.
  - unfold add_url.
    destruct (get_urlhash (normalize url)); [| exact Hk].
    destruct (decide _); [exact Hk |].
    destruct (shelf_has _ _); [exact Hk |].
    cbn [negb snd domain_queues set_urls_seen _add_to_domain_queue set_domain_queues set_save].
    now apply put_keyed.
  - unfold mark_url_complete. destruct (get_urlhash url); exact Hk.
Qed.

Lemma queues_keyed_reachable (config : Config) (calls : list call) :
  queues_keyed (domain_queues (fold_left (fun fs c => step config c fs) calls fresh)).
Proof.
  assert (forall fs, queues_keyed (domain_queues fs) ->
                     queues_keyed (domain_queues
                                     (fold_left (fun fs c => step config c fs) calls fs)))
    as Hall.
  { induction calls as [| c rest IH]; intros fs Hk; simpl; [exact Hk |].
    apply IH. now apply queues_keyed_step. }
  apply Hall. intros d q u [].
Qed.

(** In such a state the host that is served is the host of the URL that
    is handed out. *)
Lemma get_tbd_url_host (config : Config) (now : Q) (fs fs' : Frontier.State) (url : string) :
  queues_keyed (domain_queues fs) ->
  get_tbd_url config now fs = (Some url, fs') ->
  served_by config (GetTbdUrl now) fs = Some (_get_domain url, now).
Proof.
  intros Hk Hget.
  destruct (get_tbd_url_some _ _ _ _ _ Hget) as (h & q & Hs & Hin & _).
  rewrite Hs. f_equal. f_equal. symmetry. eapply Hk; [exact Hin | left; reflexivity].
Qed.

(** C1.  With a politeness delay that is not negative: any two URLs that
    [get_tbd_url] hands out from the queue of one host [h], over any
    sequence of frontier calls from any state, have clock readings at least
    [time_delay] apart; and a call that hands out a URL of host [h] does so
    only when the clock reading minus [last_access_time[h]] (0 when [h] has
    none) is at least [time_delay], takes the URL from the head of [h]'s
    queue, and sets [last_access_time[h]] to the clock reading. *)
Theorem politeness (config : Config) (calls : list call) (fs : Frontier.State) :
  (0 <= time_delay config)%Q ->
  (forall (i j : nat) (h : string) (ti tj : Q),
      (i < j)%nat ->
      served config calls fs !! i = Some (h, ti) ->
      served config calls fs !! j = Some (h, tj) ->
      (ti + time_delay config <= tj)%Q)
  /\ (forall (now : Q) (url : string) (fs' : Frontier.State),
        get_tbd_url config now fs = (Some url, fs') ->
        exists h q,
          served_by config (GetTbdUrl now) fs = Some (h, now)
          /\ In (h, url :: q) (domain_queues fs)
          /\ (time_delay config <= now - last_time fs h)%Q
          /\ last_access_time fs' !! h = Some now).
Proof.
  intros Hd. split.
  - intros i j h ti tj. now apply served_spaced.
  - intros now url fs' Hget.
    destruct (get_tbd_url_some _ _ _ _ _ Hget) as (h & q & Hs & Hin & Hready & Hlast).
    exists h, q. repeat split; try assumption.
    rewrite Hlast. apply lookup_insert_eq.
Qed.

End FrontierProofs.

(* ===================================================================== *)
(** * The frontier: reopening a save file                                 *)
(* ===================================================================== *)

Section RestartProofs.
Context `{PyLib} `{Utils}.
Import Frontier.

Lemma queued_put (queues : list (string * list string)) (domain url : string) :
  Permutation (flat_map snd (put queues domain url)) (flat_map snd queues ++ [url]).
Proof.
  induction queues as [| [d q] r IH]; simpl; [reflexivity |].
  destruct (String.eqb d domain); simpl.
  - rewrite <- !app_assoc. apply Permutation_app_head. apply Permutation_app_comm.
  - rewrite IH. now rewrite app_assoc.
Qed.

Lemma load_entries_save (entries : shelf) :
  forall (fs : Frontier.State) (st : Scraper.State),
    save (fst (load_entries entries fs st)) = save fs.
Proof.
  induction entries as [| [key [url completed]] rest IH]; intros fs st; simpl; [reflexivity |].
  destruct completed; [apply IH |].
  destruct (Scraper.is_valid url st) as [[[|] | e] st']; rewrite IH; reflexivity.
Qed.





(** The hypothesis on the save file in [restart_round_trip] is an
    invariant of the frontier: it holds of the empty save file and every
    call keeps it. *)
Lemma shelf_set_entries (s : shelf) (key : string) (value : string * bool) :
  forall e, In e (shelf_set s key value) -> e = (key, value) \/ In e s.
Proof.
  induction s as [| [k v] r IH]; intros e Hin; simpl in Hin.
  - destruct Hin as [<- | []]. now left.
  - destruct (String.eqb_spec k key) as [-> | Hne].
    + destruct Hin as [<- | Hin]; [now left | right; now right].
    + destruct Hin as [<- | Hin]; [right; now left |].
      destruct (IH e Hin) as [-> | Hr]; [now left | right; now right].
Qed.

Lemma shelf_set_keys (s : shelf) (key : string) (value : string * bool) :
  List.NoDup (map fst s) -> List.NoDup (map fst (shelf_set s key value)).
Proof.
  induction s as [| [k v] r IH]; intros Hnd; simpl.
  - constructor; [intros [] | constructor].
  - destruct (String.eqb_spec k key) as [-> | Hne]; simpl; [exact Hnd |].
    simpl in Hnd. apply NoDup_cons_iff in Hnd as [Hk Hnd].
    constructor; [| now apply IH].
    intros Hin. apply in_map_iff in Hin as [[k' v'] [Hfst Hin]]. simpl in Hfst. subst k'.
    apply shelf_set_entries in Hin as [Heq | Hin]; [congruence |].
    apply Hk. change k with (fst (k, v')). now apply in_map.
Qed.

Lemma shelf_set_consistent (s : shelf) (key url : string) (completed : bool) :
  get_urlhash url = Ok key ->
  store_consistent s -> store_consistent (shelf_set s key (url, completed)).
Proof.
  intros Hkey [Hnd Hall]. split; [now apply shelf_set_keys |].
  intros k u c Hin. apply shelf_set_entries in Hin as [Heq | Hin].
  - injection Heq as -> -> ->. exact Hkey.
  - eapply Hall. exact Hin.
Qed.

Lemma store_consistent_step (config : Config) (c : call) (fs : Frontier.State) :
  store_consistent (save fs) -> store_consistent (save (step config c fs)).
Proof.
  intros Hs. destruct c as [now | url | url]; simpl.
  - unfold get_tbd_url.
    destruct (ready_domains config now fs) as [| [d [| u q]] rest]; exact Hs.
  - unfold add_url.
    destruct (get_urlhash (normalize url)) as [urlhash | e] eqn:Hh; [| exact Hs].
    destruct (decide _); [exact Hs |].
    destruct (shelf_has (save fs) urlhash); [exact Hs |].
    cbn [negb snd save set_urls_seen _add_to_domain_queue set_domain_queues set_save].
    now apply shelf_set_consistent.
  - unfold mark_url_complete.
    destruct (get_urlhash url) as [urlhash | e] eqn:Hh; [| exact Hs].
    cbn [snd save set_save]. now apply shelf_set_consistent.
Qed.

Lemma store_consistent_reachable (config : Config) (calls : list call) :
  forall fs : Frontier.State,
    store_consistent (save fs) ->
    store_consistent (save (fold_left (fun fs c => step config c fs) calls fs)).
Proof.
  induction calls as [| c rest IH]; intros fs Hs; simpl; [exact Hs |].
  apply IH. now apply store_consistent_step.
Qed.

End RestartProofs.

(* ===================================================================== *)
(** * Computations over the globals: returning, and leaving things alone  *)
(* ===================================================================== *)

Section ComputationLaws.
Import Scraper.

Lemma never_raises_ret {A} (a : A) : never_raises (ret a).
Proof. intros st. now exists a. Qed.

Lemma never_raises_modify (f : State -> State) : never_raises (modify f).
Proof. intros st. now exists tt. Qed.

Lemma never_raises_gets {A} (f : State -> A) : never_raises (gets f).
Proof. intros st. now exists (f st). Qed.

Lemma never_raises_bind {A B} (m : M A) (f : A -> M B) :
  never_raises m -> (forall a, never_raises (f a)) -> never_raises (bind m f).
Proof.
  intros Hm Hf st. unfold bind.
  destruct (Hm st) as [a Ha]. destruct (m st) as [r st']. simpl in Ha. subst r.
  apply Hf.
Qed.

(** A handler that returns makes the whole [try] statement return. *)
Lemma never_raises_try_except {A} (m : M A) (h : exc -> M A) :
  (forall e, never_raises (h e)) -> never_raises (try_except m h).
Proof.
  intros Hh st. unfold try_except.
  destruct (m st) as [[a | e] st']; [now exists a | apply Hh].
Qed.

Lemma preserves_ret {A X} (observe : State -> X) (a : A) : preserves observe (ret a).
Proof. intros st. reflexivity. Qed.

Lemma preserves_gets {A X} (observe : State -> X) (f : State -> A) :
  preserves observe (gets f).
Proof. intros st. reflexivity. Qed.

Lemma preserves_lift {A X} (observe : State -> X) (r : result A) :
  preserves observe (lift r).
Proof. intros st. reflexivity. Qed.

Lemma preserves_modify {X} (observe : State -> X) (f : State -> State) :
  (forall st, observe (f st) = observe st) -> preserves observe (modify f).
Proof. intros Hf st. apply Hf. Qed.

Lemma preserves_bind {A B X} (observe : State -> X) (m : M A) (f : A -> M B) :
  preserves observe m -> (forall a, preserves observe (f a)) ->
  preserves observe (bind m f).
Proof.
  intros Hm Hf st. unfold bind.
  pose proof (Hm st) as Hs. destruct (m st) as [[a | e] st']; simpl in *.
  - rewrite (Hf a st'). exact Hs.
  - exact Hs.
Qed.

Lemma preserves_try_except {A X} (observe : State -> X) (m : M A) (h : exc -> M A) :
  preserves observe m -> (forall e, preserves observe (h e)) ->
  preserves observe (try_except m h).
Proof.
  intros Hm Hh st. unfold try_except.
  pose proof (Hm st) as Hs. destruct (m st) as [[a | e] st']; simpl in *.
  - exact Hs.
  - rewrite (Hh e st'). exact Hs.
Qed.

End ComputationLaws.

(** One step of a walk through a computation: a bind, a handler, a branch
    (whose condition is kept as an equation), or a primitive that does
    not write. *)
Ltac preserves_step :=
  first
    [ apply preserves_ret
    | apply preserves_gets
    | apply preserves_lift
    | apply preserves_bind; [| intros ?]
    | apply preserves_try_except; [| intros ?]
    | match goal with
      | |- Scraper.preserves _ (if ?c then _ else _) => destruct c eqn:?
      | |- Scraper.preserves _ (match ?x with _ => _ end) => destruct x eqn:?
      end ].

(* ===================================================================== *)
(** * The admission filter never raises                                   *)
(* ===================================================================== *)

Section AdmissionProofs.
Context `{PyLib}.
Import Scraper.

Lemma log_rejection_never_raises (reason url : string) (save_sample : bool) :
  never_raises (log_rejection reason url save_sample).
Proof. apply never_raises_modify. Qed.

Lemma is_url_trap_never_raises (url : string) : never_raises (is_url_trap url).
Proof. apply never_raises_try_except. intros e. apply never_raises_ret. Qed.

Lemma is_valid_never_raises (url : string) : never_raises (is_valid url).
Proof. apply never_raises_try_except. intros e. apply never_raises_ret. Qed.

Lemma log_processing_never_raises (url status reason : string) (n : Z) :
  never_raises (log_processing url status reason n).
Proof.
  unfold log_processing, save_processing_log.
  apply never_raises_bind; [apply never_raises_modify | intros _].
  apply never_raises_bind; [apply never_raises_gets | intros pl].
  destruct (_ =? 0); [apply never_raises_modify | apply never_raises_ret].
Qed.

(** C10.  For every string [url] and every state of the globals,
    [is_valid(url)] returns a boolean and raises nothing: where the body
    of its [try] block returns, [is_valid] returns that answer, and where
    the body raises, whatever the exception, [is_valid] returns [False]
    on the globals as the body left them.  [is_url_trap] likewise always
    returns a boolean. *)
Theorem is_valid_total (url : string) (st : State) :
  (exists (answer : bool) (st' : State), is_valid url st = (Ok answer, st'))
  /\ (exists (trapped : bool) (st' : State), is_url_trap url st = (Ok trapped, st'))
  /\ is_valid url st
     = match is_valid_body url st with
       | (Ok answer, st') => (Ok answer, st')
       | (Raise _, st') => (Ok false, st')
       end.
Proof.
  split; [| split].
  - destruct (is_valid_never_raises url st) as [b Hb].
    destruct (is_valid url st) as [r st']. simpl in Hb. subst r. now exists b, st'.
  - destruct (is_url_trap_never_raises url st) as [b Hb].
    destruct (is_url_trap url st) as [r st']. simpl in Hb. subst r. now exists b, st'.
  - unfold is_valid, try_except.
    destruct (is_valid_body url st) as [[b | e] st']; reflexivity.
Qed.

(** The handler is not dead code: [urlparse] raises [ValueError] on a
    netloc with an opening bracket and no closing one, the body of
    [is_valid] raises with it, and [is_valid] answers [False]. *)
Lemma is_valid_catches_value_error (st : State) :
  is_valid_body "http://[::1/x" st = (Raise (ValueError "Invalid IPv6 URL"), st)
  /\ is_valid "http://[::1/x" st = (Ok false, st).
Proof. split; reflexivity. Qed.

End AdmissionProofs.

(* ===================================================================== *)
(** * What the admission filter writes                                    *)
(* ===================================================================== *)

Section AdmissionWrites.
Context `{PyLib}.
Import Scraper.

(** The trap detector writes its two counters and nothing else. *)
Lemma is_url_trap_preserves {X} (observe : State -> X) (url : string) :
  (forall v st, observe (set_url_pattern_counter v st) = observe st) ->
  (forall v st, observe (set_domain_path_counter v st) = observe st) ->
  preserves observe (is_url_trap url).
Proof.
  intros Hp Hd. unfold is_url_trap. cbv zeta.
  repeat preserves_step; apply preserves_modify; intros st; first [apply Hp | apply Hd].
Qed.

Lemma log_rejection_preserves {X} (observe : State -> X) (reason url : string) (b : bool) :
  (forall v st, observe (set_rejection_stats v st) = observe st) ->
  (forall v st, observe (set_rejection_samples v st) = observe st) ->
  preserves observe (log_rejection reason url b).
Proof.
  intros Hs Hl. apply preserves_modify. intros st.
  destruct b; cbv zeta; [| apply Hs].
  destruct (length _ <? 5)%nat; [rewrite Hl |]; apply Hs.
Qed.

Lemma is_valid_preserves {X} (observe : State -> X) (url : string) :
  (forall v st, observe (set_url_pattern_counter v st) = observe st) ->
  (forall v st, observe (set_domain_path_counter v st) = observe st) ->
  (forall v st, observe (set_rejection_stats v st) = observe st) ->
  (forall v st, observe (set_rejection_samples v st) = observe st) ->
  preserves observe (is_valid url).
Proof.
  intros Hp Hd Hs Hl. unfold is_valid, is_valid_body, reject. cbv zeta.
  repeat first [ apply log_rejection_preserves; [exact Hs | exact Hl]
               | apply is_url_trap_preserves; [exact Hp | exact Hd]
               | preserves_step ].
Qed.

Lemma is_valid_keeps_pages (url : string) : preserves pages (is_valid url).
Proof. apply is_valid_preserves; intros v st; reflexivity. Qed.

(** A rejection is counted under its own reason only. *)
Lemma log_rejection_other (reason other url : string) (b : bool) :
  reason <> other ->
  preserves (fun st => rejections st other) (log_rejection reason url b).
Proof.
  intros Hne. apply preserves_modify. intros st.
  assert (rejections
            (set_rejection_stats
               (<[reason := count_of (rejection_stats st) reason + 1]> (rejection_stats st)) st)
            other = rejections st other) as Hstats.
  { unfold rejections, count_of. cbn [rejection_stats set_rejection_stats].
    now rewrite lookup_insert_ne. }
  destruct b; cbv zeta; [| exact Hstats].
  destruct (length _ <? 5)%nat; exact Hstats.
Qed.

Lemma startswith_prefix (p : string) :
  forall s : string, Py.startswith s p = true -> exists t, s = p ++ t.
Proof.
  induction p as [| a p IH]; intros s Hs; simpl in Hs.
  - now exists s.
  - destruct s as [| b s]; [discriminate |].
    apply andb_true_iff in Hs as [Hab Hs].
    apply Ascii.eqb_eq in Hab. subst b.
    destruct (IH s Hs) as [t ->]. now exists t.
Qed.

(** With the reversed netloc known to start with the reversed text of an
    allowed domain, every test of the deny-list fails at a character that
    is in plain sight. *)
Ltac rule_out_blocked Hrev :=
  unfold host_in, blocked; cbn [existsb];
  repeat match goal with
    | |- context [String.eqb ?n ?b] =>
        destruct (String.eqb_spec n b) as [Heq | _];
        [ exfalso; apply (f_equal Py.rev) in Heq; rewrite Hrev in Heq;
          vm_compute in Heq; discriminate Heq | ]
    end;
  unfold Py.endswith; rewrite Hrev; vm_compute; reflexivity.

(** No host passes the allow-list of step 2 and is on the deny-list of
    step 3: the deny-list names hosts that are not under any of the four
    domains. *)
Lemma host_in_valid_not_blocked (netloc : string) :
  host_in netloc VALID_DOMAINS = true -> host_in netloc blocked = false.
Proof.
  unfold host_in at 1, VALID_DOMAINS. cbn [existsb]. intros Hv.
  repeat (apply orb_true_iff in Hv as [Hv | Hv]); try discriminate;
    first [ apply String.eqb_eq in Hv; subst netloc; vm_compute; reflexivity
          | unfold Py.endswith in Hv;
            apply startswith_prefix in Hv as [t Ht];
            match type of Ht with
            | _ = ?r => let r' := eval vm_compute in r in change r with r' in Ht
            end;
            rule_out_blocked Ht ].
Qed.

(** [is_valid] never records a rejection under [blocked_domain]. *)
Lemma is_valid_never_blocked_domain (url : string) :
  preserves (fun st => rejections st "blocked_domain") (is_valid url).
Proof.
  unfold is_valid, is_valid_body, reject. cbv zeta.
  repeat first
    [ apply is_url_trap_preserves; intros v st; reflexivity
    | apply log_rejection_other; intros Hr; simpl in Hr; discriminate Hr
    | match goal with
      | Hv : negb (host_in ?n VALID_DOMAINS) = false,
        Hb : host_in ?n blocked = true |- _ =>
          exfalso; apply negb_false_iff in Hv;
          apply host_in_valid_not_blocked in Hv; congruence
      end
    | preserves_step ].
Qed.

End AdmissionWrites.

(* ===================================================================== *)
(** * What the three mistyped patterns match                              *)
(* ===================================================================== *)

Section PatternFacts.
Import Scraper.

(** Every pattern of the source is in the fragment that [Re.compile]
    reads, so [Re.search] and [Re.sub] never fall back on their default. *)
Lemma patterns_compile :
  forallb (fun p => match Re.compile p with Some _ => true | None => false end)
          (CALENDAR_PATTERNS ++ TRAP_PATTERNS ++ LEGITIMATE_PATTERNS
           ++ ["\\d+"; "\\d{4}-\\d{2}-\\d{2}"; "s+"])%list
  = true.
Proof. vm_compute. reflexivity. Qed.

Lemma match_needs_backslash (rest : list Re.item) (s : string) :
  Py.contains_char s "\" = false ->
  Re.match_items ((Re.Lit "\", Re.One) :: rest) s = None.
Proof.
  destruct s as [| b r]; cbn [Re.match_items Re.times Re.atom_ok Py.contains_char];
    [reflexivity |].
  intros Hno. apply orb_false_iff in Hno as [Hb _].
  rewrite Ascii.eqb_sym in Hb. now rewrite Hb.
Qed.

(** A pattern whose second item is a literal backslash finds nothing in a
    text without a backslash. *)
Lemma search_needs_backslash (c : ascii) (rest : list Re.item) (s : string) :
  Py.contains_char s "\" = false ->
  Re.search_items ((Re.Lit c, Re.One) :: (Re.Lit "\", Re.One) :: rest) s = false.
Proof.
  induction s as [| a r IH]; intros Hno.
  - reflexivity.
  - cbn [Py.contains_char] in Hno. apply orb_false_iff in Hno as [Ha Hr].
    cbn [Re.search_items].
    replace (Re.match_items ((Re.Lit c, Re.One) :: (Re.Lit "\", Re.One) :: rest)
                            (String a r)) with (@None string); [now apply IH |].
    cbn [Re.match_items Re.times Re.atom_ok].
    destruct (Ascii.eqb c a); [| reflexivity].
    symmetry. now apply match_needs_backslash.
Qed.

Lemma sub_needs_backslash (rest : list Re.item) (repl s : string) :
  Py.contains_char s "\" = false ->
  Re.sub_items ((Re.Lit "\", Re.One) :: rest) repl s 0 = s.
Proof.
  induction s as [| a r IH]; intros Hno.
  - reflexivity.
  - cbn [Re.sub_items]. rewrite (match_needs_backslash rest (String a r) Hno).
    cbn [Py.contains_char] in Hno. apply orb_false_iff in Hno as [_ Hr].
    f_equal. now apply IH.
Qed.

Lemma lower_char_backslash (c : ascii) :
  Ascii.eqb (Py.lower_char c) "\" = Ascii.eqb c "\".
Proof. destruct c as [[] [] [] [] [] [] [] []]; reflexivity. Qed.

Lemma lower_no_backslash (s : string) :
  Py.contains_char (Py.lower s) "\" = Py.contains_char s "\".
Proof.
  induction s as [| c r IH]; simpl; [reflexivity |].
  now rewrite lower_char_backslash, IH.
Qed.

(** The date entry of [CALENDAR_PATTERNS] finds nothing in a URL that has
    no backslash. *)
Lemma date_pattern_needs_backslash (url : string) :
  Py.contains_char url "\" = false ->
  Re.search "/\\d{4}/\\d{2}/\\d{2}" (Py.lower url) = false.
Proof.
  intros Hno. unfold Re.search.
  change (Re.compile "/\\d{4}/\\d{2}/\\d{2}")
    with (Some [(Re.Lit "/", Re.One); (Re.Lit "\", Re.One); (Re.Lit "d", Re.Rep 4);
                (Re.Lit "/", Re.One); (Re.Lit "\", Re.One); (Re.Lit "d", Re.Rep 2);
                (Re.Lit "/", Re.One); (Re.Lit "\", Re.One); (Re.Lit "d", Re.Rep 2)]).
  cbv beta iota. apply search_needs_backslash. now rewrite lower_no_backslash.
Qed.

(** Neither substitution of [get_url_pattern] changes a path that has no
    backslash. *)
Lemma pattern_subs_need_backslash (path : string) :
  Py.contains_char path "\" = false ->
  Re.sub "\\d{4}-\\d{2}-\\d{2}" "DATE" (Re.sub "\\d+" "N" path) = path.
Proof.
  intros Hno. unfold Re.sub.
  change (Re.compile "\\d+") with (Some [(Re.Lit "\", Re.One); (Re.Lit "d", Re.Plus)]).
  change (Re.compile "\\d{4}-\\d{2}-\\d{2}")
    with (Some [(Re.Lit "\", Re.One); (Re.Lit "d", Re.Rep 4); (Re.Lit "-", Re.One);
                (Re.Lit "\", Re.One); (Re.Lit "d", Re.Rep 2); (Re.Lit "-", Re.One);
                (Re.Lit "\", Re.One); (Re.Lit "d", Re.Rep 2)]).
  cbv beta iota. rewrite (sub_needs_backslash _ "N" path Hno).
  now apply sub_needs_backslash.
Qed.

(** ** The substitution of the text extractor *)

Lemma star_some (a : Re.atom) (k : string -> option string) (s : string) :
  (forall x, k x = Some x) ->
  exists rest, Re.star a k s = Some rest /\ (String.length rest <= String.length s)%nat.
Proof.
  intros Hk. induction s as [| c r IH]; simpl.
  - exists "". now rewrite Hk.
  - destruct (Re.atom_ok a c).
    + destruct IH as [rest [-> Hlen]]. exists rest. split; [reflexivity | lia].
    + exists (String c r). rewrite Hk. split; [reflexivity | simpl; lia].
Qed.

Lemma contains_char_app (a b : string) (c : ascii) :
  Py.contains_char (a ++ b) c = Py.contains_char a c || Py.contains_char b c.
Proof.
  induction a as [| x a IH]; simpl; [reflexivity |].
  now rewrite IH, orb_assoc.
Qed.

(** Whatever the text, what [re.sub(r's+', ' ', text)] returns has no
    letter s. *)
Lemma sub_s_has_no_s (s : string) :
  forall skip : nat,
    Py.contains_char (Re.sub_items [(Re.Lit "s", Re.Plus)] " " s skip) "s" = false.
Proof.
  induction s as [| c r IH]; intros skip.
  - destruct skip; reflexivity.
  - destruct skip as [| k]; [| apply IH].
    cbn [Re.sub_items Re.match_items Re.times Re.atom_ok].
    destruct (Ascii.eqb_spec "s" c) as [<- | Hne].
    + destruct (star_some (Re.Lit "s") (fun x => Some x) r) as [rest [Hstar Hlen]];
        [reflexivity |].
      rewrite Hstar.
      replace (String.length (String "s" r) - String.length rest)%nat
        with (S (String.length r - String.length rest)) by (simpl; lia).
      rewrite contains_char_app, IH. reflexivity.
    + cbn [Py.contains_char]. rewrite IH.
      destruct (Ascii.eqb_spec c "s") as [-> | _]; [contradiction | reflexivity].
Qed.

Lemma contains_char_lstrip (p : ascii -> bool) (s : string) (c : ascii) :
  Py.contains_char s c = false -> Py.contains_char (Py.lstrip_by p s) c = false.
Proof.
  induction s as [| x r IH]; simpl; intros Hno; [reflexivity |].
  destruct (p x); [| exact Hno].
  apply orb_false_iff in Hno as [_ Hr]. now apply IH.
Qed.

Lemma contains_char_rev_onto (s acc : string) (c : ascii) :
  Py.contains_char (Py.rev_onto s acc) c
  = Py.contains_char s c || Py.contains_char acc c.
Proof.
  revert acc. induction s as [| x r IH]; intros acc; simpl; [reflexivity |].
  rewrite IH. simpl. destruct (Ascii.eqb x c), (Py.contains_char r c); reflexivity.
Qed.

Lemma contains_char_strip (s : string) (c : ascii) :
  Py.contains_char s c = false -> Py.contains_char (Py.strip s) c = false.
Proof.
  intros Hno. unfold Py.strip, Py.rstrip_by, Py.rev.
  rewrite contains_char_rev_onto. simpl. rewrite orb_false_r.
  apply contains_char_lstrip.
  rewrite contains_char_rev_onto. simpl. rewrite orb_false_r.
  now apply contains_char_lstrip.
Qed.

(** The text that the extractor returns never has a letter s in it. *)
Lemma extracted_text_has_no_s (soup : list node) :
  Py.contains_char (fst (extract_text_content_from_soup soup)) "s" = false.
Proof.
  unfold extract_text_content_from_soup. cbn [fst].
  apply contains_char_strip. unfold Re.sub.
  change (Re.compile "s+") with (Some [(Re.Lit "s", Re.Plus)]).
  cbv beta iota. apply sub_s_has_no_s.
Qed.

End PatternFacts.

(* ===================================================================== *)
(** * The admission filter and the text extractor on concrete inputs      *)
(* ===================================================================== *)

Section Scenarios.
Context `{PyLib}.
Import Scraper.

(** C3.  [get_url_pattern] leaves the integers of a path in place:
    [r'\\d+'] asks for a backslash followed by the letter d, not for
    digits, and so the two substitutions return every path without a
    backslash as it is.  [https://stat.uci.edu/x/1] and
    [https://stat.uci.edu/x/2] get the two patterns [stat.uci.edu/x/1?]
    and [stat.uci.edu/x/2?], not the one pattern [stat.uci.edu/x/N?]
    (which the pattern [r'\d+'] of the sibling scraper would give).  No
    counter passes 75, and from a fresh module all 76 calls of [is_valid]
    on [https://stat.uci.edu/x/1] ... [https://stat.uci.edu/x/76], the
    76th among them, return [True]. *)
Theorem pattern_frequency_misses_numbered_paths :
  (forall path : string,
      Py.contains_char path "\" = true
      \/ Re.sub "\\d{4}-\\d{2}-\\d{2}" "DATE" (Re.sub "\\d+" "N" path) = path)
  /\ get_url_pattern "https://stat.uci.edu/x/1" = "stat.uci.edu/x/1?"
  /\ get_url_pattern "https://stat.uci.edu/x/2" = "stat.uci.edu/x/2?"
  /\ Re.sub "\d+" "N" "/x/1" = "/x/N"
  /\ (let urls := map (fun n => "https://stat.uci.edu/x/" ++ Py.str_of_Z (Z.of_nat n))
                      (seq 1 76) in
      let run := is_valid_all urls initial in
      fst run = repeat (Ok true) 76
      /\ List.last (fst run) (Ok false) = Ok true
      /\ rejections (snd run) "url_trap" = 0
      /\ count_of (url_pattern_counter (snd run)) "stat.uci.edu/x/N?" = 0
      /\ count_of (url_pattern_counter (snd run)) "stat.uci.edu/x/76?" = 1).
Proof.
  split.
  - intros path. destruct (Py.contains_char path "\") eqn:Hb; [now left | right].
    now apply pattern_subs_need_backslash.
  - vm_compute. repeat split.
Qed.

(** C4.  A URL with a [/YYYY/MM/DD] path is not taken for a calendar
    page: the last entry of [CALENDAR_PATTERNS], [r'/\\d{4}/\\d{2}/\\d{2}'],
    asks for backslashes and runs of the letter d, and finds nothing in
    any URL that has no backslash.  On
    [https://ics.uci.edu/2024/01/15/post] no calendar pattern matches,
    [is_valid] returns [True] from a fresh module and records no
    rejection; the pattern [r'/\d{4}/\d{2}/\d{2}'] of the sibling scraper
    matches that URL, and the pattern of this scraper matches the text
    [/\dddd/\dd/\dd]. *)
Theorem date_path_not_rejected :
  (forall url : string,
      Py.contains_char url "\" = true
      \/ Re.search "/\\d{4}/\\d{2}/\\d{2}" (Py.lower url) = false)
  /\ (let url := "https://ics.uci.edu/2024/01/15/post" in
      is_calendar_or_event url = false
      /\ fst (is_valid url initial) = Ok true
      /\ rejections (snd (is_valid url initial)) "calendar_event" = 0
      /\ Re.search "/\d{4}/\d{2}/\d{2}" (Py.lower url) = true
      /\ Re.search "/\\d{4}/\\d{2}/\\d{2}" (Py.lower url) = false
      /\ Re.search "/\\d{4}/\\d{2}/\\d{2}" "https://ics.uci.edu/\dddd/\dd/\dd" = true).
Proof.
  split.
  - intros url. destruct (Py.contains_char url "\") eqn:Hb; [now left | right].
    now apply date_pattern_needs_backslash.
  - vm_compute. repeat split.
Qed.

(** C8.  The extractor does not collapse white space and does not keep
    the other characters: [r's+'] is a run of the letter s, and the text
    that comes back never has a letter s in it.  A page whose only text
    is [class], two spaces, [notes], comes out as [cla], three spaces,
    [note]; the pattern [r'\s+'] of the sibling scrapers gives
    [class notes]. *)
Theorem extractor_rewrites_letter_s :
  (forall soup : list node,
      Py.contains_char (fst (extract_text_content_from_soup soup)) "s" = false)
  /\ (let soup := [Tag "html" [] [Tag "body" [] [Tag "p" [] [Text "class  notes"]]]] in
      fst (extract_text_content_from_soup soup) = "cla   note"
      /\ get_text soup = "class  notes"
      /\ Py.strip (Re.sub "\s+" " " (get_text soup)) = "class notes").
Proof.
  split; [exact extracted_text_has_no_s |].
  vm_compute. repeat split.
Qed.

(** The rejection of a host outside the four domains is recorded as
    [bad_domain], whatever the globals hold. *)
Lemma physics_is_bad_domain (st : State) :
  let run := is_valid "https://physics.uci.edu/x" st in
  fst run = Ok false
  /\ rejections (snd run) "bad_domain" = rejections st "bad_domain" + 1
  /\ rejections (snd run) "blocked_domain" = rejections st "blocked_domain".
Proof.
  cbv zeta.
  assert (is_valid "https://physics.uci.edu/x" st
          = reject "bad_domain" "https://physics.uci.edu/x" false st) as ->.
  { reflexivity. }
  unfold reject, bind, log_rejection, modify, ret, rejections, count_of. simpl.
  split; [reflexivity |]. split.
  - now rewrite lookup_insert_eq.
  - now rewrite lookup_insert_ne.
Qed.

(** C5, as the code has it.  [is_valid("https://physics.uci.edu/x")]
    returns [False] and the rejection is recorded under [bad_domain] (the
    host is not one of the four domains nor a subdomain of one, which is
    checked before the deny-list), in every state of the globals; no call
    of [is_valid], on any URL, records anything under [blocked_domain].
    From a fresh module, the three calls of the scenario in turn return
    [False], [False], [True], and the second is recorded under
    [ext_pdf]. *)
Theorem admission_scenario :
  (forall st : State,
      let run := is_valid "https://physics.uci.edu/x" st in
      fst run = Ok false
      /\ rejections (snd run) "bad_domain" = rejections st "bad_domain" + 1
      /\ rejections (snd run) "blocked_domain" = rejections st "blocked_domain")
  /\ (forall (url : string) (st : State),
        rejections (snd (is_valid url st)) "blocked_domain"
        = rejections st "blocked_domain")
  /\ (let run := is_valid_all ["https://physics.uci.edu/x";
                               "https://ics.uci.edu/paper.pdf";
                               "https://ics.uci.edu/courses/cs101/"] initial in
      fst run = [Ok false; Ok false; Ok true]
      /\ rejections (snd run) "bad_domain" = 1
      /\ rejections (snd run) "ext_pdf" = 1
      /\ rejections (snd run) "blocked_domain" = 0)
  /\ (let run := is_valid "https://ics.uci.edu/paper.pdf" initial in
      fst run = Ok false /\ rejections (snd run) "ext_pdf" = 1)
  /\ fst (is_valid "https://ics.uci.edu/courses/cs101/" initial) = Ok true.
Proof.
  split; [exact physics_is_bad_domain |].
  split; [intros url st; apply (is_valid_never_blocked_domain url st) |].
  vm_compute. repeat split.
Qed.

End Scenarios.

(** C5, as the claim has it, fails: the rejection of
    [https://physics.uci.edu/x] is not recorded under [blocked_domain]. *)
Lemma admission_physics_not_blocked_domain :
  let run := Scraper.is_valid (H := Sample.lib Sample.no_parser)
               "https://physics.uci.edu/x" Scraper.initial in
  ~ (fst run = Ok false
     /\ Scraper.rejections (snd run) "blocked_domain"
        = Scraper.rejections Scraper.initial "blocked_domain" + 1).
Proof. vm_compute. intros [_ Habs]. discriminate Habs. Qed.

(* ===================================================================== *)
(** * The scraper on a duplicate page                                     *)
(* ===================================================================== *)

Section ScraperProofs.
Context `{PyLib}.
Import Scraper.

Lemma log_processing_keeps_pages (url status reason : string) (n : Z) :
  preserves pages (log_processing url status reason n).
Proof.
  unfold log_processing, save_processing_log.
  repeat preserves_step; apply preserves_modify; intros st; try reflexivity.
  destruct (processing_log st); reflexivity.
Qed.

Lemma is_duplicate_keeps_pages (text url : string) :
  preserves pages (is_duplicate text url).
Proof.
  unfold is_duplicate. cbv zeta.
  repeat preserves_step; apply preserves_modify; intros st; reflexivity.
Qed.

Lemma valid_links_of_keeps_pages (links : list string) :
  preserves pages (valid_links_of links).
Proof.
  induction links as [| link rest IH]; simpl; [apply preserves_ret |].
  apply preserves_bind; [apply is_valid_keeps_pages | intros ok].
  apply preserves_bind; [exact IH | intros more]. apply preserves_ret.
Qed.



End ScraperProofs.

(* ===================================================================== *)
(** * The theorems at concrete inputs                                     *)
(* ===================================================================== *)

(** A ring of 1000 entries, none within the threshold of the new text:
    after the call the ring has lost its first entry, has the new pair at
    its end, and still holds 1000 entries. *)
Lemma simhash_ring_bounded_witness :
  let st := Scraper.set_seen_simhashes Sample.full_ring Scraper.initial in
  let L := Sample.lib Sample.no_parser in
  (length (Scraper.seen_simhashes st) <= Scraper.SIMHASH_WINDOW)%nat
  /\ (length (Scraper.seen_simhashes
                (Scraper.is_duplicate_all (H := L)
                   [(Sample.words_60, "https://ics.uci.edu/new")] st))
      <= Scraper.SIMHASH_WINDOW)%nat
  /\ Scraper.seen_simhashes
       (snd (Scraper.is_duplicate (H := L) Sample.words_60 "https://ics.uci.edu/new" st))
     = (tail (Scraper.seen_simhashes st)
        ++ [(Scraper.compute_simhash (H := L) Sample.words_60, "https://ics.uci.edu/new")])%list.
Proof.
  intros st L.
  assert (length (Scraper.seen_simhashes st) <= Scraper.SIMHASH_WINDOW)%nat as Hb.
  { apply Nat.leb_le. vm_compute. reflexivity. }
  split; [exact Hb |]. split.
  - exact (proj1 (proj2 (simhash_ring_bounded (H := L)
                           [(Sample.words_60, "https://ics.uci.edu/new")] st Hb))).
  - apply (proj2 (proj2 (simhash_ring_bounded (H := L) [] st Hb))).
    + vm_compute. reflexivity.
    + vm_compute. reflexivity.
Defined.

(** Two URLs of [cs.uci.edu], a delay of half a second, and the clock at
    10, 10.2 and 10.6: the second call finds no host ready, the first and
    the third hand out the two URLs, 0.6 seconds apart. *)
Lemma politeness_witness :
  (0 <= Frontier.time_delay Sample.config)%Q
  /\ Frontier.served (H := Sample.lib Sample.no_parser) (H0 := Sample.utils)
       Sample.config Sample.calls Frontier.fresh
     = [("cs.uci.edu", 10%Q); ("cs.uci.edu", (53 # 5)%Q)]
  /\ (10 + Frontier.time_delay Sample.config <= 53 # 5)%Q.
Proof.
  assert (0 <= Frontier.time_delay Sample.config)%Q as Hd.
  { vm_compute. discriminate. }
  split; [exact Hd |]. split; [vm_compute; reflexivity |].
  apply (proj1 (politeness (H := Sample.lib Sample.no_parser) (H0 := Sample.utils)
                  Sample.config Sample.calls Frontier.fresh Hd)
           0%nat 1%nat "cs.uci.edu").
  - lia.
  - vm_compute. reflexivity.
  - vm_compute. reflexivity.
Defined.



(* ===================================================================== *)
(** * The frontier: queues, the seen set and the save file over a run     *)
(* ===================================================================== *)

Section FrontierInvariants.
Context `{PyLib} `{Utils}.
Import Frontier.

Lemma put_keys (queues : list (string * list string)) (domain url : string) :
  forall d, In d (map fst (put queues domain url)) <-> d = domain \/ In d (map fst queues).
Proof.
  induction queues as [| [k q] r IH]; intros d; simpl.
  - intuition congruence.
  - destruct (String.eqb_spec k domain) as [-> | Hne]; simpl.
    + intuition congruence.
    + rewrite IH. tauto.
Qed.

Lemma put_keys_NoDup (queues : list (string * list string)) (domain url : string) :
  List.NoDup (map fst queues) -> List.NoDup (map fst (put queues domain url)).
Proof.
  induction queues as [| [k q] r IH]; intros Hnd; simpl.
  - constructor; [intros [] | constructor].
  - simpl in Hnd. apply NoDup_cons_iff in Hnd as [Hk Hnd].
    destruct (String.eqb_spec k domain) as [-> | Hne]; simpl.
    + constructor; assumption.
    + constructor; [| now apply IH].
      rewrite put_keys. intros [Heq | Hin]; [congruence | contradiction].
Qed.

Lemma get_nowait_keys (queues : list (string * list string)) (domain : string) :
  map fst (get_nowait queues domain) = map fst queues.
Proof.
  induction queues as [| [k q] r IH]; simpl; [reflexivity |].
  destruct (String.eqb k domain); simpl; [reflexivity | now rewrite IH].
Qed.

(** With one queue per host, [get_nowait] takes away the head of the
    queue it was asked for and nothing else. *)
Lemma get_nowait_queued (queues : list (string * list string))
      (domain url : string) (q : list string) :
  List.NoDup (map fst queues) ->
  In (domain, url :: q) queues ->
  Permutation (flat_map snd queues) (url :: flat_map snd (get_nowait queues domain)).
Proof.
  induction queues as [| [k q'] r IH]; intros Hnd Hin; [contradiction |].
  simpl in Hnd. apply NoDup_cons_iff in Hnd as [Hk Hnd]. simpl.
  destruct (String.eqb_spec k domain) as [-> | Hne].
  - destruct Hin as [Heq | Hin].
    + injection Heq as ->. reflexivity.
    + exfalso. apply Hk. change domain with (fst (domain, url :: q)). now apply in_map.
  - destruct Hin as [Heq | Hin]; [congruence |].
    simpl. rewrite (IH Hnd Hin). symmetry. apply Permutation_middle.
Qed.

(** All that a successful [get_tbd_url] changes. *)
Lemma get_tbd_url_effect (config : Config) (now : Q) (fs fs' : Frontier.State) (url : string) :
  get_tbd_url config now fs = (Some url, fs') ->
  exists h q,
    In (h, url :: q) (domain_queues fs)
    /\ domain_queues fs' = get_nowait (domain_queues fs) h
    /\ urls_seen fs' = urls_seen fs
    /\ save fs' = save fs.
Proof.
  unfold get_tbd_url.
  destruct (ready_domains config now fs) as [| [d [| u q]] rest] eqn:Hr; try discriminate.
  intros Heq. injection Heq as <- <-.
  exists d, q. apply filter_head in Hr as [_ Hin]. repeat split. exact Hin.
Qed.

Lemma get_tbd_url_none (config : Config) (now : Q) (fs : Frontier.State) :
  fst (get_tbd_url config now fs) = None -> snd (get_tbd_url config now fs) = fs.
Proof.
  unfold get_tbd_url.
  destruct (ready_domains config now fs) as [| [d [| u q]] rest]; try reflexivity.
  discriminate.
Qed.

(** All that [add_url] changes: nothing, or one new entry in the save
    file, the URL at the tail of its host's queue and in [urls_seen]. *)
Lemma add_url_effect (url : string) (fs : Frontier.State) :
  snd (add_url url fs) = fs
  \/ (exists key,
        get_urlhash (normalize url) = Ok key
        /\ (normalize url ∉ urls_seen fs)
        /\ shelf_has (save fs) key = false
        /\ domain_queues (snd (add_url url fs))
           = put (domain_queues fs) (_get_domain (normalize url)) (normalize url)
        /\ urls_seen (snd (add_url url fs)) = {[normalize url]} ∪ urls_seen fs
        /\ save (snd (add_url url fs)) = shelf_set (save fs) key (normalize url, false)).
Proof.
  unfold add_url.
  destruct (get_urlhash (normalize url)) as [key | e]; [| now left].
  destruct (decide (normalize url ∈ urls_seen fs)) as [Hin | Hnotin]; [now left |].
  destruct (shelf_has (save fs) key) eqn:Hs; [now left |].
  right. exists key. repeat split; assumption.
Qed.

Lemma mark_url_complete_effect (url : string) (fs : Frontier.State) :
  domain_queues (snd (mark_url_complete url fs)) = domain_queues fs
  /\ urls_seen (snd (mark_url_complete url fs)) = urls_seen fs.
Proof. unfold mark_url_complete. destruct (get_urlhash url); split; reflexivity. Qed.

(** The invariant of a run, with the URLs handed out so far: no URL is
    among the handed out and queued ones twice, and all of them are in
    [urls_seen]. *)
Lemma handed_and_queued_step (config : Config) (c : call) (fs : Frontier.State)
      (handed : list string) :
  List.NoDup (map fst (domain_queues fs)) ->
  List.NoDup (handed ++ queued fs) ->
  (forall url, In url (handed ++ queued fs) -> url ∈ urls_seen fs) ->
  let fs' := step config c fs in
  let handed' := (handed ++ handed_out config [c] fs)%list in
  List.NoDup (map fst (domain_queues fs'))
  /\ List.NoDup (handed' ++ queued fs')
  /\ (forall url, In url (handed' ++ queued fs') -> url ∈ urls_seen fs').
Proof.
  intros Hkeys Hnd Hseen. cbv zeta. destruct c as [now | url | url]; simpl.
  - destruct (get_tbd_url config now fs) as [[u |] fs'] eqn:Hget; simpl.
    + destruct (get_tbd_url_effect _ _ _ _ _ Hget) as (h & q & Hin & Hq & Hs & _).
      assert (Permutation (handed ++ queued fs) ((handed ++ [u]) ++ queued fs')) as Hperm.
      { unfold queued. rewrite Hq, <- app_assoc. simpl.
        apply Permutation_app_head. now apply (get_nowait_queued _ h u q). }
      split; [rewrite Hq, get_nowait_keys; exact Hkeys |].
      split; [eapply Permutation_NoDup; [exact Hperm | exact Hnd] |].
      intros x Hx. rewrite Hs. apply Hseen.
      eapply Permutation_in; [symmetry; exact Hperm | exact Hx].
    + pose proof (get_tbd_url_none config now fs) as Hn. rewrite Hget in Hn.
      simpl in Hn. rewrite (Hn eq_refl), app_nil_r. repeat split; assumption.
  - rewrite app_nil_r.
    destruct (add_url_effect url fs) as [-> | (key & _ & Hnew & _ & Hq & Hs & _)];
      [repeat split; assumption |].
    assert (Permutation (handed ++ queued (snd (add_url url fs)))
                        (normalize url :: handed ++ queued fs)) as Hperm.
    { unfold queued. rewrite Hq, queued_put.
      rewrite app_assoc. symmetry. apply Permutation_cons_append. }
    split; [rewrite Hq; now apply put_keys_NoDup |].
    split.
    + eapply Permutation_NoDup; [symmetry; exact Hperm |].
      constructor; [| exact Hnd]. intros Hin. apply Hnew. now apply Hseen.
    + intros x Hx. rewrite Hs.
      eapply Permutation_in in Hx; [| exact Hperm].
      apply elem_of_union.
      destruct Hx as [<- | Hx]; [left; now apply elem_of_singleton | right; now apply Hseen].
  - rewrite app_nil_r. destruct (mark_url_complete_effect url fs) as [Hq Hs].
    unfold queued. rewrite Hq, Hs. repeat split; assumption.
Qed.

Lemma handed_out_app (config : Config) (c : call) (rest : list call) (fs : Frontier.State) :
  handed_out config (c :: rest) fs
  = (handed_out config [c] fs ++ handed_out config rest (step config c fs))%list.
Proof.
  destruct c as [now | url | url]; simpl; try reflexivity.
  destruct (fst (get_tbd_url config now fs)); reflexivity.
Qed.

Lemma handed_and_queued_run (config : Config) (calls : list call) :
  forall (fs : Frontier.State) (handed : list string),
    List.NoDup (map fst (domain_queues fs)) ->
    List.NoDup (handed ++ queued fs) ->
    (forall url, In url (handed ++ queued fs) -> url ∈ urls_seen fs) ->
    let fs' := run_calls config calls fs in
    let handed' := (handed ++ handed_out config calls fs)%list in
    List.NoDup (map fst (domain_queues fs'))
    /\ List.NoDup (handed' ++ queued fs')
    /\ (forall url, In url (handed' ++ queued fs') -> url ∈ urls_seen fs').
Proof.
  induction calls as [| c rest IH]; intros fs handed Hkeys Hnd Hseen; cbv zeta.
  - simpl. rewrite app_nil_r. repeat split; assumption.
  - destruct (handed_and_queued_step config c fs handed Hkeys Hnd Hseen)
      as (Hkeys' & Hnd' & Hseen').
    specialize (IH (step config c fs) _ Hkeys' Hnd' Hseen').
    cbv zeta in IH. rewrite handed_out_app, app_assoc. exact IH.
Qed.

(** X1.  From a well-formed frontier (one queue per host, no URL queued
    twice, every queued URL in [urls_seen]; the state after [__init__]
    set the attributes is one), over any sequence of [get_tbd_url],
    [add_url] and [mark_url_complete] calls: no URL is handed out twice,
    no URL handed out is still or again in a queue, no URL is in the
    queues twice, and the frontier is well-formed at the end. *)
Theorem handed_out_once (config : Config) (calls : list call) (fs : Frontier.State) :
  well_formed fs ->
  List.NoDup (handed_out config calls fs ++ queued (run_calls config calls fs))
  /\ well_formed (run_calls config calls fs).
Proof.
  intros (Hkeys & Hnd & Hseen).
  destruct (handed_and_queued_run config calls fs [] Hkeys Hnd Hseen)
    as (Hkeys' & Hnd' & Hseen').
  simpl in Hnd', Hseen'. split; [exact Hnd' |].
  split; [exact Hkeys' |]. split.
  - eapply NoDup_app_remove_l. exact Hnd'.
  - intros url Hin. apply Hseen'. apply in_or_app. now right.
Qed.

(** ** Each host's queue is first in, first out *)

Lemma queue_of_put (fs fs' : Frontier.State) (domain url d : string) :
  domain_queues fs' = put (domain_queues fs) domain url ->
  queue_of fs' d
  = if String.eqb domain d then (queue_of fs d ++ [url])%list else queue_of fs d.
Proof.
  unfold queue_of. intros ->.
  induction (domain_queues fs) as [| [k q] r IH]; simpl.
  - rewrite String.eqb_sym. destruct (String.eqb d domain); reflexivity.
  - destruct (String.eqb_spec k domain) as [-> | Hne]; simpl.
    + destruct (String.eqb domain d); reflexivity.
    + destruct (String.eqb_spec k d) as [-> | Hkd].
      * destruct (String.eqb_spec domain d); [congruence | reflexivity].
      * exact IH.
Qed.

Lemma queue_of_get_nowait (fs fs' : Frontier.State) (domain d : string) :
  domain_queues fs' = get_nowait (domain_queues fs) domain ->
  queue_of fs' d = if String.eqb domain d then tail (queue_of fs d) else queue_of fs d.
Proof.
  unfold queue_of. intros ->.
  induction (domain_queues fs) as [| [k q] r IH]; simpl.
  - destruct (String.eqb domain d); reflexivity.
  - destruct (String.eqb_spec k domain) as [-> | Hne]; simpl.
    + destruct (String.eqb domain d); reflexivity.
    + destruct (String.eqb_spec k d) as [-> | Hkd].
      * destruct (String.eqb_spec domain d); [congruence | reflexivity].
      * exact IH.
Qed.

Lemma queue_of_entry (fs : Frontier.State) (domain : string) (q : list string) :
  List.NoDup (map fst (domain_queues fs)) ->
  In (domain, q) (domain_queues fs) -> queue_of fs domain = q.
Proof.
  unfold queue_of.
  induction (domain_queues fs) as [| [k q'] r IH]; intros Hnd Hin; [contradiction |].
  simpl in Hnd. apply NoDup_cons_iff in Hnd as [Hk Hnd]. simpl.
  destruct (String.eqb_spec k domain) as [-> | Hne].
  - destruct Hin as [Heq | Hin]; [now injection Heq as -> |].
    exfalso. apply Hk. change domain with (fst (domain, q)). now apply in_map.
  - destruct Hin as [Heq | Hin]; [congruence | now apply IH].
Qed.

(** X2.  With one queue per host, each queue is first in, first out: a
    URL that [get_tbd_url] hands out was the head of its host's queue,
    that queue is left with what followed it, and no other queue
    changes; [add_url] leaves every queue as it was or puts the
    normalized URL at the tail of one; [mark_url_complete] changes no
    queue. *)
Theorem host_queues_fifo (config : Config) (fs : Frontier.State) :
  List.NoDup (map fst (domain_queues fs)) ->
  (forall (now : Q) (url : string) (fs' : Frontier.State),
      get_tbd_url config now fs = (Some url, fs') ->
      exists h,
        queue_of fs h = url :: queue_of fs' h
        /\ forall h', h' <> h -> queue_of fs' h' = queue_of fs h')
  /\ (forall url d,
        queue_of (snd (add_url url fs)) d = queue_of fs d
        \/ queue_of (snd (add_url url fs)) d = (queue_of fs d ++ [normalize url])%list)
  /\ (forall url d, queue_of (snd (mark_url_complete url fs)) d = queue_of fs d).
Proof.
  intros Hkeys. split; [| split].
  - intros now url fs' Hget.
    destruct (get_tbd_url_effect _ _ _ _ _ Hget) as (h & q & Hin & Hq & _).
    exists h. split.
    + rewrite (queue_of_get_nowait fs fs' h h Hq), String.eqb_refl.
      now rewrite (queue_of_entry fs h (url :: q) Hkeys Hin).
    + intros h' Hne. rewrite (queue_of_get_nowait fs fs' h h' Hq).
      destruct (String.eqb_spec h h'); [congruence | reflexivity].
  - intros url d.
    destruct (add_url_effect url fs) as [-> | (key & _ & _ & _ & Hq & _)]; [now left |].
    rewrite (queue_of_put fs _ _ _ d Hq).
    destruct (String.eqb _ d); [now right | now left].
  - intros url d. unfold queue_of.
    now rewrite (proj1 (mark_url_complete_effect url fs)).
Qed.

(** ** When [get_tbd_url] answers *)

Lemma filter_nil_iff {A} (f : A -> bool) (l : list A) :
  List.filter f l = [] <-> forall x, In x l -> f x = false.
Proof.
  induction l as [| a r IH]; simpl.
  - split; [intros _ x [] | reflexivity].
  - destruct (f a) eqn:Hfa.
    + split; [discriminate |]. intros Hall. specialize (Hall a (or_introl eq_refl)). congruence.
    + rewrite IH. split.
      * intros Hall x [<- | Hx]; [exact Hfa | now apply Hall].
      * intros Hall x Hx. apply Hall. now right.
Qed.

Lemma ready_host_served (config : Config) (now : Q) (fs : Frontier.State)
      (d u : string) (q : list string) :
  In (d, u :: q) (domain_queues fs) ->
  (time_delay config <= now - last_time fs d)%Q ->
  exists url, fst (get_tbd_url config now fs) = Some url.
Proof.
  intros Hin Hready. unfold get_tbd_url.
  destruct (ready_domains config now fs) as [| [d' [| u' q']] rest] eqn:Hr.
  - exfalso. unfold ready_domains in Hr.
    pose proof (proj1 (filter_nil_iff _ _) Hr (d, u :: q) Hin) as Hf.
    simpl in Hf. apply Qle_bool_iff in Hready. congruence.
  - apply filter_head in Hr as [Hok _]. discriminate.
  - now exists u'.
Qed.

(** X3.  [get_tbd_url] hands out a URL exactly when some host has a
    non-empty queue and its last access lies at least [time_delay] back
    (a host never accessed counts from 0); when it returns [None] the
    frontier is left as it was. *)
Theorem get_tbd_url_answers (config : Config) (now : Q) (fs : Frontier.State) :
  ((exists url, fst (get_tbd_url config now fs) = Some url)
   <-> (exists d u q,
          In (d, u :: q) (domain_queues fs)
          /\ (time_delay config <= now - last_time fs d)%Q))
  /\ (fst (get_tbd_url config now fs) = None
      <-> get_tbd_url config now fs = (None, fs)).
Proof.
  split.
  - split.
    + intros [url Hurl].
      destruct (get_tbd_url config now fs) as [r fs'] eqn:Hget. simpl in Hurl. subst r.
      destruct (get_tbd_url_some _ _ _ _ _ Hget) as (h & q & _ & Hin & Hready & _).
      now exists h, url, q.
    + intros (d & u & q & Hin & Hready). now apply (ready_host_served config now fs d u q).
  - split.
    + intros Hn. pose proof (get_tbd_url_none config now fs Hn) as Hs.
      destruct (get_tbd_url config now fs) as [r fs']. simpl in *. congruence.
    + now intros ->.
Qed.

Lemma total_tbd_count_fold (queues : list (string * list string)) (acc : Z) :
  fold_left (fun count dq => count + Z.of_nat (length (snd dq))) queues acc
  = acc + Z.of_nat (length (flat_map snd queues)).
Proof.
  revert acc. induction queues as [| [d q] r IH]; intros acc; simpl; [lia |].
  rewrite IH, length_app. lia.
Qed.

Lemma total_tbd_count_queued (fs : Frontier.State) :
  _get_total_tbd_count fs = Z.of_nat (length (queued fs)).
Proof. unfold _get_total_tbd_count, queued. now rewrite total_tbd_count_fold. Qed.

Lemma nothing_queued_nothing_served (config : Config) (now : Q) (fs : Frontier.State) :
  queued fs = [] -> fst (get_tbd_url config now fs) = None.
Proof.
  intros Hq.
  destruct (get_tbd_url config now fs) as [[url |] fs'] eqn:Hget; [| reflexivity].
  exfalso.
  destruct (get_tbd_url_some _ _ _ _ _ Hget) as (h & q & _ & Hin & _).
  assert (In url (queued fs)) as Hu.
  { unfold queued. apply in_flat_map. exists (h, url :: q). split; [exact Hin | now left]. }
  rewrite Hq in Hu. contradiction.
Qed.

(** X4.  [_get_total_tbd_count] is the number of queued URLs, and it is 0
    exactly when [get_tbd_url] returns [None] at every reading of the
    clock: the worker's test [total_remaining == 0] says that, without
    new URLs, nothing will ever be handed out. *)
Theorem total_tbd_count_zero (config : Config) (fs : Frontier.State) :
  _get_total_tbd_count fs = Z.of_nat (length (queued fs))
  /\ (_get_total_tbd_count fs = 0
      <-> forall now : Q, fst (get_tbd_url config now fs) = None).
Proof.
  split; [apply total_tbd_count_queued |]. rewrite total_tbd_count_queued. split.
  - intros Hzero now. apply nothing_queued_nothing_served.
    destruct (queued fs); [reflexivity | simpl in Hzero; lia].
  - intros Hnone.
    destruct (queued fs) as [| u rest] eqn:Hq; [reflexivity |]. exfalso.
    assert (In u (queued fs)) as Hu by (rewrite Hq; now left).
    unfold queued in Hu. apply in_flat_map in Hu as [[d q] [Hin Huq]]. simpl in Huq.
    destruct q as [| u0 q0]; [contradiction |].
    specialize (Hnone (last_time fs d + time_delay config)%Q).
    destruct (ready_host_served config (last_time fs d + time_delay config) fs d u0 q0 Hin)
      as [url Hsome]; [lra | congruence].
Qed.

(** ** The save file over a run *)

Lemma shelf_has_set (s : shelf) (key : string) (value : string * bool) (k : string) :
  shelf_has (shelf_set s key value) k = shelf_has s k || String.eqb key k.
Proof.
  unfold shelf_has. induction s as [| [k' v] r IH]; simpl.
  - now rewrite orb_false_r.
  - destruct (String.eqb_spec k' key) as [-> | Hne]; simpl.
    + destruct (String.eqb key k); [reflexivity | now rewrite orb_false_r].
    + rewrite IH. now rewrite orb_assoc.
Qed.

Lemma shelf_get_set (s : shelf) (key : string) (value : string * bool) (k : string) :
  shelf_get (shelf_set s key value) k
  = if String.eqb key k then Some value else shelf_get s k.
Proof.
  unfold shelf_get. induction s as [| [k' v] r IH]; simpl.
  - destruct (String.eqb key k); reflexivity.
  - destruct (String.eqb_spec k' key) as [-> | Hne]; simpl.
    + destruct (String.eqb key k); reflexivity.
    + destruct (String.eqb_spec k' k) as [-> | Hk].
      * destruct (String.eqb_spec key k); [congruence | reflexivity].
      * exact IH.
Qed.

Lemma shelf_get_has (s : shelf) (k : string) :
  shelf_has s k = true <-> exists v, shelf_get s k = Some v.
Proof.
  unfold shelf_has, shelf_get. induction s as [| [k' v] r IH]; simpl.
  - split; [discriminate | intros [v Hv]; discriminate].
  - destruct (String.eqb k' k); simpl; [| exact IH].
    split; [intros _; now exists v | reflexivity].
Qed.

(** Keys are never taken out of the save file. *)
Lemma step_keeps_keys (config : Config) (c : call) (fs : Frontier.State) (k : string) :
  shelf_has (save fs) k = true -> shelf_has (save (step config c fs)) k = true.
Proof.
  intros Hk. destruct c as [now | url | url]; simpl.
  - destruct (fst (get_tbd_url config now fs)) as [u |] eqn:Hget.
    + destruct (get_tbd_url config now fs) as [r fs'] eqn:Hrun. simpl in Hget. subst r.
      destruct (get_tbd_url_effect _ _ _ _ _ Hrun) as (h & q & _ & _ & _ & Hs).
      simpl. now rewrite Hs.
    + now rewrite (get_tbd_url_none config now fs Hget).
  - destruct (add_url_effect url fs) as [-> | (key & _ & _ & _ & _ & _ & Hs)]; [exact Hk |].
    rewrite Hs, shelf_has_set, Hk. reflexivity.
  - unfold mark_url_complete. destruct (get_urlhash url); [| exact Hk].
    cbn [snd save set_save]. rewrite shelf_has_set, Hk. reflexivity.
Qed.

Lemma persisted_step (config : Config) (c : call) (fs : Frontier.State) :
  persisted fs -> persisted (step config c fs).
Proof.
  intros Hp url Hin.
  assert (forall u, u ∈ urls_seen fs ->
            exists key, get_urlhash u = Ok key
                        /\ shelf_has (save (step config c fs)) key = true) as Hold.
  { intros u Hu. destruct (Hp u Hu) as (key & Hh & Hk).
    exists key. split; [exact Hh | now apply step_keeps_keys]. }
  destruct c as [now | u | u]; simpl in *.
  - apply Hold.
    destruct (fst (get_tbd_url config now fs)) as [x |] eqn:Hget.
    + destruct (get_tbd_url config now fs) as [r fs'] eqn:Hrun. simpl in Hget. subst r.
      destruct (get_tbd_url_effect _ _ _ _ _ Hrun) as (h & q & _ & _ & Hs & _).
      simpl in Hin. now rewrite Hs in Hin.
    + now rewrite (get_tbd_url_none config now fs Hget) in Hin.
  - destruct (add_url_effect u fs) as [Heq | (key & Hh & _ & _ & _ & Hs & Hsave)].
    + apply Hold. now rewrite Heq in Hin.
    + rewrite Hs in Hin. apply elem_of_union in Hin as [Hin | Hin].
      * apply elem_of_singleton in Hin. subst url.
        exists key. split; [exact Hh |].
        rewrite Hsave, shelf_has_set, String.eqb_refl. now rewrite orb_true_r.
      * now apply Hold.
  - apply Hold. now rewrite (proj2 (mark_url_complete_effect u fs)) in Hin.
Qed.

(** X5.  Where every URL of [urls_seen] is in the save file (as after
    [__init__] set the attributes), this stays so over any sequence of
    calls, and when [add_url(url)] returns, the hash of the normalized
    URL is a key of the save file: a URL is on disk before it is in a
    queue. *)
Theorem seen_urls_persisted (config : Config) (calls : list call) (fs : Frontier.State) :
  persisted fs ->
  persisted (run_calls config calls fs)
  /\ (forall url,
        let fs1 := run_calls config calls fs in
        fst (add_url url fs1) = Ok tt ->
        exists key,
          get_urlhash (normalize url) = Ok key
          /\ shelf_has (save (snd (add_url url fs1))) key = true).
Proof.
  intros Hp.
  assert (persisted (run_calls config calls fs)) as Hrun.
  { unfold run_calls. revert fs Hp.
    induction calls as [| c rest IH]; intros fs Hp; simpl; [exact Hp |].
    apply IH. now apply persisted_step. }
  split; [exact Hrun |]. intros url fs1 Hok. subst fs1.
  set (fs1 := run_calls config calls fs) in *.
  unfold add_url in *.
  destruct (get_urlhash (normalize url)) as [key | e] eqn:Hh; [| discriminate].
  exists key. split; [reflexivity |].
  destruct (decide (normalize url ∈ urls_seen fs1)) as [Hin | Hnotin].
  - destruct (Hrun _ Hin) as (key' & Hh' & Hk'). cbn [snd]. congruence.
  - destruct (shelf_has (save fs1) key) eqn:Hs; cbn [negb snd]; [exact Hs |].
    cbn [save set_urls_seen _add_to_domain_queue set_domain_queues set_save].
    rewrite shelf_has_set, String.eqb_refl. now rewrite orb_true_r.
Qed.

Lemma completed_step (config : Config) (c : call) (fs : Frontier.State)
      (url key : string) :
  get_urlhash url = Ok key ->
  (exists u, shelf_get (save fs) key = Some (u, true)) ->
  ~ In url (queued fs) ->
  (exists u, shelf_get (save (step config c fs)) key = Some (u, true))
  /\ ~ In url (queued (step config c fs)).
Proof.
  intros Hh [u0 Hdone] Hnq. destruct c as [now | x | x]; simpl.
  - destruct (fst (get_tbd_url config now fs)) as [y |] eqn:Hget.
    + destruct (get_tbd_url config now fs) as [r fs'] eqn:Hrun. simpl in Hget. subst r.
      destruct (get_tbd_url_effect _ _ _ _ _ Hrun) as (h & q & Hin & Hq & _ & Hs).
      simpl. rewrite Hs. split; [now exists u0 |].
      intros Hin'. apply Hnq. unfold queued in *. rewrite Hq in Hin'.
      apply in_flat_map in Hin' as [[d l] [Hd Hl]].
      apply in_flat_map.
      clear - Hd Hl. induction (domain_queues fs) as [| [k q'] r IH]; [contradiction |].
      simpl in Hd. destruct (String.eqb k h).
      * destruct Hd as [Heq | Hd].
        -- injection Heq as <- <-. exists (k, q'). split; [now left |].
           destruct q'; [contradiction | now right].
        -- exists (d, l). split; [now right | exact Hl].
      * destruct Hd as [Heq | Hd].
        -- exists (d, l). split; [now left | exact Hl].
        -- destruct (IH Hd) as [e [He1 He2]]. exists e. split; [now right | exact He2].
    + rewrite (get_tbd_url_none config now fs Hget). split; [now exists u0 | exact Hnq].
  - destruct (add_url_effect x fs) as [-> | (k & Hk & _ & Hfree & Hq & _ & Hs)];
      [split; [now exists u0 | exact Hnq] |].
    assert (shelf_has (save fs) key = true) as Hkey
      by (apply shelf_get_has; now exists (u0, true)).
    split.
    + rewrite Hs, shelf_get_set.
      destruct (String.eqb_spec k key) as [-> | _]; [congruence | now exists u0].
    + unfold queued. rewrite Hq. intros Hin.
      eapply Permutation_in in Hin; [| apply queued_put].
      apply in_app_or in Hin as [Hin | [Heq | []]]; [now apply Hnq |].
      rewrite Heq in Hk. congruence.
  - destruct (mark_url_complete_effect x fs) as [Hq _].
    split; [| unfold queued; now rewrite Hq].
    unfold mark_url_complete. destruct (get_urlhash x) as [k |]; [| now exists u0].
    cbn [snd save set_save]. rewrite shelf_get_set.
    destruct (String.eqb k key); [now exists x | now exists u0].
Qed.

(** X6.  A completed URL stays completed and is never enqueued again:
    once the save file has [completed = True] under the hash of a URL
    that is in no queue, then after any sequence of calls the entry
    under that hash still has [completed = True] and the URL is in no
    queue.  This also holds of a URL that was marked complete without
    ever having been added. *)
Theorem completed_is_final (config : Config) (calls : list call) (fs : Frontier.State)
    (url key : string) :
  get_urlhash url = Ok key ->
  (exists u, shelf_get (save fs) key = Some (u, true)) ->
  ~ In url (queued fs) ->
  (exists u, shelf_get (save (run_calls config calls fs)) key = Some (u, true))
  /\ ~ In url (queued (run_calls config calls fs)).
Proof.
  intros Hh. unfold run_calls. revert fs.
  induction calls as [| c rest IH]; intros fs Hdone Hnq; simpl; [split; assumption |].
  destruct (completed_step config c fs url key Hh Hdone Hnq) as [Hdone' Hnq'].
  now apply IH.
Qed.

(** ** One pass of the worker *)

Lemma add_scraped_run (config : Config) (scraped_urls : list string) (fs : Frontier.State) :
  Worker.add_scraped scraped_urls fs = run_calls config (map AddUrl scraped_urls) fs.
Proof.
  unfold Worker.add_scraped, run_calls. revert fs.
  induction scraped_urls as [| u rest IH]; intros fs; simpl; [reflexivity | apply IH].
Qed.

Lemma handed_out_add_only (config : Config) (urls : list string) :
  forall fs : Frontier.State, handed_out config (map AddUrl urls) fs = [].
Proof. induction urls as [| u rest IH]; intros fs; simpl; [reflexivity | apply IH]. Qed.

(** What [process] leaves of a frontier in which the URL is in
    [urls_seen] and in no queue. *)
Lemma process_completes (config : Config)
      (download : string -> result (option Scraper.Response))
      (url key : string) (fs : Frontier.State) (st : Scraper.State) :
  get_urlhash url = Ok key ->
  List.NoDup (map fst (domain_queues fs)) ->
  List.NoDup (url :: queued fs) ->
  (forall u, In u (url :: queued fs) -> u ∈ urls_seen fs) ->
  let fs' := fst (Worker.process download url fs st) in
  shelf_get (save fs') key = Some (url, true)
  /\ ~ In url (queued fs')
  /\ well_formed fs'.
Proof.
  intros Hh Hkeys Hnd Hseen. cbv zeta.
  assert (forall fs0 : Frontier.State,
            List.NoDup (map fst (domain_queues fs0)) ->
            List.NoDup (url :: queued fs0) ->
            (forall u, In u (url :: queued fs0) -> u ∈ urls_seen fs0) ->
            let fs' := snd (mark_url_complete url fs0) in
            shelf_get (save fs') key = Some (url, true)
            /\ ~ In url (queued fs') /\ well_formed fs') as Hmark.
  { intros fs0 Hk0 Hn0 Hs0. cbv zeta.
    destruct (mark_url_complete_effect url fs0) as [Hq Hs].
    unfold well_formed, queued. rewrite Hq, Hs. fold (queued fs0).
    apply NoDup_cons_iff in Hn0 as [Hnot Hn0].
    split; [| split; [exact Hnot | split; [exact Hk0 | split; [exact Hn0 |]]]].
    - unfold mark_url_complete. rewrite Hh. cbn [snd save set_save].
      now rewrite shelf_get_set, String.eqb_refl.
    - intros u Hu. apply Hs0. now right. }
  unfold Worker.process.
  destruct (download url) as [[resp |] | e]; cbn [fst]; try (now apply Hmark).
  destruct (Scraper.scraper url (Some resp) st) as [scraped st']. cbn [fst].
  rewrite (add_scraped_run config).
  destruct (handed_and_queued_run config
              (map AddUrl match scraped with Ok urls => urls | Raise _ => [] end)
              fs [url] Hkeys Hnd Hseen) as (Hk1 & Hn1 & Hs1).
  rewrite handed_out_add_only in Hn1, Hs1. simpl in Hn1, Hs1.
  now apply Hmark.
Qed.

(** X7.  A pass of the worker's loop that gets a URL from a well-formed
    frontier leaves the URL marked complete in the save file and in no
    queue, and the frontier well-formed, whatever [download] returns or
    raises and whatever the scraper returns; the loop goes on, with the
    count of empty polls back at 0. *)
Theorem worker_completes_url (config : Config) (t_get t_idle t_got : Q)
    (download : string -> result (option Scraper.Response))
    (w : Worker.Local) (fs fs1 : Frontier.State) (st : Scraper.State)
    (url key : string) :
  well_formed fs ->
  get_tbd_url config t_get fs = (Some url, fs1) ->
  url <> "" ->
  get_urlhash url = Ok key ->
  let pass := Worker.iteration config t_get t_idle t_got download w fs st in
  let fs' := snd (fst pass) in
  fst (fst (fst pass)) = Worker.Continue
  /\ Worker.consecutive_none_count (snd (fst (fst pass))) = 0
  /\ shelf_get (save fs') key = Some (url, true)
  /\ ~ In url (queued fs')
  /\ well_formed fs'.
Proof.
  intros (Hkeys & Hnd & Hseen) Hget Hne Hh. cbv zeta.
  destruct (handed_and_queued_step config (GetTbdUrl t_get) fs [] Hkeys Hnd Hseen)
    as (Hk1 & Hn1 & Hs1).
  simpl in Hk1, Hn1, Hs1. rewrite Hget in Hk1, Hn1, Hs1. simpl in Hk1, Hn1, Hs1.
  pose proof (process_completes config download url key fs1 st Hh Hk1 Hn1 Hs1) as Hproc.
  cbv zeta in Hproc.
  unfold Worker.iteration. rewrite Hget.
  destruct url as [| c r]; [congruence |].
  destruct (Worker.process download (String c r) fs1 st) as [fs' st'].
  cbn [fst snd Worker.consecutive_none_count] in *.
  split; [reflexivity |]. split; [reflexivity | exact Hproc].
Qed.


End FrontierInvariants.

(* ===================================================================== *)
(** * The duplicate detector: fingerprints, distances, exact repeats      *)
(* ===================================================================== *)

Section DuplicateDetector.
Context `{PyLib}.
Import Scraper.

Lemma popcount_pos_bounds (p : positive) :
  1 <= popcount_pos p <= Z.pos (Pos.size p).
Proof. induction p as [q IH | q IH |]; simpl; lia. Qed.

Lemma count_ones_zero (x : Z) : count_ones x = 0 <-> x = 0.
Proof.
  destruct x as [| p | p]; simpl; [tauto | |];
    pose proof (popcount_pos_bounds p); split; (lia || discriminate).
Qed.

Lemma log2_pos_size (p : positive) : Z.log2 (Z.pos p) = Z.pos (Pos.size p) - 1.
Proof. destruct p; simpl; lia. Qed.

Lemma count_ones_64 (x : Z) : 0 <= x -> Z.log2 x < 64 -> 0 <= count_ones x <= 64.
Proof.
  intros Hx Hlog. destruct x as [| p | p]; simpl; [lia | | lia].
  pose proof (popcount_pos_bounds p). rewrite log2_pos_size in Hlog. lia.
Qed.

(** X9.  The Hamming distance is symmetric, never negative, and 0
    exactly between equal values. *)
Theorem hamming_distance_metric (hash1 hash2 : Z) :
  hamming_distance hash1 hash2 = hamming_distance hash2 hash1
  /\ 0 <= hamming_distance hash1 hash2
  /\ (hamming_distance hash1 hash2 = 0 <-> hash1 = hash2).
Proof.
  unfold hamming_distance. split; [now rewrite Z.lxor_comm |]. split.
  - destruct (Z.lxor hash1 hash2) as [| p | p]; simpl; [lia | |];
      pose proof (popcount_pos_bounds p); lia.
  - rewrite count_ones_zero. apply Z.lxor_eq_0_iff.
Qed.

Lemma mask64_fits (z : Z) : 0 <= mask64 z /\ Z.log2 (mask64 z) < 64.
Proof.
  unfold mask64. rewrite Z.land_ones by lia.
  pose proof (Z.mod_pos_bound z (2 ^ 64) ltac:(lia)) as Hb.
  split; [lia |].
  destruct (Z.eq_dec (z mod 2 ^ 64) 0) as [-> | Hne]; [simpl; lia |].
  apply Z.log2_lt_pow2; lia.
Qed.

Lemma vote_length (vector : list Z) (h : Z) : length (vote vector h) = length vector.
Proof. unfold vote. apply length_imap. Qed.

Lemma votes_length (shingles : list string) :
  forall vector : list Z,
    length (fold_left (fun v sh => vote v (mask64 (py_hash sh))) shingles vector)
    = length vector.
Proof.
  induction shingles as [| sh rest IH]; intros vector; simpl; [reflexivity |].
  now rewrite IH, vote_length.
Qed.

Lemma fingerprint_fold_fits (pairs : list (nat * Z)) :
  forall fp : Z,
    (forall iv, In iv pairs -> (fst iv < 64)%nat) ->
    0 <= fp -> Z.log2 fp < 64 ->
    let fp' := fold_left (fun fp iv => if 0 <? snd iv
                                       then Z.lor fp (Z.shiftl 1 (Z.of_nat (fst iv)))
                                       else fp) pairs fp in
    0 <= fp' /\ Z.log2 fp' < 64.
Proof.
  induction pairs as [| [i v] rest IH]; intros fp Hidx Hfp Hlog; cbv zeta; simpl.
  - split; assumption.
  - apply IH.
    + intros iv Hin. apply Hidx. now right.
    + destruct (0 <? v); [| exact Hfp].
      apply Z.lor_nonneg. split; [exact Hfp |]. apply Z.shiftl_nonneg. lia.
    + destruct (0 <? v); [| exact Hlog].
      assert (i < 64)%nat as Hi by (apply (Hidx (i, v)); now left).
      rewrite Z.log2_lor; [| exact Hfp | apply Z.shiftl_nonneg; lia].
      rewrite Z.shiftl_1_l, Z.log2_pow2 by lia. lia.
Qed.

Lemma fingerprint_fits (vector : list Z) :
  length vector = 64%nat ->
  0 <= fingerprint_of vector /\ Z.log2 (fingerprint_of vector) < 64.
Proof.
  intros Hlen. unfold fingerprint_of.
  apply fingerprint_fold_fits; [| lia | simpl; lia].
  intros [i v] Hin. apply in_combine_l in Hin. apply in_seq in Hin. simpl. lia.
Qed.

Lemma compute_simhash_fits (text : string) :
  0 <= compute_simhash text /\ Z.log2 (compute_simhash text) < 64.
Proof.
  unfold compute_simhash.
  destruct (length (Py.split_ws text) <? 3)%nat; [apply mask64_fits |].
  destruct (shingles_of (Py.split_ws text)) as [| sh rest] eqn:Hsh; [simpl; lia |].
  apply fingerprint_fits. rewrite votes_length. apply repeat_length.
Qed.

(** X10.  Whatever the text and whatever [hash] returns, the fingerprint
    that [compute_simhash] returns is a 64-bit value, at least 0 and
    below 2^64; so the Hamming distance of two fingerprints is at most
    64. *)
Theorem compute_simhash_is_64_bit (text1 text2 : string) :
  0 <= compute_simhash text1 < 2 ^ 64
  /\ 0 <= hamming_distance (compute_simhash text1) (compute_simhash text2) <= 64.
Proof.
  destruct (compute_simhash_fits text1) as [H1 L1].
  destruct (compute_simhash_fits text2) as [H2 L2].
  split.
  - split; [exact H1 |].
    destruct (Z.eq_dec (compute_simhash text1) 0) as [-> | Hne]; [lia |].
    apply Z.log2_lt_pow2; lia.
  - unfold hamming_distance. apply count_ones_64.
    + now apply Z.lxor_nonneg.
    + pose proof (Z.log2_lxor _ _ H1 H2). lia.
Qed.

(** ** Exact repeats *)

Lemma is_duplicate_exact_grows (text url : string) (st : State) :
  forall h, h ∈ seen_exact_hashes st -> h ∈ seen_exact_hashes (snd (is_duplicate text url st)).
Proof.
  intros h Hin. unfold is_duplicate.
  destruct (Py.is_empty text || (Py.len (Py.strip text) <? 100)); [exact Hin |].
  unfold bind, gets, modify, ret; simpl.
  destruct (decide (md5_hex text ∈ seen_exact_hashes st)); simpl; [exact Hin |].
  destruct (existsb _ (seen_simhashes st)); simpl; apply elem_of_union; now right.
Qed.

Lemma is_duplicate_all_exact_grows (calls : list (string * string)) :
  forall (st : State) (h : string),
    h ∈ seen_exact_hashes st -> h ∈ seen_exact_hashes (is_duplicate_all calls st).
Proof.
  induction calls as [| [text url] rest IH]; intros st h Hin; simpl; [exact Hin |].
  apply IH. now apply is_duplicate_exact_grows.
Qed.

Lemma long_text_not_empty (text : string) :
  100 <= Py.len (Py.strip text) ->
  Py.is_empty text || (Py.len (Py.strip text) <? 100) = false.
Proof.
  intros Hlen. destruct text as [| c r]; [vm_compute in Hlen; contradiction |].
  simpl. apply Z.ltb_ge. exact Hlen.
Qed.

Lemma is_duplicate_records_hash (text url : string) (st : State) :
  100 <= Py.len (Py.strip text) ->
  md5_hex text ∈ seen_exact_hashes (snd (is_duplicate text url st)).
Proof.
  intros Hlen. unfold is_duplicate. rewrite (long_text_not_empty text Hlen).
  unfold bind, gets, modify, ret; simpl.
  destruct (decide (md5_hex text ∈ seen_exact_hashes st)) as [Hin | Hnotin]; simpl;
    [exact Hin |].
  destruct (existsb _ (seen_simhashes st)); simpl; apply elem_of_union; left;
    now apply elem_of_singleton.
Qed.

(** X11.  A text of at least 100 characters (white space at the ends not
    counted) that went through [is_duplicate] once is an exact duplicate
    ever after: whatever the first call answered and whatever texts were
    checked in between, a later call on a text with the same MD5 digest
    answers [(True, 'exact')], counts one more duplicate, and leaves the
    set of digests and the SimHash ring as they are. *)
Theorem exact_duplicate_is_remembered
    (text url : string) (calls : list (string * string)) (text' url' : string)
    (st : State) :
  100 <= Py.len (Py.strip text) ->
  100 <= Py.len (Py.strip text') ->
  md5_hex text' = md5_hex text ->
  let st1 := is_duplicate_all calls (snd (is_duplicate text url st)) in
  fst (is_duplicate text' url' st1) = Ok (true, Some "exact")
  /\ duplicates_found (snd (is_duplicate text' url' st1)) = duplicates_found st1 + 1
  /\ seen_exact_hashes (snd (is_duplicate text' url' st1)) = seen_exact_hashes st1
  /\ seen_simhashes (snd (is_duplicate text' url' st1)) = seen_simhashes st1.
Proof.
  intros Hlen Hlen' Hmd5 st1.
  assert (md5_hex text' ∈ seen_exact_hashes st1) as Hin.
  { rewrite Hmd5. apply is_duplicate_all_exact_grows. now apply is_duplicate_records_hash. }
  unfold is_duplicate. rewrite (long_text_not_empty text' Hlen').
  unfold bind, gets, modify, ret; simpl.
  destruct (decide (md5_hex text' ∈ seen_exact_hashes st1)); [| contradiction].
  simpl. repeat split.
Qed.

End DuplicateDetector.

(* ===================================================================== *)
(** * Computations that move along a relation                             *)
(* ===================================================================== *)

Section ComputationOrder.
Import Scraper.
Context (R : State -> State -> Prop).
Hypothesis R_refl : forall st, R st st.
Hypothesis R_trans : forall st1 st2 st3, R st1 st2 -> R st2 st3 -> R st1 st3.

Lemma along_ret {A} (a : A) : along R (ret a).
Proof. intros st. apply R_refl. Qed.

Lemma along_gets {A} (f : State -> A) : along R (gets f).
Proof. intros st. apply R_refl. Qed.

Lemma along_lift {A} (r : result A) : along R (lift r).
Proof. intros st. apply R_refl. Qed.

Lemma along_modify (f : State -> State) :
  (forall st, R st (f st)) -> along R (modify f).
Proof. intros Hf st. apply Hf. Qed.

Lemma along_bind {A B} (m : M A) (f : A -> M B) :
  along R m -> (forall a, along R (f a)) -> along R (bind m f).
Proof.
  intros Hm Hf st. unfold bind.
  pose proof (Hm st) as Hs. destruct (m st) as [[a | e] st']; simpl in *.
  - apply (R_trans _ _ _ Hs). apply Hf.
  - exact Hs.
Qed.

Lemma along_try_except {A} (m : M A) (h : exc -> M A) :
  along R m -> (forall e, along R (h e)) -> along R (try_except m h).
Proof.
  intros Hm Hh st. unfold try_except.
  pose proof (Hm st) as Hs. destruct (m st) as [[a | e] st']; simpl in *.
  - exact Hs.
  - apply (R_trans _ _ _ Hs). apply Hh.
Qed.

End ComputationOrder.

(** One step of a walk through a computation that moves along a
    relation whose reflexivity and transitivity are at hand. *)
Ltac along_step refl trans :=
  first
    [ apply (along_ret _ refl)
    | apply (along_gets _ refl)
    | apply (along_lift _ refl)
    | apply (along_bind _ trans); [| intros ?]
    | apply (along_try_except _ trans); [| intros ?]
    | match goal with
      | |- Scraper.along _ (if ?c then _ else _) => destruct c eqn:?
      | |- Scraper.along _ (match ?x with _ => _ end) => destruct x eqn:?
      end ].


(* ===================================================================== *)
(** * What the admission filter accepts, and how often                    *)
(* ===================================================================== *)

Section AdmissionCounters.
Context `{PyLib}.
Import Scraper.

Lemma counters_grow_refl (st : State) : counters_grow st st.
Proof. split; intros ?; intros; lia. Qed.

Lemma counters_grow_trans (st1 st2 st3 : State) :
  counters_grow st1 st2 -> counters_grow st2 st3 -> counters_grow st1 st3.
Proof.
  intros [Ha Hb] [Hc Hd]. split.
  - intros k. specialize (Ha k). specialize (Hc k). lia.
  - intros h p. specialize (Hb h p). specialize (Hd h p). lia.
Qed.

Lemma count_of_bump (c : gmap string Z) (k k' : string) :
  count_of c k' <= count_of (<[k := count_of c k + 1]> c) k'.
Proof.
  unfold count_of. destruct (decide (k = k')) as [-> | Hne].
  - rewrite lookup_insert_eq. simpl. lia.
  - rewrite lookup_insert_ne by exact Hne. lia.
Qed.

Lemma is_url_trap_grows (url : string) : along counters_grow (is_url_trap url).
Proof.
  unfold is_url_trap. cbv zeta.
  repeat along_step counters_grow_refl counters_grow_trans;
    apply along_modify; intros st; split; cbn; try (intros ?; intros; lia).
  - intros k. apply count_of_bump.
  - intros host pth.
    destruct (decide (Url.netloc a = host)) as [-> | Hne].
    + rewrite lookup_insert_eq. cbn. apply count_of_bump.
    + rewrite lookup_insert_ne by exact Hne. lia.
Qed.

Lemma log_rejection_grows (reason url : string) (b : bool) :
  along counters_grow (log_rejection reason url b).
Proof.
  intros st. unfold counters_grow.
  rewrite (log_rejection_preserves url_pattern_counter reason url b) by reflexivity.
  rewrite (log_rejection_preserves domain_path_counter reason url b) by reflexivity.
  apply counters_grow_refl.
Qed.

Lemma is_valid_grows (url : string) : along counters_grow (is_valid url).
Proof.
  unfold is_valid, is_valid_body, reject. cbv zeta.
  repeat first
    [ apply is_url_trap_grows
    | apply log_rejection_grows
    | along_step counters_grow_refl counters_grow_trans ].
Qed.

(** How [is_valid] comes to answer [True]: the URL parses, passes the six
    checks that read the URL alone, the trap detector answers [False],
    and nothing is written after that. *)
Lemma is_valid_true (url : string) (st st' : State) :
  is_valid url st = (Ok true, st') ->
  exists parsed,
    Url.urlparse url = Ok parsed
    /\ Py.mem (Url.scheme parsed) ["http"; "https"] = true
    /\ host_in (Py.lower (Url.netloc parsed)) VALID_DOMAINS = true
    /\ (MAX_URL_LENGTH <? Py.len url) = false
    /\ is_calendar_or_event url = false
    /\ is_known_trap url = false
    /\ is_url_trap url st = (Ok false, st').
Proof.
  unfold is_valid, try_except, is_valid_body. unfold bind at 1. unfold lift.
  destruct (Url.urlparse url) as [parsed | e]; [| discriminate].
  cbv zeta.
  destruct (negb (Py.mem (Url.scheme parsed) ["http"; "https"])) eqn:Hscheme;
    [discriminate |].
  destruct (negb (host_in (Py.lower (Url.netloc parsed)) VALID_DOMAINS)) eqn:Hhost;
    [discriminate |].
  destruct (host_in (Py.lower (Url.netloc parsed)) blocked) eqn:Hblocked; [discriminate |].
  destruct (MAX_URL_LENGTH <? Py.len url) eqn:Hlen; [discriminate |].
  destruct (is_calendar_or_event url) eqn:Hcal; [discriminate |].
  destruct (is_known_trap url) eqn:Hknown; [discriminate |].
  unfold bind at 1.
  destruct (is_url_trap url st) as [[trapped | e] st1] eqn:Htrap; [| discriminate].
  destruct trapped; [discriminate |].
  intros Hok. exists parsed.
  apply negb_false_iff in Hscheme, Hhost.
  repeat (split; [reflexivity || assumption |]).
  f_equal.
  revert Hok.
  match goal with
  | |- context [match ?x with Some ext => _ | None => _ end] => destruct x
  end; [discriminate |].
  repeat match goal with
         | |- context [if ?c then _ else _] => destruct c; [discriminate |]
         end.
  unfold ret. congruence.
Qed.

(** How [is_url_trap] comes to answer [False] on a URL that parses: both
    counters were within their limits after being raised by one. *)
Lemma is_url_trap_false (url : string) (parsed : Url.ParseResult) (st st' : State) :
  Url.urlparse url = Ok parsed ->
  is_url_trap url st = (Ok false, st') ->
  count_of (url_pattern_counter st) (get_url_pattern url) + 1 <= max_repeats_of url
  /\ same_path_count url st + 1 <= max_same_of url
  /\ same_path_count url st' = same_path_count url st + 1
  /\ count_of (url_pattern_counter st') (get_url_pattern url)
     = count_of (url_pattern_counter st) (get_url_pattern url) + 1.
Proof.
  intros Hparse. unfold is_url_trap, try_except. unfold bind at 1. unfold lift.
  rewrite Hparse. cbv zeta.
  repeat match goal with
         | |- context [if ?c then ret true else _] => destruct c eqn:?; [discriminate |]
         end.
  unfold bind, modify, gets. cbn [fst snd].
  cbn [url_pattern_counter set_url_pattern_counter domain_path_counter
       set_domain_path_counter].
  unfold count_of at 1. rewrite lookup_insert_eq. cbn [default from_option id].
  fold (max_repeats_of url).
  destruct (Z.ltb_spec (max_repeats_of url)
              (count_of (url_pattern_counter st) (get_url_pattern url) + 1))
    as [_ | Hrep]; [intros Hx; cbv beta iota delta [ret] in Hx; discriminate Hx |].
  repeat match goal with
         | |- context [if ?c then ret true else _] =>
             destruct c eqn:?; [intros Hx; cbv beta iota delta [ret] in Hx; discriminate Hx |]
         end.
  match goal with
  | Hc : (_ <? count_of (default ∅ (_ !! _)) _) = false |- _ => rename Hc into Hsame
  end.
  cbn [url_pattern_counter set_url_pattern_counter domain_path_counter
       set_domain_path_counter] in Hsame |- *.
  rewrite lookup_insert_eq in Hsame. cbn [default from_option id] in Hsame.
  unfold count_of at 1 in Hsame. rewrite lookup_insert_eq in Hsame.
  cbn [default from_option id] in Hsame.
  fold (max_same_of url) in Hsame. apply Z.ltb_ge in Hsame.
  unfold same_path_count. rewrite Hparse.
  intros Heq. cbv beta iota delta [ret] in Heq. injection Heq as <-.
  cbn [url_pattern_counter set_url_pattern_counter domain_path_counter
       set_domain_path_counter].
  rewrite lookup_insert_eq. cbn [default from_option id].
  repeat split; try assumption.
  - unfold count_of at 1. rewrite lookup_insert_eq. reflexivity.
  - unfold count_of at 1. rewrite lookup_insert_eq. reflexivity.
Qed.

Lemma same_page_count (url u : string) (st : State) :
  same_page url u = true -> same_path_count u st = same_path_count url st.
Proof.
  unfold same_page, same_path_count.
  destruct (Url.urlparse url) as [p | e]; [| discriminate].
  destruct (Url.urlparse u) as [q | e]; [| discriminate].
  intros Hsame. apply andb_true_iff in Hsame as [Hn Hp].
  apply String.eqb_eq in Hn, Hp. now rewrite Hn, Hp.
Qed.

Lemma same_path_count_grows (url u : string) (st : State) :
  same_path_count url st <= same_path_count url (snd (is_valid u st)).
Proof.
  destruct (is_valid_grows u st) as [_ Hpaths].
  unfold same_path_count. destruct (Url.urlparse url) as [p | e]; [apply Hpaths | lia].
Qed.

Lemma pattern_count_grows (p u : string) (st : State) :
  count_of (url_pattern_counter st) p
  <= count_of (url_pattern_counter (snd (is_valid u st))) p.
Proof. destruct (is_valid_grows u st) as [Hcounts _]. apply Hcounts. Qed.

Lemma max_same_of_le (url : string) : max_same_of url <= 25.
Proof. unfold max_same_of. destruct (is_legitimate_pattern url); lia. Qed.

Lemma max_repeats_of_le (url : string) : max_repeats_of url <= 150.
Proof. unfold max_repeats_of. destruct (is_legitimate_pattern url); lia. Qed.

(** A counter that no [is_valid] call lowers and that every accepted URL
    of a kind raises by one, staying within a limit, bounds how many
    URLs of the kind a sequence of calls accepts. *)
Lemma accepted_bounded (sel : string -> bool) (measure : State -> Z) (limit : Z) :
  (forall u st, measure st <= measure (snd (is_valid u st))) ->
  (forall u st st', sel u = true -> is_valid u st = (Ok true, st') ->
     measure st + 1 <= limit /\ measure st' = measure st + 1) ->
  forall (urls : list string) (st : State),
    Z.of_nat (length (List.filter sel (accepted urls (fst (is_valid_all urls st)))))
    <= Z.max 0 (limit - measure st).
Proof.
  intros Hgrow Hacc urls. induction urls as [| u rest IH]; intros st; [simpl; lia |].
  simpl. pose proof (Hgrow u st) as Hmono. pose proof (Hacc u st) as Hone.
  destruct (is_valid u st) as [answer st1]. simpl in Hmono.
  specialize (IH st1). destruct (is_valid_all rest st1) as [answers st2].
  unfold accepted in *. simpl in *.
  destruct answer as [[|] | e]; simpl; try lia.
  destruct (sel u) eqn:Hsel; simpl; [| lia].
  destruct (Hone st1 eq_refl eq_refl) as [Hlim Hstep]. lia.
Qed.

Lemma is_valid_static (url : string) (st st' : State) :
  is_valid url st = (Ok true, st') -> passes_static_checks url = true.
Proof.
  intros Hok.
  destruct (is_valid_true url st st' Hok)
    as (parsed & Hparse & Hscheme & Hhost & Hlen & Hcal & Hknown & _).
  unfold passes_static_checks.
  rewrite Hparse, Hscheme, Hhost, Hcal, Hknown, Z.leb_antisym, Hlen. reflexivity.
Qed.

(** X12.  A URL that [is_valid] accepts is in scope and was counted:
    it parses, its scheme is [http] or [https], its host is one of
    [VALID_DOMAINS] or under one, it has at most [MAX_URL_LENGTH]
    characters and matches no calendar and no known-trap pattern; the
    call raised the counter of its pattern and the counter of its host
    and path by one each, and both are within the limits that
    [is_url_trap] sets for the URL. *)
Theorem accepted_url_in_scope (url : string) (st st' : State) :
  is_valid url st = (Ok true, st') ->
  passes_static_checks url = true
  /\ count_of (url_pattern_counter st') (get_url_pattern url)
     = count_of (url_pattern_counter st) (get_url_pattern url) + 1
  /\ count_of (url_pattern_counter st') (get_url_pattern url) <= max_repeats_of url
  /\ same_path_count url st' = same_path_count url st + 1
  /\ same_path_count url st' <= max_same_of url.
Proof.
  intros Hok. split; [exact (is_valid_static url st st' Hok) |].
  destruct (is_valid_true url st st' Hok) as (parsed & Hparse & _ & _ & _ & _ & _ & Htrap).
  destruct (is_url_trap_false url parsed st st' Hparse Htrap)
    as (Hrep & Hsame & Hpath & Hpattern).
  rewrite Hpath, Hpattern. repeat split; assumption.
Qed.

(** X13.  However many URLs are put to [is_valid], the accepted ones
    that have the host and the path of a given URL (they may differ in
    their query) are at most 25 less what [domain_path_counter] shows for
    that host and path when the calls begin, and none where it shows 25
    or more: each acceptance uses up one of the repeats that step 7 of
    [is_url_trap] allows, and no call gives one back.  From a fresh
    process that is at most 25. *)
Theorem same_page_accepted_at_most (url : string) (urls : list string) (st : State) :
  Z.of_nat (length (List.filter (same_page url)
                      (accepted urls (fst (is_valid_all urls st)))))
  <= Z.max 0 (25 - same_path_count url st).
Proof.
  apply (accepted_bounded (same_page url) (same_path_count url) 25).
  - intros u st0. apply same_path_count_grows.
  - intros u st0 st1 Hsel Hok.
    destruct (is_valid_true u st0 st1 Hok) as (parsed & Hparse & _ & _ & _ & _ & _ & Htrap).
    destruct (is_url_trap_false u parsed st0 st1 Hparse Htrap) as (_ & Hlim & Hstep & _).
    rewrite !(same_page_count url u) in * by exact Hsel.
    pose proof (max_same_of_le u). lia.
Qed.

(** X14.  Likewise the URLs that a sequence of [is_valid] calls accepts
    and that have one and the same pattern, as [get_url_pattern] computes
    it, are at most 150 less what [url_pattern_counter] shows for the
    pattern when the calls begin. *)
Theorem same_pattern_accepted_at_most (pattern : string) (urls : list string) (st : State) :
  Z.of_nat (length (List.filter (fun u => String.eqb (get_url_pattern u) pattern)
                      (accepted urls (fst (is_valid_all urls st)))))
  <= Z.max 0 (150 - count_of (url_pattern_counter st) pattern).
Proof.
  apply (accepted_bounded (fun u => String.eqb (get_url_pattern u) pattern)
           (fun st => count_of (url_pattern_counter st) pattern) 150).
  - intros u st0. apply pattern_count_grows.
  - intros u st0 st1 Hsel Hok. apply String.eqb_eq in Hsel. subst pattern.
    destruct (is_valid_true u st0 st1 Hok) as (parsed & Hparse & _ & _ & _ & _ & _ & Htrap).
    destruct (is_url_trap_false u parsed st0 st1 Hparse Htrap) as (Hlim & _ & _ & Hstep).
    pose proof (max_repeats_of_le u). lia.
Qed.

End AdmissionCounters.

(* ===================================================================== *)
(** * What a call of the scraper does                                     *)
(* ===================================================================== *)

Section ScraperWalk.
Context `{PyLib}.
Import Scraper.

Lemma log_processing_preserves {X} (observe : State -> X) (url status reason : string) (n : Z) :
  (forall v st, observe (set_processing_log v st) = observe st) ->
  (forall v st, observe (set_log_file v st) = observe st) ->
  preserves observe (log_processing url status reason n).
Proof.
  intros Hp Hf. unfold log_processing, save_processing_log.
  repeat preserves_step; apply preserves_modify; intros st; try apply Hp.
  destruct (processing_log st); [reflexivity |]. rewrite Hp. apply Hf.
Qed.

Lemma is_duplicate_preserves {X} (observe : State -> X) (text url : string) :
  (forall v st, observe (set_duplicates_found v st) = observe st) ->
  (forall v st, observe (set_seen_exact_hashes v st) = observe st) ->
  (forall v st, observe (set_seen_simhashes v st) = observe st) ->
  preserves observe (is_duplicate text url).
Proof.
  intros Hd He Hs. unfold is_duplicate. cbv zeta.
  repeat preserves_step; apply preserves_modify; intros st;
    first [apply Hd | apply He | apply Hs].
Qed.

Lemma valid_links_of_preserves {X} (observe : State -> X) (links : list string) :
  (forall v st, observe (set_url_pattern_counter v st) = observe st) ->
  (forall v st, observe (set_domain_path_counter v st) = observe st) ->
  (forall v st, observe (set_rejection_stats v st) = observe st) ->
  (forall v st, observe (set_rejection_samples v st) = observe st) ->
  preserves observe (valid_links_of links).
Proof.
  intros Hp Hd Hs Hl.
  induction links as [| link rest IH]; simpl; [apply preserves_ret |].
  apply preserves_bind; [now apply is_valid_preserves | intros ok].
  apply preserves_bind; [exact IH | intros more]. apply preserves_ret.
Qed.

Lemma is_duplicate_never_raises (text url : string) : never_raises (is_duplicate text url).
Proof.
  unfold is_duplicate. cbv zeta.
  repeat first
    [ apply never_raises_ret | apply never_raises_modify | apply never_raises_gets
    | apply never_raises_bind; [| intros ?]
    | match goal with
      | |- never_raises (if ?c then _ else _) => destruct c
      end ].
Qed.

Lemma valid_links_of_never_raises (links : list string) : never_raises (valid_links_of links).
Proof.
  induction links as [| link rest IH]; simpl; [apply never_raises_ret |].
  apply never_raises_bind; [apply is_valid_never_raises | intros ok].
  apply never_raises_bind; [exact IH | intros more]. apply never_raises_ret.
Qed.

Lemma scraper_never_raises (url : string) (resp : option Response) :
  never_raises (scraper url resp).
Proof.
  unfold scraper.
  apply never_raises_bind; [apply never_raises_modify | intros _].
  destruct resp as [resp |].
  - destruct (negb _).
    + apply never_raises_bind; [apply log_processing_never_raises | intros _].
      apply never_raises_ret.
    + apply never_raises_try_except. intros e.
      apply never_raises_bind; [apply log_processing_never_raises | intros _].
      apply never_raises_ret.
  - apply never_raises_bind; [apply log_processing_never_raises | intros _].
    apply never_raises_ret.
Qed.

(** ** The log *)

Lemma log_processing_history (url status reason : string) (n : Z) (st : State) :
  history (snd (log_processing url status reason n st))
  = (history st
     ++ [{| log_url := url; log_status := status; log_reason := reason;
            log_links_found := n |}])%list.
Proof.
  unfold log_processing, save_processing_log, bind, modify, gets, history. cbn [fst snd].
  cbn [processing_log set_processing_log log_file].
  set (e := {| log_url := url; log_status := status; log_reason := reason;
               log_links_found := n |}).
  destruct (_ =? 0); cbn [snd]; cbn [processing_log set_processing_log log_file].
  - destruct (processing_log st ++ [e])%list as [| e0 l] eqn:Hlog.
    + now destruct (processing_log st).
    + cbn [processing_log set_processing_log log_file set_log_file].
      rewrite app_nil_r, <- Hlog. apply app_assoc.
  - apply app_assoc.
Qed.

Lemma logs_once_quiet_bind {A B} (url : string) (m : M A) (f : A -> M B) :
  preserves history m -> (forall a, logs_once url (f a)) -> logs_once url (bind m f).
Proof.
  intros Hm Hf st. unfold bind. pose proof (Hm st) as Hs.
  destruct (m st) as [[a | e] st1]; cbn [fst snd] in *.
  - specialize (Hf a st1). rewrite Hs in Hf. exact Hf.
  - exact Hs.
Qed.

Lemma logs_once_then_quiet {B} (url status reason : string) (n : Z) (f : unit -> M B) :
  (forall a, preserves history (f a)) -> (forall a, never_raises (f a)) ->
  logs_once url (bind (log_processing url status reason n) f).
Proof.
  intros Hf Hret st. unfold bind.
  pose proof (log_processing_history url status reason n st) as Hlog.
  destruct (log_processing_never_raises url status reason n st) as [u Hu].
  destruct (log_processing url status reason n st) as [r st1]. cbn [fst snd] in *. subst r.
  destruct (Hret u st1) as [b Hb]. rewrite Hb, (Hf u st1), Hlog.
  eexists. split; [| reflexivity]. reflexivity.
Qed.

Lemma logs_once_skip (url status reason : string) :
  logs_once url (bind (log_processing url status reason 0)
                      (fun _ => ret ([] : list string))).
Proof.
  apply logs_once_then_quiet; intros _; [apply preserves_ret | apply never_raises_ret].
Qed.

Lemma history_other_fields :
  (forall v st, history (set_pages_processed v st) = history st)
  /\ (forall v st, history (set_pages_saved v st) = history st)
  /\ (forall v st, history (set_links_discovered v st) = history st)
  /\ (forall v st, history (set_page_store v st) = history st).
Proof. repeat split. Qed.

Lemma is_duplicate_quiet (text url : string) : preserves history (is_duplicate text url).
Proof. apply is_duplicate_preserves; reflexivity. Qed.

Lemma valid_links_of_quiet (links : list string) : preserves history (valid_links_of links).
Proof. apply valid_links_of_preserves; reflexivity. Qed.

Lemma scraper_body_logs_once (url : string) (resp : Response) :
  logs_once url (scraper_body url resp).
Proof.
  unfold scraper_body.
  apply logs_once_quiet_bind; [apply preserves_lift | intros content].
  destruct content as [content |]; [| apply logs_once_skip].
  destruct (_ <? 100); [apply logs_once_skip |].
  destruct (_ <? _); [apply logs_once_skip |].
  apply logs_once_quiet_bind; [apply preserves_lift | intros soup].
  destruct (extract_text_content_from_soup soup) as [text pruned].
  cbv zeta.
  destruct (_ <? MIN_WORD_COUNT); [apply logs_once_skip |].
  apply logs_once_quiet_bind; [apply is_duplicate_quiet | intros dup].
  destruct (fst dup).
  - apply logs_once_then_quiet; intros _.
    + repeat preserves_step; first [apply valid_links_of_quiet | now apply preserves_modify].
    + apply never_raises_bind; [apply valid_links_of_never_raises | intros links].
      apply never_raises_bind; [apply never_raises_modify | intros _].
      apply never_raises_ret.
  - apply logs_once_quiet_bind; [apply valid_links_of_quiet | intros links].
    apply logs_once_quiet_bind; [now apply preserves_modify | intros _].
    apply logs_once_quiet_bind.
    + destruct (_ || _); [| apply preserves_ret].
      apply preserves_bind; [| intros _]; now apply preserves_modify.
    + intros _. apply logs_once_then_quiet; intros _;
        [apply preserves_ret | apply never_raises_ret].
Qed.

(** X15.  [scraper(url, resp)] returns a list for every URL, every
    response and every library, raising nothing; it counts one more
    processed page and logs exactly one entry, for that URL, after all
    that was logged before. *)
Theorem scraper_logs_once (url : string) (resp : option Response) (st : State) :
  exists (links : list string) (entry : log_entry),
    fst (scraper url resp st) = Ok links
    /\ log_url entry = url
    /\ history (snd (scraper url resp st)) = (history st ++ [entry])%list
    /\ pages_processed (snd (scraper url resp st)) = pages_processed st + 1.
Proof.
  assert (logs_once url (scraper url resp)) as Hlog.
  { unfold scraper.
    apply logs_once_quiet_bind; [now apply preserves_modify | intros _].
    destruct resp as [resp |]; [| apply logs_once_skip].
    destruct (negb _); [apply logs_once_skip |].
    intros st0. unfold try_except.
    pose proof (scraper_body_logs_once url resp st0) as Hbody.
    destruct (scraper_body url resp st0) as [[links | e] st1]; cbn [fst snd] in *.
    - exact Hbody.
    - pose proof (logs_once_skip url "error" (String.substring 0 30 (str_exc e)) st1) as Hh.
      rewrite Hbody in Hh. exact Hh. }
  specialize (Hlog st).
  destruct (scraper_never_raises url resp st) as [links Hlinks].
  rewrite Hlinks in Hlog. destruct Hlog as [entry [Hurl Hhist]].
  exists links, entry. repeat (split; [assumption |]).
  unfold scraper. unfold bind at 1, modify at 1.
  match goal with
  | |- pages_processed (snd (?m ?s)) = _ =>
      assert (preserves pages_processed m) as Hkeep
  end.
  { unfold scraper_body, add_links_discovered, save_page_data. cbv zeta.
    repeat first
      [ apply log_processing_preserves; reflexivity
      | apply is_duplicate_preserves; reflexivity
      | apply valid_links_of_preserves; reflexivity
      | apply preserves_modify; reflexivity
      | preserves_step ]. }
  rewrite Hkeep. reflexivity.
Qed.


(** ** The page store *)

Lemma saved_one_refl (url : string) (st : State) : saved_one url st st.
Proof. now left. Qed.

Lemma saved_one_pre (url : string) (st st1 st2 : State) :
  pages st1 = pages st -> saved_one url st1 st2 -> saved_one url st st2.
Proof.
  unfold saved_one, pages. intros Heq. injection Heq as Hstore Hsaved.
  rewrite Hstore, Hsaved. trivial.
Qed.

Lemma saved_one_post (url : string) (st st1 st2 : State) :
  saved_one url st st1 -> pages st2 = pages st1 -> saved_one url st st2.
Proof.
  unfold saved_one. intros Hone Heq. rewrite Heq.
  unfold pages in Heq. injection Heq as Hstore Hsaved. rewrite Hstore, Hsaved. exact Hone.
Qed.

Lemma saves_after {A B} (url : string) (m : M A) (f : A -> M B) :
  preserves pages m -> (forall a, along (saved_one url) (f a)) ->
  along (saved_one url) (bind m f).
Proof.
  intros Hm Hf st. unfold bind. pose proof (Hm st) as Hs.
  destruct (m st) as [[a | e] st1]; cbn [fst snd] in *.
  - apply (saved_one_pre url st st1 _ Hs). apply Hf.
  - left. exact Hs.
Qed.

Lemma saves_before {A B} (url : string) (m : M A) (f : A -> M B) :
  along (saved_one url) m -> (forall a, preserves pages (f a)) ->
  along (saved_one url) (bind m f).
Proof.
  intros Hm Hf st. unfold bind. pose proof (Hm st) as Hs.
  destruct (m st) as [[a | e] st1]; cbn [fst snd] in *.
  - apply (saved_one_post url st st1 _ Hs). apply Hf.
  - exact Hs.
Qed.

Lemma saves_nothing {A} (url : string) (m : M A) :
  preserves pages m -> along (saved_one url) m.
Proof. intros Hm st. left. apply Hm. Qed.

Lemma skip_keeps_pages (url status reason : string) :
  preserves pages (bind (log_processing url status reason 0)
                        (fun _ => ret ([] : list string))).
Proof.
  apply preserves_bind; [apply log_processing_keeps_pages | intros _; apply preserves_ret].
Qed.

Lemma scraper_body_saves_one (url : string) (resp : Response) :
  along (saved_one url) (scraper_body url resp).
Proof.
  unfold scraper_body.
  apply saves_after; [apply preserves_lift | intros content].
  destruct content as [content |]; [| apply saves_nothing, skip_keeps_pages].
  destruct (_ <? 100); [apply saves_nothing, skip_keeps_pages |].
  destruct (_ <? _); [apply saves_nothing, skip_keeps_pages |].
  apply saves_after; [apply preserves_lift | intros soup].
  destruct (extract_text_content_from_soup soup) as [text pruned].
  cbv zeta.
  destruct (Z.ltb_spec (Z.of_nat (length (Py.split_ws text))) MIN_WORD_COUNT) as [_ | Hwords];
    [apply saves_nothing, skip_keeps_pages |].
  apply saves_after; [apply is_duplicate_keeps_pages | intros dup].
  destruct (fst dup).
  - apply saves_nothing.
    unfold add_links_discovered.
    repeat first
      [ apply log_processing_keeps_pages | apply valid_links_of_keeps_pages
      | apply preserves_modify; reflexivity | preserves_step ].
  - apply saves_after; [apply valid_links_of_keeps_pages | intros links].
    apply saves_after; [now apply preserves_modify | intros _].
    apply saves_before.
    + destruct (_ || _); [| apply saves_nothing, preserves_ret].
      intros st. right. eexists. cbn.
      split; [reflexivity |]. split; [reflexivity |]. split; [reflexivity |].
      split; [exact Hwords |]. apply firstn_le_length.
    + intros _. apply preserves_bind; [apply log_processing_keeps_pages | intros _].
      apply preserves_ret.
Qed.

(** X16.  A call [scraper(url, resp)] saves at most one page, its own:
    either the page store and the count of saved pages are as before, or
    the count went up by one and the store got one record under the
    digest of [url], which names [url], has at least [MIN_WORD_COUNT]
    words counted and at most 1000 kept; no other entry changed. *)
Theorem scraper_saves_own_page (url : string) (resp : option Response) (st : State) :
  saved_one url st (snd (scraper url resp st)).
Proof.
  revert st. change (along (saved_one url) (scraper url resp)). unfold scraper.
  apply saves_after; [now apply preserves_modify | intros _].
  destruct resp as [resp |]; [| apply saves_nothing, skip_keeps_pages].
  destruct (negb _); [apply saves_nothing, skip_keeps_pages |].
  intros st. unfold try_except.
  pose proof (scraper_body_saves_one url resp st) as Hbody.
  destruct (scraper_body url resp st) as [[links | e] st1]; cbn [fst snd] in *.
  - exact Hbody.
  - apply (saved_one_post url st st1 _ Hbody). apply skip_keeps_pages.
Qed.

(** ** Responses the scraper does not examine *)

Lemma skip_run (url status reason : string) (st : State) :
  fst (bind (log_processing url status reason 0) (fun _ => ret ([] : list string)) st) = Ok []
  /\ beyond_log (snd (bind (log_processing url status reason 0)
                           (fun _ => ret ([] : list string)) st))
     = beyond_log st.
Proof.
  unfold bind.
  pose proof (log_processing_preserves beyond_log url status reason 0
                ltac:(reflexivity) ltac:(reflexivity) st) as Hkeep.
  destruct (log_processing_never_raises url status reason 0 st) as [u Hu].
  destruct (log_processing url status reason 0 st) as [r st1]. cbn [fst snd] in *. subst r.
  split; [reflexivity | exact Hkeep].
Qed.

Lemma skip_run_body (url status reason : string) (st : State) :
  beyond_log (snd (bind (log_processing url status reason 0)
                        (fun _ => ret ([] : list string)) st))
  = beyond_log st
  /\ forall links,
       fst (bind (log_processing url status reason 0) (fun _ => ret ([] : list string)) st)
       = Ok links ->
       links = [].
Proof.
  destruct (skip_run url status reason st) as [Hlinks Hkeep].
  split; [exact Hkeep |]. intros links. rewrite Hlinks. congruence.
Qed.

Lemma bind_lift_ok {A B} (a : A) (f : A -> M B) (st : State) :
  bind (lift (Ok a)) f st = f a st.
Proof. reflexivity. Qed.

Lemma bind_lift_raise {A B} (e : exc) (f : A -> M B) (st : State) :
  bind (lift (Raise e)) f st = (Raise e, st).
Proof. reflexivity. Qed.

Lemma scraper_body_skips (url : string) (resp : Response) (st : State) :
  status resp = 200 ->
  reaches_detector (Some resp) = false ->
  beyond_log (snd (scraper_body url resp st)) = beyond_log st
  /\ forall links, fst (scraper_body url resp st) = Ok links -> links = [].
Proof.
  intros Hstatus Hskip. unfold reaches_detector in Hskip. rewrite Hstatus in Hskip.
  cbn [Z.eqb Pos.eqb andb] in Hskip.
  unfold scraper_body.
  destruct (raw_response resp) as [[content |] |];
    rewrite ?bind_lift_ok, ?bind_lift_raise;
    [| apply skip_run_body | split; [reflexivity | discriminate]].
  rewrite Z.leb_antisym, (Z.leb_antisym MAX_CONTENT_SIZE) in Hskip.
  destruct (Py.len content <? 100); [apply skip_run_body |].
  destruct (MAX_CONTENT_SIZE <? Py.len content); [apply skip_run_body |].
  cbn [negb andb] in Hskip.
  destruct (html_parse content) as [soup | e];
    rewrite ?bind_lift_ok, ?bind_lift_raise; [| split; [reflexivity | discriminate]].
  rewrite (surjective_pairing (extract_text_content_from_soup soup)).
  cbv zeta. rewrite Z.leb_antisym in Hskip. apply negb_false_iff in Hskip.
  rewrite Hskip. apply skip_run_body.
Qed.

(** X17.  A response that is missing, has a status other than 200, has
    no [raw_response] or no content, has content shorter than 100 or
    longer than [MAX_CONTENT_SIZE], does not parse, or gives fewer than
    [MIN_WORD_COUNT] words: [scraper] returns [[]] and changes nothing
    but the count of processed pages and the log; the duplicate
    detector, the trap counters, the rejection statistics and the page
    store are as before. *)
Theorem scraper_skips_unusable_response (url : string) (resp : option Response) (st : State) :
  reaches_detector resp = false ->
  fst (scraper url resp st) = Ok []
  /\ beyond_log (snd (scraper url resp st)) = beyond_log st.
Proof.
  intros Hskip. unfold scraper.
  match goal with
  | |- context [bind (modify _) (fun _ => ?rest)] =>
      assert (forall st0, fst (rest st0) = Ok []
                          /\ beyond_log (snd (rest st0)) = beyond_log st0) as Hrest
  end.
  { intros st0.
    destruct resp as [resp |]; [| apply skip_run].
    destruct (Z.eqb_spec (status resp) 200) as [Hstatus | _]; cbn [negb];
      [| apply skip_run].
    unfold try_except.
    destruct (scraper_body_skips url resp st0 Hstatus Hskip) as [Hkeep Hlinks].
    destruct (scraper_body url resp st0) as [[links | e] st1]; cbn [fst snd] in *.
    - split; [| exact Hkeep]. now rewrite (Hlinks links eq_refl).
    - rewrite <- Hkeep. apply skip_run. }
  destruct (Hrest (set_pages_processed (pages_processed st + 1) st)) as [Hlinks Hkeep].
  split; [exact Hlinks | exact Hkeep].
Qed.


(** ** The links *)

Lemma add_link_spec (url href l : string) (links : gset string) :
  l ∈ add_link url links href <->
  l ∈ links
  \/ (Py.is_empty href = false
      /\ Py.mem (Py.strip href) ["#"; "javascript:void(0)"; "javascript:;"] = false
      /\ exists absolute_url,
           urljoin url href = Ok absolute_url
           /\ urldefrag absolute_url = Ok l
           /\ l <> "" /\ l <> url).
Proof.
  unfold add_link.
  destruct (Py.is_empty href) eqn:Hempty; cbn [orb].
  { split; [now left | intros [Hin | (Hne & _)]; [exact Hin | discriminate]]. }
  destruct (Py.mem (Py.strip href) _) eqn:Hskip.
  { split; [now left | intros [Hin | (_ & Hne & _)]; [exact Hin | discriminate]]. }
  destruct (urljoin url href) as [absolute_url | e].
  2:{ split; [now left | intros [Hin | (_ & _ & a & Ha & _)]; [exact Hin | discriminate]]. }
  destruct (urldefrag absolute_url) as [clean_url | e] eqn:Hclean.
  2:{ split; [now left |].
      intros [Hin | (_ & _ & a & Ha & Hd & _)]; [exact Hin |].
      injection Ha as <-. congruence. }
  assert (Py.is_empty clean_url = true <-> clean_url = "") as Hnil.
  { destruct clean_url; simpl; split; congruence. }
  destruct (Py.is_empty clean_url) eqn:Hce; cbn [negb andb].
  { split; [now left |].
    intros [Hin | (_ & _ & a & Ha & Hd & Hn & _)]; [exact Hin |].
    injection Ha as <-. rewrite Hclean in Hd. injection Hd as <-.
    destruct Hn. now apply Hnil. }
  destruct (String.eqb_spec clean_url url) as [Heq | Hneq]; cbn [negb].
  { split; [now left |].
    intros [Hin | (_ & _ & a & Ha & Hd & _ & Hn)]; [exact Hin |].
    injection Ha as <-. rewrite Hclean in Hd. injection Hd as <-. contradiction. }
  rewrite elem_of_union, elem_of_singleton. split.
  - intros [-> | Hin]; [right | now left].
    repeat (split; [reflexivity |]). exists absolute_url.
    repeat (split; [reflexivity || assumption |]).
    split; [| exact Hneq]. intros Hn. apply Hnil in Hn. discriminate.
  - intros [Hin | (_ & _ & a & Ha & Hd & _)]; [now right |].
    injection Ha as <-. rewrite Hclean in Hd. injection Hd as <-. now left.
Qed.

Lemma fold_add_link_spec (url l : string) (hrefs : list string) :
  forall links : gset string,
    l ∈ fold_left (add_link url) hrefs links <->
    l ∈ links
    \/ exists href,
         In href hrefs
         /\ Py.is_empty href = false
         /\ Py.mem (Py.strip href) ["#"; "javascript:void(0)"; "javascript:;"] = false
         /\ exists absolute_url,
              urljoin url href = Ok absolute_url
              /\ urldefrag absolute_url = Ok l
              /\ l <> "" /\ l <> url.
Proof.
  induction hrefs as [| href rest IH]; intros links; simpl.
  - split; [now left | intros [Hin | (href & [] & _)]; exact Hin].
  - rewrite IH, add_link_spec. split.
    + intros [[Hin | Hnew] | (h & Hh & Hrest)].
      * now left.
      * right. exists href. split; [now left | exact Hnew].
      * right. exists h. split; [now right | exact Hrest].
    + intros [Hin | (h & [-> | Hh] & Hrest)].
      * left. now left.
      * left. now right.
      * right. exists h. split; assumption.
Qed.

Lemma extract_next_links_in (url l : string) (soup : list node) :
  In l (extract_next_links_from_soup url soup) -> l <> "" /\ l <> url.
Proof.
  unfold extract_next_links_from_soup.
  rewrite <- list_elem_of_In, elem_of_elements, fold_add_link_spec.
  intros [Hin | (href & _ & _ & _ & a & _ & _ & Hne & Hurl)]; [set_solver | now split].
Qed.

(** X18.  [extract_next_links_from_soup(url, soup)] returns no link
    twice, and a link is returned exactly when some [a] tag of the tree
    has an [href] that is not empty and not one of ['#'],
    ['javascript:void(0)'], ['javascript:;'] after stripping, whose join
    with [url], without its fragment, is the link, and the link is
    neither empty nor [url] itself; an [href] on which [urljoin] or
    [urldefrag] raises is passed over. *)
Theorem extract_next_links_spec (url : string) (soup : list node) :
  List.NoDup (extract_next_links_from_soup url soup)
  /\ forall l,
       In l (extract_next_links_from_soup url soup) <->
       exists href,
         In href (flat_map hrefs_of soup)
         /\ Py.is_empty href = false
         /\ Py.mem (Py.strip href) ["#"; "javascript:void(0)"; "javascript:;"] = false
         /\ exists absolute_url,
              urljoin url href = Ok absolute_url
              /\ urldefrag absolute_url = Ok l
              /\ l <> "" /\ l <> url.
Proof.
  unfold extract_next_links_from_soup. split.
  - apply NoDup_ListNoDup, NoDup_elements.
  - intros l. rewrite <- list_elem_of_In, elem_of_elements, fold_add_link_spec.
    split; [intros [Hin | Hnew]; [set_solver | exact Hnew] | now right].
Qed.

Lemma valid_links_of_sound (links : list string) :
  forall (st : State) (valid_links : list string),
    fst (valid_links_of links st) = Ok valid_links ->
    (List.NoDup links -> List.NoDup valid_links)
    /\ Forall (fun l => In l links /\ passes_static_checks l = true) valid_links.
Proof.
  induction links as [| link rest IH]; intros st valid_links; simpl.
  - unfold ret. simpl. intros Heq. injection Heq as <-. split; [trivial | constructor].
  - unfold bind at 1.
    destruct (is_valid link st) as [[ok | e] st1] eqn:Hvalid; [| discriminate].
    unfold bind at 1.
    destruct (valid_links_of rest st1) as [[more | e] st2] eqn:Hrest; [| discriminate].
    unfold ret. cbn [fst]. intros Heq. injection Heq as <-.
    destruct (IH st1 more) as [Hnd Hall]; [now rewrite Hrest |].
    assert (Forall (fun l => In l (link :: rest) /\ passes_static_checks l = true) more)
      as Hmore.
    { eapply List.Forall_impl; [| exact Hall]. intros l [Hin Hs]. split; [now right | exact Hs]. }
    destruct ok.
    + split.
      * intros Hdup. inversion Hdup as [| ? ? Hnotin Hdup']. subst. constructor.
        -- intros Hin. apply Hnotin. rewrite List.Forall_forall in Hall. now apply Hall.
        -- now apply Hnd.
      * constructor; [| exact Hmore]. split; [now left |].
        eapply is_valid_static, Hvalid.
    + split; [| exact Hmore]. intros Hdup. inversion Hdup. now apply Hnd.
Qed.


Lemma yields_ret {A} (P : A -> Prop) (a : A) : P a -> yields P (ret a).
Proof. intros Ha st b Hb. injection Hb as <-. exact Ha. Qed.

Lemma yields_from {A B} (Q : A -> Prop) (P : B -> Prop) (m : M A) (f : A -> M B) :
  yields Q m -> (forall a, Q a -> yields P (f a)) -> yields P (bind m f).
Proof.
  intros Hm Hf st b. unfold bind. specialize (Hm st).
  destruct (m st) as [[a | e] st1]; cbn [fst] in *; [| discriminate].
  apply (Hf a (Hm a eq_refl)).
Qed.

Lemma yields_bind {A B} (P : B -> Prop) (m : M A) (f : A -> M B) :
  (forall a, yields P (f a)) -> yields P (bind m f).
Proof.
  intros Hf. apply (yields_from (fun _ => True)); [intros st a _; exact I |].
  intros a _. apply Hf.
Qed.

Lemma yields_try_except {A} (P : A -> Prop) (m : M A) (h : exc -> M A) :
  yields P m -> (forall e, yields P (h e)) -> yields P (try_except m h).
Proof.
  intros Hm Hh st a. unfold try_except. specialize (Hm st).
  destruct (m st) as [[b | e] st1]; cbn [fst] in *.
  - intros Heq. injection Heq as <-. now apply Hm.
  - apply Hh.
Qed.

Lemma yields_skip (P : list string -> Prop) (url status reason : string) :
  P [] -> yields P (bind (log_processing url status reason 0) (fun _ => ret [])).
Proof. intros Hnil. apply yields_bind. intros _. now apply yields_ret. Qed.

(** X19.  Whatever [scraper(url, resp)] returns, no link is in the list
    twice, none is empty, none is [url] itself, and every one passes the
    checks of [is_valid] that read the URL alone: scheme, domain, length,
    calendar and known-trap patterns. *)
Theorem scraper_links_are_valid (url : string) (resp : option Response) :
  yields (fun links =>
            List.NoDup links
            /\ Forall (fun l => l <> url /\ l <> "" /\ passes_static_checks l = true) links)
         (scraper url resp).
Proof.
  set (P := fun links : list string => List.NoDup links /\ _).
  assert (P []) as Hnil by (split; constructor).
  assert (forall pruned,
             yields P (valid_links_of (extract_next_links_from_soup url pruned))) as Hlinks.
  { intros pruned st valid_links Hrun.
    destruct (valid_links_of_sound _ st valid_links Hrun) as [Hnd Hall].
    split.
    - apply Hnd. unfold extract_next_links_from_soup.
      apply NoDup_ListNoDup, NoDup_elements.
    - eapply List.Forall_impl; [| exact Hall]. intros l [Hin Hstatic].
      destruct (extract_next_links_in url l pruned Hin) as [Hne Hurl].
      repeat split; assumption. }
  unfold scraper. apply yields_bind. intros _.
  destruct resp as [resp |]; [| now apply yields_skip].
  destruct (negb _); [now apply yields_skip |].
  apply yields_try_except; [| intros e; now apply yields_skip].
  unfold scraper_body. apply yields_bind. intros content.
  destruct content as [content |]; [| now apply yields_skip].
  destruct (_ <? 100); [now apply yields_skip |].
  destruct (_ <? _); [now apply yields_skip |].
  apply yields_bind. intros soup.
  destruct (extract_text_content_from_soup soup) as [text pruned]. cbv zeta.
  destruct (_ <? MIN_WORD_COUNT); [now apply yields_skip |].
  apply yields_bind. intros dup.
  destruct (fst dup).
  - apply yields_bind. intros _.
    apply (yields_from P); [apply Hlinks | intros valid_links Hvalid].
    apply yields_bind. intros _. now apply yields_ret.
  - apply (yields_from P); [apply Hlinks | intros valid_links Hvalid].
    repeat (apply yields_bind; intros _). now apply yields_ret.
Qed.

(** ** The text extractor prunes the tree *)

Lemma decompose_names (names : list string) :
  forall n : node,
    Forall (fun name => Py.mem name names = false)
           (flat_map tag_names (decompose names n)).
Proof.
  fix IH 1. intros [s | name attrs children]; simpl; [constructor |].
  destruct (Py.mem name names) eqn:Hname; simpl; [constructor |].
  rewrite app_nil_r. constructor; [exact Hname |].
  induction children as [| c cs IHcs]; simpl; [constructor |].
  rewrite flat_map_app. apply Forall_app. split; [apply IH | exact IHcs].
Qed.

Lemma decompose_hrefs (names : list string) :
  forall n : node, sublist (flat_map hrefs_of (decompose names n)) (hrefs_of n).
Proof.
  fix IH 1. intros [s | name attrs children]; simpl; [constructor |].
  destruct (Py.mem name names); simpl; [apply sublist_nil_l |].
  rewrite app_nil_r. apply sublist_app; [reflexivity |].
  induction children as [| c cs IHcs]; simpl; [constructor |].
  rewrite flat_map_app. apply sublist_app; [apply IH | exact IHcs].
Qed.

Lemma decompose_strings (names : list string) :
  forall n : node, sublist (flat_map strings_of (decompose names n)) (strings_of n).
Proof.
  fix IH 1. intros [s | name attrs children]; simpl; [reflexivity |].
  destruct (Py.mem name names); simpl; [apply sublist_nil_l |].
  rewrite app_nil_r.
  induction children as [| c cs IHcs]; simpl; [constructor |].
  rewrite flat_map_app. apply sublist_app; [apply IH | exact IHcs].
Qed.

(** X20.  The tree that [extract_text_content_from_soup] leaves to its
    caller has no [script], [style], [meta], [link], [noscript],
    [header], [footer] or [nav] tag at any depth; its [href]s and its
    text nodes are those of the tree it was given, in their order, less
    the ones under such a tag.  So [scraper], which extracts the links
    afterwards, follows no link of a header, footer or navigation bar. *)
Theorem extractor_prunes_boilerplate (soup : list node) :
  let pruned := snd (extract_text_content_from_soup soup) in
  Forall (fun name => Py.mem name BOILERPLATE_TAGS = false) (flat_map tag_names pruned)
  /\ sublist (flat_map hrefs_of pruned) (flat_map hrefs_of soup)
  /\ sublist (flat_map strings_of pruned) (flat_map strings_of soup).
Proof.
  cbn [extract_text_content_from_soup snd].
  induction soup as [| n rest (Hnames & Hhrefs & Hstrings)].
  - repeat split; constructor.
  - cbn [flat_map]. rewrite !flat_map_app. split; [| split].
    + apply Forall_app. split; [apply decompose_names | exact Hnames].
    + apply sublist_app; [apply decompose_hrefs | exact Hhrefs].
    + apply sublist_app; [apply decompose_strings | exact Hstrings].
Qed.


(** ** Rejection samples *)

Lemma stays_capped_refl (st : State) : stays_capped st st.
Proof. intros Hcap. exact Hcap. Qed.

Lemma stays_capped_trans (st1 st2 st3 : State) :
  stays_capped st1 st2 -> stays_capped st2 st3 -> stays_capped st1 st3.
Proof. unfold stays_capped. auto. Qed.

Lemma stays_capped_preserves {A} (m : M A) :
  preserves rejection_samples m -> along stays_capped m.
Proof. intros Hm st Hcap reason. rewrite (Hm st). apply Hcap. Qed.

Lemma log_rejection_capped (reason url : string) (b : bool) :
  along stays_capped (log_rejection reason url b).
Proof.
  intros st Hcap r. unfold log_rejection, modify. cbn [snd]. cbv zeta.
  destruct b; [| apply Hcap].
  cbn [rejection_samples set_rejection_stats].
  destruct (Nat.ltb_spec (length (default [] (rejection_samples st !! reason))) 5)
    as [Hlt | _]; [| apply Hcap].
  cbn [rejection_samples set_rejection_samples set_rejection_stats].
  destruct (decide (reason = r)) as [-> | Hne].
  - rewrite lookup_insert_eq. cbn [default from_option id]. rewrite length_app. simpl. lia.
  - rewrite lookup_insert_ne by exact Hne. apply Hcap.
Qed.

Lemma is_valid_capped (url : string) : along stays_capped (is_valid url).
Proof.
  unfold is_valid, is_valid_body, reject. cbv zeta.
  repeat first
    [ apply log_rejection_capped
    | apply stays_capped_preserves, is_url_trap_preserves; reflexivity
    | along_step stays_capped_refl stays_capped_trans ].
Qed.

Lemma valid_links_of_capped (links : list string) :
  along stays_capped (valid_links_of links).
Proof.
  induction links as [| link rest IH]; simpl;
    [apply (along_ret _ stays_capped_refl) |].
  apply (along_bind _ stays_capped_trans); [apply is_valid_capped | intros ok].
  apply (along_bind _ stays_capped_trans); [exact IH | intros more].
  apply (along_ret _ stays_capped_refl).
Qed.

(** X21.  No rejection reason ever has more than five sample URLs: if
    that is so before a call of [is_valid] or of [scraper], it is so
    after. *)
Theorem rejection_samples_capped (url : string) (resp : option Response) (st : State) :
  samples_capped st ->
  samples_capped (snd (is_valid url st))
  /\ samples_capped (snd (scraper url resp st)).
Proof.
  intros Hcap. split; [now apply is_valid_capped |].
  revert st Hcap. change (along stays_capped (scraper url resp)).
  unfold scraper, scraper_body, add_links_discovered, save_page_data. cbv zeta.
  repeat first
    [ apply valid_links_of_capped
    | apply stays_capped_preserves, log_processing_preserves; reflexivity
    | apply stays_capped_preserves, is_duplicate_preserves; reflexivity
    | apply stays_capped_preserves, preserves_modify; reflexivity
    | along_step stays_capped_refl stays_capped_trans ].
Qed.

(** ** The log buffer *)

(** X22.  [log_processing] with fewer than 100 entries in memory: the
    new entry comes last of all that was logged; fewer than 100 entries
    are in memory afterwards, none at all where the new one was the
    hundredth, which writes them all to the file; what was in the file
    stays at its beginning. *)
Theorem log_processing_appends (url status reason : string) (n : Z) (st : State) :
  (length (processing_log st) < 100)%nat ->
  let st' := snd (log_processing url status reason n st) in
  history st'
  = (history st
     ++ [{| log_url := url; log_status := status; log_reason := reason;
            log_links_found := n |}])%list
  /\ (length (processing_log st') < 100)%nat
  /\ (length (processing_log st) = 99%nat -> processing_log st' = [])
  /\ log_file st `prefix_of` log_file st'.
Proof.
  intros Hlen st'. split; [apply log_processing_history |]. subst st'.
  unfold log_processing, save_processing_log, bind, modify, gets. cbn [fst snd].
  cbn [processing_log set_processing_log log_file].
  set (e := {| log_url := url; log_status := status; log_reason := reason;
               log_links_found := n |}).
  assert (length (processing_log st ++ [e]) = S (length (processing_log st))) as Hlen'.
  { rewrite length_app. simpl. lia. }
  rewrite Hlen'.
  destruct (Z.eqb_spec (Z.of_nat (S (length (processing_log st))) mod 100) 0)
    as [Hfull | Hpart]; cbn [snd].
  - unfold modify. cbn [snd processing_log set_processing_log].
    destruct (processing_log st ++ [e])%list as [| e0 l] eqn:Hlog; [discriminate |].
    cbn [processing_log set_processing_log log_file set_log_file]. simpl.
    split; [lia |]. split; [reflexivity |]. now apply prefix_app_r.
  - unfold ret. cbn [snd processing_log set_processing_log log_file]. rewrite Hlen'.
    split; [| split; [| reflexivity]].
    + assert (S (length (processing_log st)) <> 100)%nat; [| lia].
      intros Heq. rewrite Heq in Hpart. now apply Hpart.
    + intros Heq. rewrite Heq in Hpart. now destruct Hpart.
Qed.

(** ** The count of discovered links *)

Lemma counts_links_after {A} (m : M A) (f : A -> M (list string)) :
  preserves links_discovered m -> (forall a, counts_links (f a)) ->
  counts_links (bind m f).
Proof.
  intros Hm Hf st. unfold bind. pose proof (Hm st) as Hs.
  destruct (m st) as [[a | e] st1]; cbn [fst snd] in *.
  - rewrite (Hf a st1), Hs. reflexivity.
  - rewrite Hs. lia.
Qed.

Lemma counts_links_skip (url status reason : string) :
  counts_links (bind (log_processing url status reason 0) (fun _ => ret [])).
Proof.
  apply counts_links_after; [apply log_processing_preserves; reflexivity | intros _].
  intros st. simpl. lia.
Qed.

Lemma counts_links_add (valid_links : list string) (rest : M (list string)) :
  preserves links_discovered rest ->
  (forall st, fst (rest st) = Ok valid_links) ->
  counts_links (bind (add_links_discovered (Z.of_nat (length valid_links)))
                     (fun _ => rest)).
Proof.
  intros Hkeep Hret st. unfold bind, add_links_discovered, modify.
  rewrite Hret, Hkeep. reflexivity.
Qed.

(** X23.  [links_discovered] counts what [scraper] returns: a call adds
    to it the number of links in the list it returns, no more and no
    less, so none for a page that is skipped or fails. *)
Theorem scraper_counts_its_links (url : string) (resp : option Response) (st : State)
    (links : list string) :
  fst (scraper url resp st) = Ok links ->
  links_discovered (snd (scraper url resp st))
  = links_discovered st + Z.of_nat (length links).
Proof.
  assert (counts_links (scraper url resp)) as Hcount.
  { unfold scraper.
    apply counts_links_after; [now apply preserves_modify | intros _].
    destruct resp as [resp |]; [| apply counts_links_skip].
    destruct (negb _); [apply counts_links_skip |].
    assert (counts_links (scraper_body url resp)) as Hbody.
    { unfold scraper_body.
      apply counts_links_after; [apply preserves_lift | intros content].
      destruct content as [content |]; [| apply counts_links_skip].
      destruct (_ <? 100); [apply counts_links_skip |].
      destruct (_ <? _); [apply counts_links_skip |].
      apply counts_links_after; [apply preserves_lift | intros soup].
      destruct (extract_text_content_from_soup soup) as [text pruned]. cbv zeta.
      destruct (_ <? MIN_WORD_COUNT); [apply counts_links_skip |].
      apply counts_links_after; [apply is_duplicate_preserves; reflexivity | intros dup].
      destruct (fst dup).
      - apply counts_links_after; [apply log_processing_preserves; reflexivity | intros _].
        apply counts_links_after; [apply valid_links_of_preserves; reflexivity |].
        intros valid_links. apply counts_links_add; [apply preserves_ret | reflexivity].
      - apply counts_links_after; [apply valid_links_of_preserves; reflexivity |].
        intros valid_links. apply counts_links_add.
        + unfold save_page_data.
          repeat first
            [ apply log_processing_preserves; reflexivity
            | apply preserves_modify; reflexivity
            | preserves_step ].
        + intros st0. unfold bind at 1.
          match goal with
          | |- context [(if ?c then ?m else ret tt) st0] =>
              assert (exists st1, (if c then m else ret tt) st0 = (Ok tt, st1)) as [st1 ->]
                by (destruct c; eexists; reflexivity)
          end.
          unfold bind.
          destruct (log_processing_never_raises url "processed" "success"
                      (Z.of_nat (length valid_links)) st1) as [u Hu].
          destruct (log_processing _ _ _ _ st1) as [r st2]. cbn [fst] in Hu. subst r.
          reflexivity. }
    intros st0. unfold try_except. specialize (Hbody st0).
    destruct (scraper_body url resp st0) as [[ls | e] st1]; cbn [fst snd] in *.
    - exact Hbody.
    - rewrite (counts_links_skip url "error" (String.substring 0 30 (str_exc e)) st1), Hbody.
      lia. }
  intros Hlinks. rewrite (Hcount st), Hlinks. reflexivity.
Qed.

End ScraperWalk.

(* ===================================================================== *)
(** * The frontier that the constructor builds from the seeds             *)
(* ===================================================================== *)

Section InitProofs.
Context `{PyLib} `{Utils}.
Import Frontier.

Lemma add_url_raises (url : string) (fs : Frontier.State) (e : exc) :
  fst (add_url url fs) = Raise e -> snd (add_url url fs) = fs.
Proof.
  unfold add_url. destruct (get_urlhash (normalize url)); [| reflexivity].
  destruct (decide _); [discriminate |]. destruct (negb _); discriminate.
Qed.

Lemma add_url_keeps_seeded (config : Config) (seed : string) (fs : Frontier.State) :
  In seed (seed_urls config) ->
  well_formed fs /\ persisted fs /\ store_consistent (save fs) /\ seeded config fs ->
  let fs' := snd (add_url seed fs) in
  well_formed fs' /\ persisted fs' /\ store_consistent (save fs') /\ seeded config fs'.
Proof.
  intros Hseed ((Hkeys & Hnd & Hseen) & Hp & Hs & Hq & Hsave) fs'.
  destruct (handed_and_queued_step config (AddUrl seed) fs [] Hkeys Hnd Hseen)
    as (Hkeys' & Hnd' & Hseen').
  simpl in Hnd', Hseen'.
  split; [split; [exact Hkeys' | split; [exact Hnd' | exact Hseen']] |].
  split; [exact (persisted_step config (AddUrl seed) fs Hp) |].
  split; [exact (store_consistent_step config (AddUrl seed) fs Hs) |].
  subst fs'. destruct (add_url_effect seed fs) as [-> | (key & Hk & _ & _ & Hdq & _ & Hsv)];
    [split; assumption |].
  split.
  - intros url Hin. unfold queued in Hin. rewrite Hdq in Hin.
    apply (Permutation_in _ (queued_put _ _ _)) in Hin.
    apply in_app_or in Hin as [Hin | [<- | []]]; [now apply Hq |].
    exists seed. split; [exact Hseed | reflexivity].
  - intros k url completed Hin. rewrite Hsv in Hin.
    apply shelf_set_entries in Hin as [Heq | Hin]; [| now apply (Hsave k)].
    injection Heq as -> -> ->. split; [reflexivity |].
    exists seed. split; [exact Hseed | reflexivity].
Qed.

Lemma add_urls_keep_seeded (config : Config) (seeds : list string) :
  (forall seed, In seed seeds -> In seed (seed_urls config)) ->
  forall fs : Frontier.State,
    well_formed fs /\ persisted fs /\ store_consistent (save fs) /\ seeded config fs ->
    let fs' := snd (add_urls seeds fs) in
    well_formed fs' /\ persisted fs' /\ store_consistent (save fs') /\ seeded config fs'.
Proof.
  induction seeds as [| seed rest IH]; intros Hsub fs Hinv; [exact Hinv |].
  simpl. pose proof (add_url_keeps_seeded config seed fs (Hsub seed (or_introl eq_refl)) Hinv)
    as Hstep.
  pose proof (add_url_raises seed fs) as Hraise.
  destruct (add_url seed fs) as [[u | e] fs1]; cbn [fst snd] in *.
  - apply IH; [| exact Hstep]. intros s Hs. apply Hsub. now right.
  - rewrite (Hraise e eq_refl). exact Hinv.
Qed.


(** ** Reloading the save file *)

(** Distinct keys that are the hashes of their URLs make the URLs
    distinct. *)
Lemma store_urls_distinct (s : shelf) :
  store_consistent s -> List.NoDup (map (fun e => fst (snd e)) s).
Proof.
  intros [Hnd Hkeys]. induction s as [| [key [url completed]] rest IH]; [constructor |].
  simpl in *. apply NoDup_cons_iff in Hnd as [Hk Hnd]. constructor.
  - intros Hin. apply in_map_iff in Hin as ([k [u c]] & Heq & Hin). simpl in Heq. subst u.
    apply Hk. apply in_map_iff. exists (k, (url, c)). split; [| exact Hin]. simpl.
    pose proof (Hkeys key url completed (or_introl eq_refl)) as H1.
    pose proof (Hkeys k url c (or_intror Hin)) as H2. congruence.
  - apply IH; [exact Hnd |]. intros k u c Hin. apply (Hkeys k u c). now right.
Qed.

Lemma load_entries_well_formed (on_disk : shelf) (entries : shelf) :
  (forall e, In e entries -> In e on_disk) ->
  store_consistent on_disk -> normalized on_disk ->
  List.NoDup (map (fun e => fst (snd e)) entries) ->
  forall (fs : Frontier.State) (st : Scraper.State),
    save fs = on_disk ->
    well_formed fs -> persisted fs ->
    (forall url, In url (queued fs) -> ~ In url (map (fun e => fst (snd e)) entries)) ->
    well_formed (fst (load_entries entries fs st))
    /\ persisted (fst (load_entries entries fs st)).
Proof.
  intros Hsub Hstore Hnorm.
  induction entries as [| [key [url completed]] rest IH];
    intros Hurls fs st Hsave Hwf Hp Hnew; simpl; [now split |].
  simpl in Hurls. apply NoDup_cons_iff in Hurls as [Hurl Hurls].
  assert (forall e, In e rest -> In e on_disk) as Hsub' by (intros e He; apply Hsub; now right).
  assert (forall u, In u (queued fs) -> ~ In u (map (fun e => fst (snd e)) rest)) as Hnew'.
  { intros u Hu Hin. apply (Hnew u Hu). now right. }
  destruct completed; [now apply IH |].
  destruct (Scraper.is_valid url st) as [[[|] | e] st']; try now apply IH.
  destruct Hwf as (Hkeys & Hnd & Hseen).
  pose proof (Hsub _ (or_introl eq_refl)) as Hin.
  apply IH; try assumption.
  - split; [| split]; cbn [domain_queues set_urls_seen _add_to_domain_queue
                             set_domain_queues urls_seen].
    + now apply put_keys_NoDup.
    + unfold queued. cbn [domain_queues set_urls_seen _add_to_domain_queue
                            set_domain_queues].
      apply (Permutation_NoDup (Permutation_sym (queued_put _ _ _))).
      apply List.NoDup_app; fold (queued fs).
      * exact Hnd.
      * constructor; [intros [] | constructor].
      * intros u Hu [Heq | []]. subst u. apply (Hnew url Hu). now left.
    + intros u Hu. unfold queued in Hu.
      cbn [domain_queues set_urls_seen _add_to_domain_queue set_domain_queues] in Hu.
      apply (Permutation_in _ (queued_put _ _ _)) in Hu.
      apply elem_of_union. apply in_app_or in Hu as [Hu | [<- | []]].
      * right. now apply Hseen.
      * left. apply elem_of_singleton. symmetry. exact (Hnorm _ _ _ Hin).
  - intros u Hu. cbn [urls_seen set_urls_seen save _add_to_domain_queue set_domain_queues] in *.
    apply elem_of_union in Hu as [Hu | Hu]; [| now apply Hp].
    apply elem_of_singleton in Hu. subst u. rewrite (Hnorm _ _ _ Hin).
    exists key. split; [exact (proj2 Hstore _ _ _ Hin) |].
    rewrite Hsave. unfold shelf_has. apply existsb_exists.
    exists (key, (url, false)). split; [exact Hin | apply String.eqb_refl].
  - intros u Hu. unfold queued in Hu.
    cbn [domain_queues set_urls_seen _add_to_domain_queue set_domain_queues] in Hu.
    apply (Permutation_in _ (queued_put _ _ _)) in Hu.
    apply in_app_or in Hu as [Hu | [<- | []]]; [now apply Hnew' | exact Hurl].
Qed.

(** X25.  [Frontier(config, restart=False)] on a save file as the
    frontier writes it (no key twice, every entry under the hash of its
    URL, every URL as [normalize] leaves it): the frontier that the
    constructor builds has one queue per host, no URL queued twice, every
    queued URL in [urls_seen], and every URL of [urls_seen] in the save
    file under its hash; the save file is still as the frontier writes
    it.  So what holds of a frontier built from the seeds holds after a
    restart from the save file too. *)
Theorem init_reload_well_formed (config : Config) (on_disk : shelf) (st : Scraper.State) :
  store_consistent on_disk -> normalized on_disk ->
  let fs := snd (fst (init config false (Some on_disk) st)) in
  well_formed fs /\ persisted fs /\ store_consistent (save fs).
Proof.
  intros Hstore Hnorm fs. subst fs.
  destruct on_disk as [| entry rest] eqn:Hdisk.
  { assert (well_formed fresh /\ persisted fresh /\ store_consistent (save fresh)
            /\ seeded config fresh) as Hfresh.
    { split; [split; [constructor | split; [constructor | intros url []]] |].
      split; [intros url Hin; now apply elem_of_empty in Hin |].
      split; [split; [constructor | intros key url completed []] |].
      split; [intros url [] | intros key url completed []]. }
    destruct (add_urls_keep_seeded config (seed_urls config) (fun _ Hin => Hin) fresh Hfresh)
      as (Hwf & Hp & Hs & _).
    split; [exact Hwf | split; [exact Hp | exact Hs]]. }
  rewrite <- Hdisk in *.
  pose proof (load_entries_save on_disk (set_save on_disk fresh) st) as Hsave.
  destruct (load_entries_well_formed on_disk on_disk (fun _ Hin => Hin) Hstore Hnorm
              (store_urls_distinct on_disk Hstore) (set_save on_disk fresh) st eq_refl)
    as (Hwf & Hp).
  { split; [constructor | split; [constructor | intros url []]]. }
  { intros url Hin. now apply elem_of_empty in Hin. }
  { intros url []. }
  unfold init, _parse_save_file. cbn [save set_save].
  destruct (load_entries on_disk (set_save on_disk fresh) st) as [fs1 st1].
  cbn [fst snd save set_save] in *. rewrite Hsave, Hdisk. cbn [fst snd].
  rewrite Hsave. split; [exact Hwf | split; [exact Hp | exact Hstore]].
Qed.

End InitProofs.

(* ===================================================================== *)
(** * The further theorems at concrete inputs                             *)
(* ===================================================================== *)

(** The state before anything was added is well-formed; over the calls
    of the example the two URLs are handed out once each, in the order
    they were added, and nothing is left in a queue. *)
Lemma handed_out_once_witness :
  let L := Sample.lib Sample.no_parser in
  Frontier.well_formed Frontier.fresh
  /\ Frontier.handed_out (H := L) (H0 := Sample.utils) Sample.config Sample.calls
       Frontier.fresh
     = ["https://cs.uci.edu/1"; "https://cs.uci.edu/2"]
  /\ List.NoDup
       (Frontier.handed_out (H := L) (H0 := Sample.utils) Sample.config Sample.calls
          Frontier.fresh
        ++ Frontier.queued
             (Frontier.run_calls (H := L) (H0 := Sample.utils) Sample.config Sample.calls
                Frontier.fresh)).
Proof.
  intros L.
  assert (Frontier.well_formed Frontier.fresh) as Hwf.
  { split; [constructor | split; [constructor | intros url []]]. }
  split; [exact Hwf |]. split; [vm_compute; reflexivity |].
  exact (proj1 (handed_out_once (H := L) (H0 := Sample.utils) Sample.config Sample.calls
                  Frontier.fresh Hwf)).
Defined.

(** Two URLs of one host in its queue: the first is handed out, and the
    queue is left with the second. *)
Lemma host_queues_fifo_witness :
  let L := Sample.lib Sample.no_parser in
  let fs := Frontier.run_calls (H := L) (H0 := Sample.utils) Sample.config
              (firstn 2 Sample.calls) Frontier.fresh in
  let got := Frontier.get_tbd_url Sample.config 10 fs in
  List.NoDup (map fst (Frontier.domain_queues fs))
  /\ fst got = Some "https://cs.uci.edu/1"
  /\ exists h,
       Frontier.queue_of fs h = "https://cs.uci.edu/1" :: Frontier.queue_of (snd got) h
       /\ forall h', h' <> h -> Frontier.queue_of (snd got) h' = Frontier.queue_of fs h'.
Proof.
  intros L fs got.
  assert (List.NoDup (map fst (Frontier.domain_queues fs))) as Hkeys.
  { apply NoDup_ListNoDup. apply (bool_decide_unpack _). vm_compute. exact I. }
  split; [exact Hkeys |]. split; [vm_compute; reflexivity |].
  apply (proj1 (host_queues_fifo (H := L) (H0 := Sample.utils) Sample.config fs Hkeys) 10%Q).
  vm_compute. reflexivity.
Defined.

(** Nothing seen, nothing to persist; after the calls of the example
    every URL seen is in the save file. *)
Lemma seen_urls_persisted_witness :
  let L := Sample.lib Sample.no_parser in
  Frontier.persisted (H0 := Sample.utils) Frontier.fresh
  /\ Frontier.persisted (H0 := Sample.utils)
       (Frontier.run_calls (H := L) (H0 := Sample.utils) Sample.config Sample.calls
          Frontier.fresh).
Proof.
  intros L.
  assert (Frontier.persisted (H0 := Sample.utils) Frontier.fresh) as Hp.
  { intros url Hin. now apply elem_of_empty in Hin. }
  split; [exact Hp |].
  exact (proj1 (seen_urls_persisted (H := L) (H0 := Sample.utils) Sample.config Sample.calls
                  Frontier.fresh Hp)).
Defined.

(** A URL is added, handed out and marked complete; adding it once more
    neither resets its entry nor puts it in a queue. *)
Lemma completed_is_final_witness :
  let L := Sample.lib Sample.no_parser in
  let url := "https://cs.uci.edu/1" in
  let fs := Frontier.run_calls (H := L) (H0 := Sample.utils) Sample.config
              [Frontier.AddUrl url; Frontier.GetTbdUrl 10; Frontier.MarkUrlComplete url]
              Frontier.fresh in
  let fs' := Frontier.run_calls (H := L) (H0 := Sample.utils) Sample.config
               [Frontier.AddUrl url; Frontier.GetTbdUrl 11] fs in
  Frontier.shelf_get (Frontier.save fs) (Sample.digest url) = Some (url, true)
  /\ ~ In url (Frontier.queued fs)
  /\ (exists u, Frontier.shelf_get (Frontier.save fs') (Sample.digest url) = Some (u, true))
  /\ ~ In url (Frontier.queued fs').
Proof.
  intros L url fs fs'.
  assert (Frontier.shelf_get (Frontier.save fs) (Sample.digest url) = Some (url, true))
    as Hdone by (vm_compute; reflexivity).
  assert (~ In url (Frontier.queued fs)) as Hout by (vm_compute; intros []).
  split; [exact Hdone |]. split; [exact Hout |].
  apply (completed_is_final (H := L) (H0 := Sample.utils) Sample.config
           [Frontier.AddUrl url; Frontier.GetTbdUrl 11] fs url (Sample.digest url)).
  - reflexivity.
  - exists url. exact Hdone.
  - exact Hout.
Defined.

(** The worker gets the one URL of the frontier; the download gives the
    page of the example, whose link is added; the URL ends up marked
    complete and in no queue. *)
Lemma worker_completes_url_witness :
  let L := Sample.page_lib in
  let url := "https://ics.uci.edu/a" in
  let fs := snd (Frontier.add_url (H := L) (H0 := Sample.utils) url Frontier.fresh) in
  let pass := Worker.iteration (H := L) (H0 := Sample.utils) Sample.config 10 10 10
                (fun _ => Ok (Some Sample.response))
                {| Worker.consecutive_none_count := 7;
                   Worker.last_successful_download := 0 |}
                fs Scraper.initial in
  Frontier.well_formed fs
  /\ fst (Frontier.get_tbd_url Sample.config 10 fs) = Some url
  /\ fst (fst (fst pass)) = Worker.Continue
  /\ Worker.consecutive_none_count (snd (fst (fst pass))) = 0
  /\ Frontier.shelf_get (Frontier.save (snd (fst pass))) (Sample.digest url)
     = Some (url, true)
  /\ ~ In url (Frontier.queued (snd (fst pass))).
Proof.
  intros L url fs pass.
  assert (Frontier.well_formed fs) as Hwf.
  { split; [| split].
    - apply NoDup_ListNoDup. apply (bool_decide_unpack _). vm_compute. exact I.
    - apply NoDup_ListNoDup. apply (bool_decide_unpack _). vm_compute. exact I.
    - intros u Hin. vm_compute in Hin. destruct Hin as [<- | []].
      apply (bool_decide_unpack _). vm_compute. exact I. }
  split; [exact Hwf |]. split; [vm_compute; reflexivity |].
  destruct (worker_completes_url (H := L) (H0 := Sample.utils) Sample.config 10 10 10
              (fun _ => Ok (Some Sample.response))
              {| Worker.consecutive_none_count := 7;
                 Worker.last_successful_download := 0 |}
              fs (snd (Frontier.get_tbd_url Sample.config 10 fs)) Scraper.initial
              url (Sample.digest url))
    as (Hgo & Hcount & Hdone & Hout & _).
  - exact Hwf.
  - vm_compute. reflexivity.
  - discriminate.
  - reflexivity.
  - repeat split; assumption.
Defined.


(** A text of sixty words is checked twice, with another text in
    between: the second time it is an exact duplicate. *)
Lemma exact_duplicate_is_remembered_witness :
  let L := Sample.lib Sample.no_parser in
  let other := Sample.words_60 ++ " epsilon" in
  let st1 := Scraper.is_duplicate_all (H := L) [(other, "https://ics.uci.edu/b")]
               (snd (Scraper.is_duplicate (H := L) Sample.words_60 "https://ics.uci.edu/a"
                       Scraper.initial)) in
  100 <= Py.len (Py.strip Sample.words_60)
  /\ fst (Scraper.is_duplicate (H := L) Sample.words_60 "https://ics.uci.edu/c" st1)
     = Ok (true, Some "exact").
Proof.
  intros L other st1.
  assert (100 <= Py.len (Py.strip Sample.words_60)) as Hlen by (vm_compute; discriminate).
  split; [exact Hlen |].
  exact (proj1 (exact_duplicate_is_remembered (H := L)
                  Sample.words_60 "https://ics.uci.edu/a"
                  [(other, "https://ics.uci.edu/b")]
                  Sample.words_60 "https://ics.uci.edu/c"
                  Scraper.initial Hlen Hlen eq_refl)).
Defined.

(** A course page of [ics.uci.edu] is accepted in a fresh process, and
    both its counters stand at 1 afterwards. *)
Lemma accepted_url_in_scope_witness :
  let L := Sample.lib Sample.no_parser in
  let url := "https://ics.uci.edu/courses/cs101/" in
  let st' := snd (Scraper.is_valid (H := L) url Scraper.initial) in
  fst (Scraper.is_valid (H := L) url Scraper.initial) = Ok true
  /\ Scraper.passes_static_checks (H := L) url = true
  /\ Scraper.same_path_count (H := L) url st' = 1
  /\ Scraper.count_of (Scraper.url_pattern_counter st') (Scraper.get_url_pattern (H := L) url)
     = 1.
Proof.
  intros L url st'.
  assert (Scraper.is_valid (H := L) url Scraper.initial = (Ok true, st')) as Hok
    by (vm_compute; reflexivity).
  split; [now rewrite Hok |].
  destruct (accepted_url_in_scope (H := L) url Scraper.initial st' Hok)
    as (Hstatic & Hpattern & _ & Hpath & _).
  split; [exact Hstatic |]. split; [exact Hpath | exact Hpattern].
Defined.

(** A response with status 404: no links, and nothing but the log and
    the count of processed pages is touched. *)
Lemma scraper_skips_unusable_response_witness :
  let L := Sample.page_lib in
  let resp := Some {| Scraper.status := 404; Scraper.raw_response := None |} in
  Scraper.reaches_detector (H := L) resp = false
  /\ fst (Scraper.scraper (H := L) "https://ics.uci.edu/a" resp Scraper.initial) = Ok []
  /\ Scraper.beyond_log
       (snd (Scraper.scraper (H := L) "https://ics.uci.edu/a" resp Scraper.initial))
     = Scraper.beyond_log Scraper.initial.
Proof.
  intros L resp.
  assert (Scraper.reaches_detector (H := L) resp = false) as Hskip by reflexivity.
  split; [exact Hskip |].
  exact (scraper_skips_unusable_response (H := L) "https://ics.uci.edu/a" resp
           Scraper.initial Hskip).
Defined.

(** A fresh process has no samples; after a calendar URL was rejected,
    which keeps a sample, the cap holds. *)
Lemma rejection_samples_capped_witness :
  let L := Sample.lib Sample.no_parser in
  Scraper.samples_capped Scraper.initial
  /\ Scraper.samples_capped
       (snd (Scraper.is_valid (H := L) "https://ics.uci.edu/calendar" Scraper.initial)).
Proof.
  intros L.
  assert (Scraper.samples_capped Scraper.initial) as Hcap.
  { intros reason. cbn. rewrite lookup_empty. simpl. lia. }
  split; [exact Hcap |].
  exact (proj1 (rejection_samples_capped (H := L) "https://ics.uci.edu/calendar" None
                  Scraper.initial Hcap)).
Defined.

(** The first entry of a fresh process stays in memory. *)
Lemma log_processing_appends_witness :
  let st' := snd (Scraper.log_processing "https://ics.uci.edu/a" "skipped" "empty" 0
                    Scraper.initial) in
  (length (Scraper.processing_log Scraper.initial) < 100)%nat
  /\ length (Scraper.history st') = 1%nat
  /\ (length (Scraper.processing_log st') < 100)%nat.
Proof.
  intros st'.
  assert (length (Scraper.processing_log Scraper.initial) < 100)%nat as Hlen
    by (simpl; lia).
  split; [exact Hlen |].
  destruct (log_processing_appends "https://ics.uci.edu/a" "skipped" "empty" 0
              Scraper.initial Hlen)
    as (Hhist & Hbuf & _).
  split; [| exact Hbuf]. fold st' in Hhist. rewrite Hhist. reflexivity.
Defined.

(** The page of the example gives one link, and one link is counted. *)
Lemma scraper_counts_its_links_witness :
  let L := Sample.page_lib in
  let run := Scraper.scraper (H := L) "https://ics.uci.edu/a" (Some Sample.response)
               Scraper.initial in
  fst run = Ok ["https://ics.uci.edu/courses/cs101/"]
  /\ Scraper.links_discovered (snd run) = 1.
Proof.
  intros L run.
  assert (fst run = Ok ["https://ics.uci.edu/courses/cs101/"]) as Hlinks
    by (vm_compute; reflexivity).
  split; [exact Hlinks |].
  exact (scraper_counts_its_links (H := L) "https://ics.uci.edu/a" (Some Sample.response)
           Scraper.initial ["https://ics.uci.edu/courses/cs101/"] Hlinks).
Defined.


(** The save file of the example is as the frontier writes it, and the
    frontier reloaded from it is well-formed. *)
Lemma init_reload_well_formed_witness :
  let L := Sample.lib Sample.no_parser in
  let fs := snd (fst (Frontier.init (H := L) (H0 := Sample.utils) Sample.config false
                        (Some Sample.save_after_session) Scraper.initial)) in
  Frontier.store_consistent (H0 := Sample.utils) Sample.save_after_session
  /\ Frontier.normalized (H0 := Sample.utils) Sample.save_after_session
  /\ Frontier.well_formed fs
  /\ Frontier.persisted (H0 := Sample.utils) fs.
Proof.
  intros L fs.
  assert (Frontier.store_consistent (H0 := Sample.utils) Sample.save_after_session)
    as Hstore.
  { split.
    - apply NoDup_ListNoDup. apply (bool_decide_unpack _). vm_compute. exact I.
    - intros key url completed Hin. vm_compute in Hin.
      repeat (destruct Hin as [Hin | Hin];
              [injection Hin as <- <- <-; vm_compute; reflexivity |]).
      contradiction. }
  assert (Frontier.normalized (H0 := Sample.utils) Sample.save_after_session) as Hnorm.
  { intros key url completed Hin. vm_compute in Hin.
    repeat (destruct Hin as [Hin | Hin];
            [injection Hin as <- <- <-; vm_compute; reflexivity |]).
    contradiction. }
  split; [exact Hstore |]. split; [exact Hnorm |].
  destruct (init_reload_well_formed (H := L) (H0 := Sample.utils) Sample.config
              Sample.save_after_session Scraper.initial Hstore Hnorm)
    as (Hwf & Hp & _).
  split; [exact Hwf | exact Hp].
Defined.
